(** * KanbanBot: the priority scorer, the two report formatters and the
      column bucketer, embedded from the Python sources

    Sources embedded here:
    - [IssueSummaryBot/issue_summary_bot.py]: [calculate_issue_age],
      [analyze_contextual_priority], [get_priority_score],
      [format_issue_summary]; then [get_github_client],
      [get_openai_client], [fetch_open_issues], [summarize_issue],
      [generate_reading_materials], [generate_priority_recommendation],
      [create_or_update_summary_issue] and [main];
    - [KanbanSummaryBot/kanban_summary_bot.py]: [get_project_items],
      [format_kanban_summary]; then [get_github_token],
      [execute_graphql_query], [get_organization_projects],
      [get_repository_projects], [get_discussion_category_id],
      [create_discussion] and [main].

    Conventions of the embedding.
    - A Python [int] is a [Z].  A Python [float] is a binary64 value: it is
      [pyfloat] below, a finite value being the rational it denotes, and
      every arithmetic result is rounded by [b64_round] (round to nearest,
      ties to even, 53 bits, gradual underflow).  The negative zero is not
      represented; the program never produces one.
    - A Python [str] is a [string]; a character of the model stands for one
      character of the Python string.
    - A [datetime] is the number of microseconds since 0001-01-01T00:00:00
      UTC; [datetime.now(timezone.utc)] is an input of the model (the clock
      reading), because the code reads the clock.
    - A [dict] used as a map is a [gmap]; an object with fixed attributes is
      a record.
    - What is printed on [sys.stderr] is returned as a list of lines.
    - What a run meets outside the program (the environment, the command
      line, the hosting platform, the language model, the clock) is an
      input of the model of [main], and what it leaves (the lines printed,
      the writes sent, the exit status) is its value. *)

From Stdlib Require Import ZArith QArith Qround Qabs Qpower Qminmax Lqa Lia Ascii.
From stdpp Require Import base gmap strings list pretty.

(** A lemma of a section depends on the variables of its statement only. *)
#[global] Set Default Proof Using "Type".

(** ** Python numbers *)

Module PyNum.
Local Open Scope Q_scope.

(** Round half to even, to the nearest integer. *)
Definition rne (q : Q) : Z :=
  let f := Qfloor q in
  match Qcompare (q - inject_Z f) (1 # 2) with
  | Lt => f
  | Gt => (f + 1)%Z
  | Eq => if Z.even f then f else (f + 1)%Z
  end.

(** [ilog2 q] is the integer [e] with [2^e <= q < 2^(e+1)], for [0 < q]. *)
Definition ilog2 (q : Q) : Z :=
  let k := (Z.log2 (Qnum q) - Z.log2 (Z.pos (Qden q)))%Z in
  if Qle_bool (2 ^ k) q then k else (k - 1)%Z.

(** Exponent of the unit in the last place of the binary64 binade of [q]:
    53 significant bits, and never below the subnormal spacing [2^-1074]. *)
Definition b64_ulp_exp (q : Q) : Z := Z.max (ilog2 (Qabs q) - 52) (-1074).

(** Rounding of a real number to binary64 (overflow is decided by
    [float_of_Q]). *)
Definition b64_round (q : Q) : Q :=
  match Qcompare q 0 with
  | Eq => 0
  | _ => let s := b64_ulp_exp q in inject_Z (rne (q / 2 ^ s)) * 2 ^ s
  end.

(** A Python float. *)
Inductive pyfloat :=
  | FNan
  | FInf (neg : bool)
  | FFin (q : Q).

(** The rounded value of a real number; a result of magnitude [2^1024] or
    more is an infinity.  (Where CPython raises [OverflowError] instead, on
    the conversion or true division of an [int] beyond the binary64 range,
    the model gives the infinity; the integers of this program are day
    counts and comment counts capped at 50.) *)
Definition float_of_Q (q : Q) : pyfloat :=
  let r := b64_round q in
  if Qle_bool (2 ^ 1024) (Qabs r) then FInf (negb (Qle_bool 0 r)) else FFin r.

(** [a + b] on floats. *)
Definition fadd (a b : pyfloat) : pyfloat :=
  match a, b with
  | FNan, _ | _, FNan => FNan
  | FInf s, FInf t => if Bool.eqb s t then FInf s else FNan
  | FInf s, FFin _ | FFin _, FInf s => FInf s
  | FFin x, FFin y => float_of_Q (x + y)
  end.

(** [a < b] on floats: false as soon as one side is a NaN. *)
Definition flt (a b : pyfloat) : bool :=
  match a, b with
  | FNan, _ | _, FNan => false
  | FInf true, FInf true => false
  | FInf true, _ => true
  | _, FInf true => false
  | FInf false, _ => false
  | _, FInf false => true
  | FFin x, FFin y => negb (Qle_bool y x)
  end.

(** A Python number: an [int] or a [float]. *)
Inductive pynum :=
  | PInt (z : Z)
  | PFloat (f : pyfloat).

(** The exact value of a number (Python compares an [int] with a [float]
    by value, with no rounding of the [int]). *)
Definition num_real (x : pynum) : pyfloat :=
  match x with
  | PInt z => FFin (inject_Z z)
  | PFloat f => f
  end.

(** [float(x)], the conversion that mixed arithmetic applies to an [int]. *)
Definition to_float (x : pynum) : pyfloat :=
  match x with
  | PInt z => float_of_Q (inject_Z z)
  | PFloat f => f
  end.

(** [a < b] *)
Definition num_lt (a b : pynum) : bool := flt (num_real a) (num_real b).

(** [a + b]: exact on two ints, a float otherwise. *)
Definition num_add (a b : pynum) : pynum :=
  match a, b with
  | PInt x, PInt y => PInt (x + y)
  | _, _ => PFloat (fadd (to_float a) (to_float b))
  end.

(** [a / b] on two ints, [b] positive: the correctly rounded quotient. *)
Definition int_truediv (a : Z) (b : positive) : pynum :=
  PFloat (float_of_Q (a # b)).

(** The builtin [min(a, b)]: the first argument unless the second is
    smaller. *)
Definition py_min (a b : pynum) : pynum := if num_lt b a then b else a.

(** The builtin [max(a, b)]: the first argument unless the second is
    greater. *)
Definition py_max (a b : pynum) : pynum := if num_lt a b then b else a.

(** [x] is a finite number of value [q]. *)
Definition num_is (x : pynum) (q : Q) : Prop :=
  match num_real x with
  | FFin r => r == q
  | _ => False
  end.

(** [x] is a finite number with [lo <= x <= hi]. *)
Definition num_between (lo hi : Q) (x : pynum) : Prop :=
  match num_real x with
  | FFin r => lo <= r /\ r <= hi
  | _ => False
  end.

(** [a <= b] on two finite numbers. *)
Definition num_le (a b : pynum) : Prop :=
  match num_real a, num_real b with
  | FFin p, FFin q => p <= q
  | _, _ => False
  end.

(** The float literals of the sources. *)
Definition f0 : pynum := PFloat (FFin 0).
Definition f50 : pynum := PFloat (FFin 50).

(** *** Facts on the rounding *)

Lemma rne_bounds q : (Qfloor q <= rne q <= Qfloor q + 1)%Z.
Proof.
  unfold rne. destruct (Qcompare _ _); [destruct (Z.even _)| |]; lia.
Qed.

(** [rne] respects the equality of rationals. *)
Lemma rne_comp x y : x == y -> rne x = rne y.
Proof.
  intros E. unfold rne. rewrite (Qfloor_comp _ _ E).
  assert (H : x - inject_Z (Qfloor y) == y - inject_Z (Qfloor y)) by (rewrite E; reflexivity).
  rewrite (Qcompare_comp _ _ H _ _ (Qeq_refl (1 # 2))). reflexivity.
Qed.

(** An integer is its own rounding. *)
Lemma rne_inject z : rne (inject_Z z) = z.
Proof.
  unfold rne. rewrite Qfloor_Z.
  destruct (Qcompare_spec (inject_Z z - inject_Z z) (1 # 2)) as [H|H|H]; try lra.
  reflexivity.
Qed.

(** Rounding to the nearest integer is monotone. *)
Lemma rne_mono x y : x <= y -> (rne x <= rne y)%Z.
Proof.
  intros L. pose proof (Qfloor_resp_le _ _ L) as F.
  destruct (Z.eq_dec (Qfloor x) (Qfloor y)) as [E|N].
  - unfold rne. rewrite E.
    destruct (Qcompare_spec (x - inject_Z (Qfloor y)) (1 # 2)) as [H|H|H];
    destruct (Qcompare_spec (y - inject_Z (Qfloor y)) (1 # 2)) as [K|K|K];
    try destruct (Z.even _); try lia; lra.
  - pose proof (rne_bounds x). pose proof (rne_bounds y). lia.
Qed.

(** Push [inject_Z] through sums and opposites, for [lra]. *)
Ltac zq :=
  unfold Z.sub in *;
  repeat (rewrite ?inject_Z_plus, ?inject_Z_opp, ?inject_Z_mult in * );
  change (inject_Z 1) with 1 in *; change (inject_Z 2) with 2 in *;
  change (inject_Z 0) with 0 in *.

(** Ties to even is symmetric around 0. *)
Lemma rne_opp q : rne (- q) = (- rne q)%Z.
Proof.
  pose proof (Qfloor_le q) as L1. pose proof (Qlt_floor q) as L2.
  destruct (Qeq_dec q (inject_Z (Qfloor q))) as [E|N].
  - rewrite (rne_comp q _ E), rne_inject.
    assert (E' : - q == inject_Z (- Qfloor q)) by (rewrite inject_Z_opp, <- E; reflexivity).
    rewrite (rne_comp _ _ E'), rne_inject. reflexivity.
  - assert (F : Qfloor (- q) = (- Qfloor q - 1)%Z).
    { pose proof (Qfloor_le (- q)) as M1. pose proof (Qlt_floor (- q)) as M2.
      assert (A : (Qfloor (- q) < - Qfloor q)%Z).
      { apply Z.nle_gt. intros C. rewrite Zle_Qle in C. zq. apply N. lra. }
      assert (B : (- Qfloor q - 2 < Qfloor (- q))%Z).
      { rewrite Zlt_Qlt. zq. lra. }
      lia. }
    unfold rne. rewrite F. set (f := Qfloor q) in *.
    assert (Ev : Z.even (- f - 1) = negb (Z.even f)).
    { replace (- f - 1)%Z with (- (f + 1))%Z by lia.
      rewrite Z.even_opp, Z.even_add. destruct (Z.even f); reflexivity. }
    assert (Hq : - q - inject_Z (- f - 1) == 1 - (q - inject_Z f)).
    { unfold Z.sub. rewrite inject_Z_plus, !inject_Z_opp. change (inject_Z 1) with 1. ring. }
    rewrite Ev, (Qcompare_comp _ _ Hq _ _ (Qeq_refl (1 # 2))).
    destruct (Qcompare_spec (1 - (q - inject_Z f)) (1 # 2)) as [H|H|H];
    destruct (Qcompare_spec (q - inject_Z f) (1 # 2)) as [K|K|K];
    try (exfalso; lra); try destruct (Z.even f); simpl; lia.
Qed.

Lemma two_pow_pos e : 0 < 2 ^ e.
Proof. apply Qpower_0_lt. reflexivity. Qed.

Lemma two_pow_succ e : 2 ^ (e + 1) == 2 * 2 ^ e.
Proof. rewrite Qpower_plus by discriminate. rewrite Qpower_1_r. ring. Qed.

Lemma two_pow_pred e : 2 * 2 ^ (e - 1) == 2 ^ e.
Proof. rewrite <- two_pow_succ. replace (e - 1 + 1)%Z with e by lia. reflexivity. Qed.

Lemma two_pow_mono e1 e2 : (e1 <= e2)%Z -> 2 ^ e1 <= 2 ^ e2.
Proof. intros H. apply Qpower_le_compat_l; [exact H | discriminate]. Qed.

Lemma two_pow_lt_inv e1 e2 : 2 ^ e1 < 2 ^ e2 -> (e1 < e2)%Z.
Proof. intros H. apply (Qpower_lt_compat_l_inv 2); [exact H | reflexivity]. Qed.

(** [ilog2 q] is the binary exponent of a positive [q]. *)
Lemma ilog2_spec q : 0 < q -> 2 ^ ilog2 q <= q /\ q < 2 ^ (ilog2 q + 1).
Proof.
  intros Hq. destruct q as [n d].
  assert (Hn : (0 < n)%Z) by (unfold Qlt in Hq; simpl in Hq; lia).
  unfold ilog2. cbn [Qnum Qden].
  set (a := Z.log2 n). set (b := Z.log2 (Z.pos d)).
  pose proof (Z.log2_nonneg n) as Ha0. pose proof (Z.log2_nonneg (Z.pos d)) as Hb0.
  destruct (Z.log2_spec n Hn) as [Ha1 Ha2].
  destruct (Z.log2_spec (Z.pos d) eq_refl) as [Hb1 Hb2].
  fold a in Ha0, Ha1, Ha2. fold b in Hb0, Hb1, Hb2.
  rewrite Zle_Qle, Zpower_Qpower in Ha1, Hb1 by assumption.
  rewrite Zlt_Qlt, Z.pow_succ_r, inject_Z_mult, Zpower_Qpower in Ha2, Hb2 by assumption.
  change (inject_Z 2) with 2 in *.
  pose proof (two_pow_pos a) as PA. pose proof (two_pow_pos b) as PB.
  assert (Ek : 2 ^ (a - b) * 2 ^ b == 2 ^ a).
  { rewrite Qpower_minus by discriminate. field. intros C. rewrite C in PB. lra. }
  assert (Eq : (n # d) * inject_Z (Z.pos d) == inject_Z n).
  { rewrite (Qmake_Qdiv n d). field. intros C. rewrite C in Hb1. lra. }
  pose proof (two_pow_pos (a - b)) as PK.
  destruct (Qle_bool (2 ^ (a - b)) (n # d)) eqn:T.
  - apply Qle_bool_iff in T. split; [exact T|].
    rewrite two_pow_succ.
    apply Qnot_le_lt. intros C. nra.
  - assert (T' : n # d < 2 ^ (a - b)).
    { apply Qnot_le_lt. intros C. apply Qle_bool_iff in C. congruence. }
    replace (a - b - 1 + 1)%Z with (a - b)%Z by lia. split; [|exact T'].
    pose proof (two_pow_pred (a - b)) as P.
    apply Qnot_lt_le. intros C. nra.
Qed.

Lemma ilog2_unique q e : 2 ^ e <= q -> q < 2 ^ (e + 1) -> ilog2 q = e.
Proof.
  intros L U. assert (Hq : 0 < q) by (pose proof (two_pow_pos e); lra).
  destruct (ilog2_spec q Hq) as [L' U'].
  assert (2 ^ e < 2 ^ (ilog2 q + 1)) as A by lra.
  assert (2 ^ ilog2 q < 2 ^ (e + 1)) as B by lra.
  apply two_pow_lt_inv in A, B. lia.
Qed.

(** The binary exponent is monotone. *)
Lemma ilog2_mono x y : 0 < x -> x <= y -> (ilog2 x <= ilog2 y)%Z.
Proof.
  intros Hx L. assert (Hy : 0 < y) by lra.
  destruct (ilog2_spec x Hx) as [Lx _]. destruct (ilog2_spec y Hy) as [_ Uy].
  assert (2 ^ ilog2 x < 2 ^ (ilog2 y + 1)) as A by lra.
  apply two_pow_lt_inv in A. lia.
Qed.

Lemma ilog2_comp x y : x == y -> 0 < x -> ilog2 x = ilog2 y.
Proof.
  intros E Hx. destruct (ilog2_spec x Hx) as [L U].
  symmetry. apply ilog2_unique; rewrite <- E; assumption.
Qed.

Lemma b64_ulp_exp_comp x y : x == y -> ~ x == 0 -> b64_ulp_exp x = b64_ulp_exp y.
Proof.
  intros E N. unfold b64_ulp_exp. f_equal. f_equal.
  apply ilog2_comp; [rewrite E; reflexivity|].
  pose proof (Qabs_nonneg x) as H. apply Qle_lteq in H. destruct H as [H|H]; [exact H|].
  exfalso. apply N. revert H. apply Qabs_case; intros; lra.
Qed.

Lemma b64_round_unfold x :
  ~ x == 0 -> b64_round x = inject_Z (rne (x / 2 ^ b64_ulp_exp x)) * 2 ^ b64_ulp_exp x.
Proof.
  intros N. unfold b64_round.
  destruct (Qcompare_spec x 0) as [H|H|H]; [contradiction|reflexivity|reflexivity].
Qed.

Lemma b64_round_zero x : x == 0 -> b64_round x = 0.
Proof.
  intros E. unfold b64_round. apply Qeq_alt in E. rewrite E. reflexivity.
Qed.

(** [b64_round] respects the equality of rationals. *)
Lemma b64_round_comp x y : x == y -> b64_round x == b64_round y.
Proof.
  intros E. destruct (Qeq_dec x 0) as [Z|N].
  - rewrite (b64_round_zero x Z), (b64_round_zero y) by (rewrite <- E; exact Z). reflexivity.
  - assert (N' : ~ y == 0) by (rewrite <- E; exact N).
    rewrite (b64_round_unfold x N), (b64_round_unfold y N').
    rewrite <- (b64_ulp_exp_comp x y E N).
    rewrite (rne_comp (x / 2 ^ b64_ulp_exp x) (y / 2 ^ b64_ulp_exp x))
      by (apply Qdiv_comp; [exact E | reflexivity]).
    reflexivity.
Qed.

(** A multiple of the unit in the last place of its binade is exact. *)
Lemma b64_round_exact x m :
  x == inject_Z m * 2 ^ b64_ulp_exp x -> b64_round x == x.
Proof.
  intros E. destruct (Qeq_dec x 0) as [Z|N].
  - rewrite (b64_round_zero x Z), Z. reflexivity.
  - rewrite (b64_round_unfold x N).
    pose proof (two_pow_pos (b64_ulp_exp x)) as P.
    rewrite (rne_comp _ (inject_Z m)), rne_inject; [symmetry; exact E|].
    rewrite E at 1. field. lra.
Qed.

Lemma two_pow_add a b : 2 ^ (a + b) == 2 ^ a * 2 ^ b.
Proof. apply Qpower_plus. discriminate. Qed.

Lemma two_pow_inject n : (0 <= n)%Z -> inject_Z (2 ^ n) == 2 ^ n.
Proof. intros H. rewrite Zpower_Qpower by exact H. reflexivity. Qed.

(** The binade of [x]: [|x| < 2^(s+53)], and [2^(s+52) <= |x|] above the
    subnormal range. *)
Lemma b64_ulp_exp_spec x :
  ~ x == 0 ->
  let s := b64_ulp_exp x in
  (-1074 <= s)%Z /\ Qabs x < 2 ^ (s + 53) /\ ((-1074 < s)%Z -> 2 ^ (s + 52) <= Qabs x).
Proof.
  intros N s. subst s. unfold b64_ulp_exp.
  assert (P : 0 < Qabs x).
  { pose proof (Qabs_nonneg x) as H. apply Qle_lteq in H. destruct H as [H|H]; [exact H|].
    exfalso. apply N. revert H. apply Qabs_case; intros; lra. }
  destruct (ilog2_spec _ P) as [L U].
  set (e := ilog2 (Qabs x)) in *.
  split; [lia|]. split.
  - eapply Qlt_le_trans; [exact U|]. apply two_pow_mono. lia.
  - intros H. replace (Z.max (e - 52) (-1074) + 52)%Z with e by lia. exact L.
Qed.

(** A half-integer [k/2] with [|k| < 2^53] is a binary64 value. *)
Lemma b64_round_half k : (Z.abs k < 2 ^ 53)%Z -> b64_round (k # 2) == k # 2.
Proof.
  intros B. destruct (Qeq_dec (k # 2) 0) as [Z|N].
  - rewrite (b64_round_zero _ Z), Z. reflexivity.
  - destruct (b64_ulp_exp_spec _ N) as (S1 & S2 & S3).
    set (s := b64_ulp_exp (k # 2)) in *.
    assert (S4 : (s <= -1)%Z).
    { destruct (Z_le_gt_dec s (-1)) as [H|H]; [exact H|exfalso].
      assert (H1 : (-1074 < s)%Z) by lia. specialize (S3 H1).
      assert (H2 : 2 ^ 52 <= 2 ^ (s + 52)) by (apply two_pow_mono; lia).
      assert (H3 : Qabs (k # 2) < 2 ^ 52).
      { change (Qabs (k # 2)) with (Z.abs k # 2). rewrite <- two_pow_inject by lia.
        unfold Qlt. cbn [Qnum Qden inject_Z]. lia. }
      lra. }
    apply (b64_round_exact _ (k * 2 ^ (- s - 1))). fold s.
    rewrite inject_Z_mult, two_pow_inject by lia.
    rewrite <- Qmult_assoc, <- two_pow_add.
    replace (- s - 1 + s)%Z with (-1)%Z by lia.
    rewrite (Qmake_Qdiv k 2). reflexivity.
Qed.

(** The rounding of a non-negative number is not negative. *)
Lemma b64_round_nonneg x : 0 <= x -> 0 <= b64_round x.
Proof.
  intros H. destruct (Qeq_dec x 0) as [Z|N].
  - rewrite (b64_round_zero _ Z). lra.
  - rewrite (b64_round_unfold _ N).
    pose proof (two_pow_pos (b64_ulp_exp x)) as P.
    apply Qmult_le_0_compat; [|lra].
    change 0 with (inject_Z 0). rewrite <- Zle_Qle, <- (rne_inject 0).
    apply rne_mono. change (inject_Z 0) with 0. apply Qle_shift_div_l; [exact P | lra].
Qed.

(** Monotonicity on the positive numbers: inside a binade by [rne_mono],
    across two binades through the power of two between them. *)
Lemma b64_round_mono_pos x y : 0 < x -> x <= y -> b64_round x <= b64_round y.
Proof.
  intros Hx L. assert (Hy : 0 < y) by lra.
  assert (Nx : ~ x == 0) by lra. assert (Ny : ~ y == 0) by lra.
  rewrite (b64_round_unfold _ Nx), (b64_round_unfold _ Ny).
  destruct (b64_ulp_exp_spec _ Nx) as (X1 & X2 & X3).
  destruct (b64_ulp_exp_spec _ Ny) as (Y1 & Y2 & Y3).
  assert (M : (b64_ulp_exp x <= b64_ulp_exp y)%Z).
  { unfold b64_ulp_exp. apply Z.max_le_compat_r, Z.sub_le_mono_r.
    apply ilog2_mono; rewrite !Qabs_pos by lra; assumption. }
  rewrite Qabs_pos in X2, X3, Y2, Y3 by lra.
  set (sx := b64_ulp_exp x) in *. set (sy := b64_ulp_exp y) in *.
  pose proof (two_pow_pos sx) as Px. pose proof (two_pow_pos sy) as Py.
  destruct (Z.eq_dec sx sy) as [E|NE].
  - rewrite <- E. apply Qmult_le_compat_r; [|lra].
    rewrite <- Zle_Qle. apply rne_mono.
    apply Qmult_le_compat_r; [exact L|]. apply Qlt_le_weak, Qinv_lt_0_compat, Px.
  - assert (A : inject_Z (rne (x / 2 ^ sx)) <= 2 ^ 53).
    { rewrite <- (two_pow_inject 53) by lia. rewrite <- Zle_Qle.
      apply Z.le_trans with (rne (inject_Z (2 ^ 53))); [|rewrite rne_inject; lia].
      apply rne_mono.
      rewrite (two_pow_inject 53) by lia.
      apply Qle_shift_div_r; [exact Px|]. rewrite <- two_pow_add.
      replace (53 + sx)%Z with (sx + 53)%Z by lia. lra. }
    assert (B : 2 ^ 52 <= inject_Z (rne (y / 2 ^ sy))).
    { rewrite <- (two_pow_inject 52) by lia. rewrite <- Zle_Qle.
      apply Z.le_trans with (rne (inject_Z (2 ^ 52))); [rewrite rne_inject; lia|].
      apply rne_mono.
      rewrite (two_pow_inject 52) by lia.
      apply Qle_shift_div_l; [exact Py|]. rewrite <- two_pow_add.
      replace (52 + sy)%Z with (sy + 52)%Z by lia. apply Y3. lia. }
    assert (C : 2 ^ 53 * 2 ^ sx <= 2 ^ 52 * 2 ^ sy).
    { rewrite <- !two_pow_add. apply two_pow_mono. lia. }
    nra.
Qed.

Lemma b64_round_mono_nonneg x y : 0 <= x -> x <= y -> b64_round x <= b64_round y.
Proof.
  intros Hx L. destruct (Qeq_dec x 0) as [Z|N].
  - rewrite (b64_round_zero _ Z). apply b64_round_nonneg. lra.
  - apply b64_round_mono_pos; [lra | exact L].
Qed.

(** Rounding is symmetric around 0. *)
Lemma b64_round_opp x : b64_round (- x) == - b64_round x.
Proof.
  destruct (Qeq_dec x 0) as [Z|N].
  - rewrite (b64_round_zero x Z), (b64_round_zero (- x)) by (rewrite Z; reflexivity). reflexivity.
  - assert (N' : ~ - x == 0) by (intros C; apply N; lra).
    rewrite (b64_round_unfold _ N), (b64_round_unfold _ N').
    assert (E : b64_ulp_exp (- x) = b64_ulp_exp x).
    { unfold b64_ulp_exp. f_equal. f_equal. apply ilog2_comp; [apply Qabs_opp|].
      pose proof (Qabs_nonneg (- x)) as H. apply Qle_lteq in H. destruct H as [H|H]; [exact H|].
      exfalso. apply N'. revert H. apply Qabs_case; intros; lra. }
    rewrite E. pose proof (two_pow_pos (b64_ulp_exp x)) as P.
    rewrite (rne_comp (- x / 2 ^ b64_ulp_exp x) (- (x / 2 ^ b64_ulp_exp x))) by (field; lra).
    rewrite rne_opp, inject_Z_opp. ring.
Qed.

(** Rounding to binary64 is monotone. *)
Lemma b64_round_mono x y : x <= y -> b64_round x <= b64_round y.
Proof.
  intros L. destruct (Qlt_le_dec x 0) as [Hx|Hx].
  - pose proof (b64_round_opp x) as Ox.
    assert (Rx : b64_round x <= 0).
    { pose proof (b64_round_nonneg (- x)). lra. }
    destruct (Qlt_le_dec y 0) as [Hy|Hy].
    + pose proof (b64_round_opp y) as Oy.
      assert (b64_round (- y) <= b64_round (- x)) by (apply b64_round_mono_pos; lra).
      lra.
    + pose proof (b64_round_nonneg y Hy). lra.
  - apply b64_round_mono_nonneg; assumption.
Qed.

(** An integer below [2^52] in magnitude is a binary64 value. *)
Lemma b64_round_int z : (Z.abs z < 2 ^ 52)%Z -> b64_round (inject_Z z) == inject_Z z.
Proof.
  intros B.
  assert (E : inject_Z z == 2 * z # 2) by (unfold Qeq; cbn [Qnum Qden inject_Z]; lia).
  rewrite (b64_round_comp _ _ E), b64_round_half by lia. symmetry. exact E.
Qed.

(** *** Facts on the floats *)

Lemma two_pow_1024_big q : Qabs q <= inject_Z (2 ^ 52) -> Qle_bool (2 ^ 1024) (Qabs q) = false.
Proof.
  intros H. destruct (Qle_bool (2 ^ 1024) (Qabs q)) eqn:E; [|reflexivity].
  apply Qle_bool_iff in E. exfalso.
  assert (K : inject_Z (2 ^ 52) < 2 ^ 1024).
  { rewrite (two_pow_inject 52) by lia.
    apply Qpower_lt_compat_l; [lia | reflexivity]. }
  lra.
Qed.

(** The float of a number between two integers is finite and lies between
    them. *)
Lemma float_of_Q_between (lo hi : Z) q :
  (Z.abs lo < 2 ^ 52)%Z -> (Z.abs hi < 2 ^ 52)%Z ->
  inject_Z lo <= q -> q <= inject_Z hi ->
  float_of_Q q = FFin (b64_round q) /\
  inject_Z lo <= b64_round q /\ b64_round q <= inject_Z hi.
Proof.
  intros Blo Bhi L H.
  assert (L' : inject_Z lo <= b64_round q).
  { rewrite <- (b64_round_int lo Blo). apply b64_round_mono, L. }
  assert (H' : b64_round q <= inject_Z hi).
  { rewrite <- (b64_round_int hi Bhi). apply b64_round_mono, H. }
  split; [|split; assumption].
  unfold float_of_Q. rewrite two_pow_1024_big; [reflexivity|].
  assert (A : - inject_Z (2 ^ 52) <= inject_Z lo).
  { rewrite <- inject_Z_opp, <- Zle_Qle. lia. }
  assert (B : inject_Z hi <= inject_Z (2 ^ 52)).
  { rewrite <- Zle_Qle. lia. }
  apply Qabs_case; intros; lra.
Qed.

(** The float of a half-integer is that half-integer. *)
Lemma float_of_Q_half k :
  (Z.abs k < 2 ^ 53)%Z ->
  float_of_Q (k # 2) = FFin (b64_round (k # 2)) /\ b64_round (k # 2) == k # 2.
Proof.
  intros B. pose proof (b64_round_half k B) as E. split; [|exact E].
  unfold float_of_Q. rewrite two_pow_1024_big; [reflexivity|].
  rewrite E. change (Qabs (k # 2)) with (Z.abs k # 2).
  unfold Qle. cbn [Qnum Qden inject_Z]. lia.
Qed.

(** *** Facts on the numbers *)

Lemma Qle_bool_false x y : Qle_bool x y = false -> y < x.
Proof.
  intros H. apply Qnot_le_lt. intros C. apply Qle_bool_iff in C. congruence.
Qed.

(** Case analysis on every boolean comparison of rationals in the goal. *)
Ltac qcases :=
  repeat match goal with
  | |- context [Qle_bool ?a ?b] =>
      let E := fresh "E" in
      destruct (Qle_bool a b) eqn:E;
      [apply Qle_bool_iff in E | apply Qle_bool_false in E]
  end.

Lemma float_of_Q_halfint q k :
  q == k # 2 -> (Z.abs k < 2 ^ 53)%Z ->
  float_of_Q q = FFin (b64_round q) /\ b64_round q == q.
Proof.
  intros E B. destruct (float_of_Q_half k B) as [_ H].
  assert (R : b64_round q == q).
  { rewrite (b64_round_comp _ _ E), H. symmetry. exact E. }
  split; [|exact R].
  unfold float_of_Q. rewrite two_pow_1024_big; [reflexivity|].
  rewrite R, E. change (Qabs (k # 2)) with (Z.abs k # 2).
  unfold Qle. cbn [Qnum Qden inject_Z]. lia.
Qed.

(** The value of [float(x)] when [x] is a half-integer in the exact range. *)
Lemma to_float_half x k :
  num_is x (k # 2) -> (Z.abs k < 2 ^ 53)%Z ->
  exists r, to_float x = FFin r /\ r == k # 2.
Proof.
  intros H B. destruct x as [z|f]; unfold num_is in H; simpl in H.
  - destruct (float_of_Q_halfint (inject_Z z) k H B) as [E R].
    exists (b64_round (inject_Z z)). simpl. split; [exact E|]. rewrite R. exact H.
  - destruct f as [| |r]; try contradiction. exists r. split; [reflexivity | exact H].
Qed.

(** The sum of two half-integers is exact. *)
Lemma num_add_half x y kx ky :
  num_is x (kx # 2) -> num_is y (ky # 2) ->
  (Z.abs kx < 2 ^ 52)%Z -> (Z.abs ky < 2 ^ 52)%Z ->
  num_is (num_add x y) ((kx + ky) # 2).
Proof.
  intros Hx Hy Bx By.
  assert (S : forall a b, a == kx # 2 -> b == ky # 2 -> a + b == (kx + ky) # 2).
  { intros a b Ea Eb. rewrite Ea, Eb. unfold Qeq, Qplus. cbn [Qnum Qden]. lia. }
  assert (G : num_is (PFloat (fadd (to_float x) (to_float y))) ((kx + ky) # 2)).
  { destruct (to_float_half x kx Hx) as (rx & Ex & Rx); [lia|].
    destruct (to_float_half y ky Hy) as (ry & Ey & Ry); [lia|].
    rewrite Ex, Ey. unfold fadd.
    destruct (float_of_Q_halfint (rx + ry) (kx + ky) (S _ _ Rx Ry)) as [E R]; [lia|].
    unfold num_is. simpl. rewrite E, R. apply S; assumption. }
  destruct x as [a|fx], y as [b|fy]; try exact G.
  unfold num_is in *. simpl in *. rewrite inject_Z_plus. apply S; assumption.
Qed.

Lemma to_float_between x (lo hi : Z) :
  num_between (inject_Z lo) (inject_Z hi) x ->
  (Z.abs lo < 2 ^ 52)%Z -> (Z.abs hi < 2 ^ 52)%Z ->
  exists r, to_float x = FFin r /\ inject_Z lo <= r /\ r <= inject_Z hi.
Proof.
  intros H Bl Bh. destruct x as [z|f]; unfold num_between in H; simpl in H.
  - destruct H as [H1 H2].
    destruct (float_of_Q_between lo hi (inject_Z z) Bl Bh H1 H2) as (E & L & U).
    exists (b64_round (inject_Z z)). simpl. split; [exact E | split; assumption].
  - destruct f as [| |r]; try contradiction. exists r. split; [reflexivity | exact H].
Qed.

(** The sum of two bounded numbers is bounded by the sums of the bounds. *)
Lemma num_add_between x y (a b c d : Z) :
  num_between (inject_Z a) (inject_Z b) x ->
  num_between (inject_Z c) (inject_Z d) y ->
  (Z.abs a < 2 ^ 51)%Z -> (Z.abs b < 2 ^ 51)%Z ->
  (Z.abs c < 2 ^ 51)%Z -> (Z.abs d < 2 ^ 51)%Z ->
  num_between (inject_Z (a + c)) (inject_Z (b + d)) (num_add x y).
Proof.
  intros Hx Hy Ba Bb Bc Bd.
  assert (G : num_between (inject_Z (a + c)) (inject_Z (b + d))
                (PFloat (fadd (to_float x) (to_float y)))).
  { destruct (to_float_between x a b Hx) as (rx & Ex & Lx & Ux); [lia | lia |].
    destruct (to_float_between y c d Hy) as (ry & Ey & Ly & Uy); [lia | lia |].
    rewrite Ex, Ey. unfold fadd.
    destruct (float_of_Q_between (a + c) (b + d) (rx + ry)) as (E & L & U);
      [lia | lia | rewrite inject_Z_plus; lra | rewrite inject_Z_plus; lra |].
    unfold num_between. simpl. rewrite E. split; assumption. }
  destruct x as [p|fx], y as [q|fy]; try exact G.
  unfold num_between in *. simpl in *. rewrite !inject_Z_plus. lra.
Qed.

(** The clamp [max(0.0, min(score, 50.0))] lands in [[0, 50]] on every
    float, the NaN and the infinities included. *)
Lemma clamp_between (score : pyfloat) :
  num_between 0 50 (py_max f0 (py_min (PFloat score) f50)).
Proof.
  unfold py_max, py_min, num_lt, f0, f50, num_between.
  destruct score as [|[|]|q]; simpl; qcases; simpl; qcases; simpl; lra.
Qed.

(** The clamp leaves a value of [[0, 50]] as it is. *)
Lemma clamp_in_range q :
  0 <= q -> q <= 50 -> num_is (py_max f0 (py_min (PFloat (FFin q)) f50)) q.
Proof.
  intros L U. unfold py_max, py_min, num_lt, f0, f50, num_is.
  simpl; qcases; simpl; qcases; simpl; lra.
Qed.

(** The value of the clamp [max(0.0, min(score, 50.0))]: a float, which is
    the score when it lies in [[0, 50]], 0.0 when it is below 0 or a NaN,
    and 50.0 when it is above 50. *)
Lemma clamp_value (score : pyfloat) :
  exists f,
    py_max f0 (py_min (PFloat score) f50) = PFloat f /\
    match score with
    | FFin q => num_is (PFloat f) (Qmax 0 (Qmin q 50))
    | FInf false => num_is (PFloat f) 50
    | FInf true | FNan => num_is (PFloat f) 0
    end.
Proof.
  unfold py_max, py_min, num_lt, f0, f50, num_is.
  destruct score as [|[|]|q]; cbn [num_real flt].
  - eexists; split; reflexivity.
  - eexists; split; reflexivity.
  - eexists; split; reflexivity.
  - qcases; cbn [negb num_real flt]; qcases; cbn [negb]; eexists; (split; [reflexivity|]);
      cbn [num_real];
      apply Q.max_case_strong; try (intros ? ? ->; tauto); intros;
      revert H; apply Q.min_case_strong; try (intros ? ? ->; tauto); intros; lra.
Qed.

Lemma num_is_le x y p q : num_is x p -> num_is y q -> p <= q -> num_le x y.
Proof.
  unfold num_is, num_le. destruct (num_real x); try contradiction.
  destruct (num_real y); try contradiction. intros -> ->. exact (fun H => H).
Qed.

Lemma num_between_comp lo hi lo' hi' x :
  lo' <= lo -> hi <= hi' -> num_between lo hi x -> num_between lo' hi' x.
Proof.
  unfold num_between. destruct (num_real x); try contradiction. intros; lra.
Qed.

(** The float of a number between two half-integers is finite and lies
    between them. *)
Lemma float_of_Q_between_halves (lo hi : Z) q :
  (Z.abs lo < 2 ^ 53)%Z -> (Z.abs hi < 2 ^ 53)%Z ->
  lo # 2 <= q -> q <= hi # 2 ->
  float_of_Q q = FFin (b64_round q) /\ lo # 2 <= b64_round q /\ b64_round q <= hi # 2.
Proof.
  intros Blo Bhi L H.
  assert (L' : lo # 2 <= b64_round q).
  { rewrite <- (b64_round_half lo Blo). apply b64_round_mono, L. }
  assert (H' : b64_round q <= hi # 2).
  { rewrite <- (b64_round_half hi Bhi). apply b64_round_mono, H. }
  split; [|split; assumption].
  unfold float_of_Q. rewrite two_pow_1024_big; [reflexivity|].
  assert (A : - inject_Z (2 ^ 52) <= lo # 2).
  { unfold Qle. cbn [Qnum Qden inject_Z Qopp]. lia. }
  assert (B : hi # 2 <= inject_Z (2 ^ 52)).
  { unfold Qle. cbn [Qnum Qden inject_Z]. lia. }
  apply Qabs_case; intros; lra.
Qed.

(** The sum of a half-integer and a bounded number lies between the sums
    with the bounds. *)
Lemma num_add_half_between x y k (c d : Z) :
  num_is x (k # 2) -> num_between (inject_Z c) (inject_Z d) y ->
  (Z.abs k < 2 ^ 52)%Z -> (Z.abs c < 2 ^ 51)%Z -> (Z.abs d < 2 ^ 51)%Z ->
  num_between ((k + 2 * c) # 2) ((k + 2 * d) # 2) (num_add x y).
Proof.
  intros Hx Hy Bk Bc Bd.
  assert (S : forall (a b : Q) (m : Z), a == k # 2 ->
                (inject_Z m <= b -> (k + 2 * m) # 2 <= a + b) /\
                (b <= inject_Z m -> a + b <= (k + 2 * m) # 2)).
  { intros a b m Ea.
    assert (E : (k + 2 * m) # 2 == a + inject_Z m).
    { rewrite Ea. unfold Qeq, Qplus. cbn [Qnum Qden inject_Z]. lia. }
    split; intros; lra. }
  assert (G : num_between ((k + 2 * c) # 2) ((k + 2 * d) # 2)
                (PFloat (fadd (to_float x) (to_float y)))).
  { destruct (to_float_half x k Hx) as (rx & Ex & Rx); [lia|].
    destruct (to_float_between y c d Hy) as (ry & Ey & Ly & Uy); [lia | lia |].
    rewrite Ex, Ey. unfold fadd.
    destruct (float_of_Q_between_halves (k + 2 * c) (k + 2 * d) (rx + ry)) as (E & L & U);
      [lia | lia | apply (S rx ry c Rx), Ly | apply (S rx ry d Rx), Uy |].
    unfold num_between. simpl. rewrite E. split; assumption. }
  destruct x as [a|fx], y as [b|fy]; try exact G.
  unfold num_is, num_between in *. simpl in *. destruct Hy as [Ly Uy].
  rewrite inject_Z_plus. split.
  - apply (S (inject_Z a) (inject_Z b) c Hx), Ly.
  - apply (S (inject_Z a) (inject_Z b) d Hx), Uy.
Qed.

(** *** Facts on the order *)

Lemma float_of_Q_not_nan q : float_of_Q q <> FNan.
Proof. unfold float_of_Q. destruct (Qle_bool _ _); discriminate. Qed.

(** [<] is asymmetric on all numbers. *)
Lemma num_lt_asym a b : num_lt a b = true -> num_lt b a = false.
Proof.
  unfold num_lt. destruct (num_real a) as [|[|]|p], (num_real b) as [|[|]|q];
    cbn; try congruence.
  qcases; cbn; try congruence. lra.
Qed.

(** Not being less is transitive through a number that is no NaN. *)
Lemma num_ge_trans a b c :
  num_real b <> FNan ->
  num_lt a b = false -> num_lt b c = false -> num_lt a c = false.
Proof.
  unfold num_lt. destruct (num_real a) as [|[|]|p], (num_real b) as [|[|]|q],
    (num_real c) as [|[|]|r]; cbn; try congruence.
  qcases; cbn; try congruence. lra.
Qed.

(** Two numbers neither of which is less than the other, with no NaN among
    them, are less than the same numbers. *)
Lemma num_lt_same a b c :
  num_real a <> FNan -> num_real b <> FNan ->
  num_lt a b = false -> num_lt b a = false ->
  num_lt b c = true -> num_lt a c = true.
Proof.
  unfold num_lt. destruct (num_real a) as [|[|]|p], (num_real b) as [|[|]|q],
    (num_real c) as [|[|]|r]; cbn; try congruence.
  qcases; cbn; try congruence. lra.
Qed.

(** A sum with a bounded number is a NaN only if the other number is. *)
Lemma num_add_not_nan x y (lo hi : Z) :
  num_real x <> FNan ->
  num_between (inject_Z lo) (inject_Z hi) y ->
  (Z.abs lo < 2 ^ 52)%Z -> (Z.abs hi < 2 ^ 52)%Z ->
  num_real (num_add x y) <> FNan.
Proof.
  intros Hx Hy Bl Bh.
  destruct (to_float_between y lo hi Hy Bl Bh) as (ry & Ey & _).
  assert (G : fadd (to_float x) (to_float y) <> FNan).
  { rewrite Ey. destruct x as [a|[|s|q]]; cbn [to_float fadd].
    - destruct (float_of_Q (inject_Z a)) eqn:F; [|discriminate|apply float_of_Q_not_nan].
      exfalso. exact (float_of_Q_not_nan _ F).
    - exfalso. apply Hx. reflexivity.
    - discriminate.
    - apply float_of_Q_not_nan. }
  destruct x as [a|fx], y as [b|fy]; try exact G. discriminate.
Qed.

(** *** Facts on the floats that may be minus infinity *)

(** A float that is minus infinity, or finite and at most [k / 2]. *)
Definition at_most_half (f : pyfloat) (k : Z) : Prop :=
  match f with
  | FInf true => True
  | FFin r => r <= k # 2
  | _ => False
  end.

Lemma float_of_Q_at_most k q :
  (Z.abs k < 2 ^ 53)%Z -> q <= k # 2 -> at_most_half (float_of_Q q) k.
Proof.
  intros B H.
  assert (R : b64_round q <= k # 2).
  { rewrite <- (b64_round_half k B). apply b64_round_mono, H. }
  unfold float_of_Q.
  destruct (Qle_bool (2 ^ 1024) (Qabs (b64_round q))) eqn:O; [|exact R].
  destruct (Qle_bool 0 (b64_round q)) eqn:S; [|exact I].
  apply Qle_bool_iff in S. exfalso.
  rewrite two_pow_1024_big in O; [discriminate|].
  rewrite Qabs_pos by exact S.
  assert (K : k # 2 <= inject_Z (2 ^ 52)).
  { unfold Qle. cbn [Qnum Qden inject_Z]. lia. }
  lra.
Qed.

(** Adding a number of [[c, d]] to such a float gives such a float. *)
Lemma fadd_at_most f k y (c d : Z) :
  at_most_half f k -> num_between (inject_Z c) (inject_Z d) y ->
  (Z.abs c < 2 ^ 51)%Z -> (Z.abs d < 2 ^ 51)%Z -> (Z.abs k < 2 ^ 52)%Z ->
  at_most_half (fadd f (to_float y)) (k + 2 * d).
Proof.
  intros F Y Bc Bd Bk.
  destruct (to_float_between y c d Y) as (ry & Ey & _ & Uy); [lia | lia |].
  rewrite Ey. destruct f as [|[|]|r]; try contradiction; [exact I|].
  cbn [fadd]. apply float_of_Q_at_most; [lia|].
  cbn [at_most_half] in F.
  assert (E : (k + 2 * d) # 2 == (k # 2) + inject_Z d).
  { unfold Qeq, Qplus. cbn [Qnum Qden inject_Z]. lia. }
  rewrite E. lra.
Qed.

Lemma at_most_half_lt f k z :
  at_most_half f k -> (k < 2 * z)%Z -> num_lt (PFloat f) (PInt z) = true.
Proof.
  intros F L. unfold num_lt. cbn [num_real].
  destruct f as [|[|]|r]; try contradiction; [reflexivity|].
  cbn [flt at_most_half] in *. qcases; [|reflexivity]. exfalso.
  assert (K : k # 2 < inject_Z z).
  { unfold Qlt. cbn [Qnum Qden inject_Z]. lia. }
  lra.
Qed.

Lemma num_add_float f y : num_add (PFloat f) y = PFloat (fadd f (to_float y)).
Proof. destruct y; reflexivity. Qed.

End PyNum.

(** ** Python strings *)

Module PyStr.

(** The newline character, as a string. *)
Definition nl : string := String "010"%char "".

(** [str.isspace] on one character (code points below 256). *)
Definition is_space (c : ascii) : bool :=
  let n := N_of_ascii c in
  ((9 <=? n) && (n <=? 13) || (28 <=? n) && (n <=? 32) || (n =? 133) || (n =? 160))%N.

(** Truth value of a string: false on the empty string only. *)
Definition str_truthy (s : string) : bool :=
  match s with
  | EmptyString => false
  | String _ _ => true
  end.

(** [s[:n]] *)
Fixpoint str_take (n : nat) (s : string) : string :=
  match n, s with
  | S n', String c rest => String c (str_take n' rest)
  | _, _ => EmptyString
  end.

(** [s.lstrip()], [s.rstrip()], [s.strip()] *)
Fixpoint lstrip (s : string) : string :=
  match s with
  | EmptyString => EmptyString
  | String c rest => if is_space c then lstrip rest else s
  end.

Definition rstrip (s : string) : string := String.rev (lstrip (String.rev s)).

Definition strip (s : string) : string := rstrip (lstrip s).

(** [s.split()]: the maximal runs of characters that are not white space,
    in order. [cur] is the run being read. *)
Fixpoint split_go (cur : string) (s : string) : list string :=
  match s with
  | EmptyString => if str_truthy cur then [cur] else []
  | String c rest =>
      if is_space c
      then (if str_truthy cur then [cur] else []) ++ split_go EmptyString rest
      else split_go (cur +:+ String c EmptyString) rest
  end.

Definition split (s : string) : list string := split_go EmptyString s.

(** [c.lower()] and [s.lower()] on the ASCII letters. A character outside
    ASCII is left as it is: Python lowers some of them, but never to a
    letter of the words this program compares with ("status", "state"). *)
Definition lower_char (c : ascii) : ascii :=
  let n := N_of_ascii c in
  if ((65 <=? n) && (n <=? 90))%N then ascii_of_N (n + 32) else c.

Fixpoint lower (s : string) : string :=
  match s with
  | EmptyString => EmptyString
  | String c rest => String (lower_char c) (lower rest)
  end.

(** [needle in hay] on strings. *)
Fixpoint contains (needle hay : string) : bool :=
  String.prefix needle hay ||
  match hay with
  | EmptyString => false
  | String _ rest => contains needle rest
  end.

(** [c] occurs in [s]. *)
Fixpoint char_in (c : ascii) (s : string) : bool :=
  match s with
  | EmptyString => false
  | String d rest => Ascii.eqb c d || char_in c rest
  end.

(** [sep.join(l)] *)
Definition join (sep : string) (l : list string) : string := String.concat sep l.

(** [s[n:]] *)
Fixpoint str_drop (n : nat) (s : string) : string :=
  match n, s with
  | S n', String _ rest => str_drop n' rest
  | _, _ => s
  end.

(** The truth value of [None] or a string: false on [None] and on the
    empty string. *)
Definition truthy (v : option string) : bool :=
  match v with
  | Some s => str_truthy s
  | None => false
  end.

(** *** Facts on strings *)

Lemma str_app_cons x (a b : string) : String x a +:+ b = String x (a +:+ b).
Proof. reflexivity. Qed.

Lemma str_app_nil_l (b : string) : "" +:+ b = b.
Proof. reflexivity. Qed.

Lemma str_app_assoc (a b c : string) : (a +:+ b) +:+ c = a +:+ (b +:+ c).
Proof.
  induction a as [|x a IH]; [reflexivity|].
  rewrite !str_app_cons, IH. reflexivity.
Qed.

Lemma str_app_nil_r (a : string) : a +:+ "" = a.
Proof.
  induction a as [|x a IH]; [reflexivity|].
  rewrite str_app_cons, IH. reflexivity.
Qed.

Lemma prefix_app (n b : string) : String.prefix n (n +:+ b) = true.
Proof.
  induction n as [|x n IH].
  - rewrite str_app_nil_l. now destruct b.
  - rewrite str_app_cons. simpl.
    destruct (ascii_dec x x) as [_|N]; [exact IH | now destruct N].
Qed.

Lemma contains_unfold (n h : string) :
  contains n h =
  String.prefix n h || match h with EmptyString => false | String _ r => contains n r end.
Proof. destruct h; reflexivity. Qed.

Lemma contains_prefix (n b : string) : contains n (n +:+ b) = true.
Proof. rewrite contains_unfold, prefix_app. reflexivity. Qed.

Lemma contains_app_r (n a h : string) : contains n h = true -> contains n (a +:+ h) = true.
Proof.
  intros H. induction a as [|x a IH]; [exact H|].
  rewrite str_app_cons. simpl. rewrite IH. apply orb_true_r.
Qed.

Lemma contains_mid (n a b : string) : contains n (a +:+ n +:+ b) = true.
Proof. apply contains_app_r, contains_prefix. Qed.

Lemma prefix_app_l (n h b : string) :
  String.prefix n h = true -> String.prefix n (h +:+ b) = true.
Proof.
  revert h. induction n as [|x n IH]; intros h P.
  - now destruct (h +:+ b).
  - destruct h as [|y h]; simpl in P; [discriminate|].
    rewrite str_app_cons. simpl. destruct (ascii_dec x y); [apply IH, P | discriminate].
Qed.

Lemma contains_app_l (n h b : string) : contains n h = true -> contains n (h +:+ b) = true.
Proof.
  induction h as [|y h IH]; intros H; rewrite contains_unfold in H.
  - rewrite orb_false_r in H. rewrite contains_unfold, (prefix_app_l _ _ _ H). reflexivity.
  - rewrite str_app_cons, contains_unfold. apply orb_true_iff in H. destruct H as [H|H].
    + rewrite <- str_app_cons, (prefix_app_l _ _ _ H). reflexivity.
    + rewrite (IH H). apply orb_true_r.
Qed.

Lemma char_in_app c (a b : string) : char_in c (a +:+ b) = char_in c a || char_in c b.
Proof.
  induction a as [|x a IH]; [reflexivity|].
  rewrite str_app_cons. simpl. rewrite IH. apply orb_assoc.
Qed.

Lemma prefix_char_in c (n h : string) :
  String.prefix n h = true -> char_in c n = true -> char_in c h = true.
Proof.
  revert h. induction n as [|x n IH]; intros h P C; simpl in C; [discriminate|].
  destruct h as [|y h]; simpl in P; [discriminate|].
  destruct (ascii_dec x y) as [->|_]; [|discriminate].
  simpl. apply orb_true_iff in C. destruct C as [C|C].
  - rewrite C. reflexivity.
  - rewrite (IH _ P C). apply orb_true_r.
Qed.

Lemma contains_char_in c (n h : string) :
  contains n h = true -> char_in c n = true -> char_in c h = true.
Proof.
  intros H C. induction h as [|y h IH]; rewrite contains_unfold in H.
  - rewrite orb_false_r in H. exact (prefix_char_in c n "" H C).
  - apply orb_true_iff in H. destruct H as [H|H].
    + exact (prefix_char_in c n _ H C).
    + simpl. rewrite (IH H). apply orb_true_r.
Qed.

(** A character absent from [h] but present in [n] keeps [n] out of [h]. *)
Lemma not_contains c (n h : string) :
  char_in c n = true -> char_in c h = false -> contains n h = false.
Proof.
  intros C H. destruct (contains n h) eqn:E; [|reflexivity].
  rewrite (contains_char_in c n h E C) in H. discriminate.
Qed.

(** The decimal digits, and the characters of a printed integer. *)
Definition is_digit (c : ascii) : bool :=
  let n := N_of_ascii c in ((48 <=? n) && (n <=? 57))%N.

Fixpoint all_chars (p : ascii -> bool) (s : string) : bool :=
  match s with
  | EmptyString => true
  | String c rest => p c && all_chars p rest
  end.

(** A string of white space only (the empty string included). *)
Definition blank (s : string) : bool := all_chars is_space s.

(** A string that neither starts nor ends with a white space character. *)
Definition bare_ends (t : string) : Prop :=
  (forall c rest, t = String c rest -> is_space c = false) /\
  (forall init c, t = init +:+ String c "" -> is_space c = false).

(** [t] is [s] without the white space at its two ends: [s] is [t] between
    two runs of white space, and [t] neither starts nor ends with a white
    space character. *)
Definition stripped_of (s t : string) : Prop :=
  (exists left right,
     s = left +:+ t +:+ right /\ blank left = true /\ blank right = true) /\
  bare_ends t.

(** The last character of a string. *)
Fixpoint last_char (s : string) : option ascii :=
  match s with
  | EmptyString => None
  | String c EmptyString => Some c
  | String _ rest => last_char rest
  end.

Lemma all_chars_app p (a b : string) : all_chars p (a +:+ b) = all_chars p a && all_chars p b.
Proof.
  induction a as [|x a IH]; [reflexivity|].
  rewrite str_app_cons. simpl. rewrite IH. apply andb_assoc.
Qed.

Lemma all_chars_not_in p c (s : string) : all_chars p s = true -> p c = false -> char_in c s = false.
Proof.
  intros A P. induction s as [|x s IH]; simpl in *; [reflexivity|].
  apply andb_true_iff in A. destruct A as [A1 A2].
  rewrite (IH A2), orb_false_r.
  destruct (Ascii.eqb_spec c x) as [->|_]; [congruence | reflexivity].
Qed.

Lemma pretty_N_char_digit x : (x < 10)%N -> is_digit (pretty_N_char x) = true.
Proof.
  intros H.
  assert (C : (x = 0 \/ x = 1 \/ x = 2 \/ x = 3 \/ x = 4 \/ x = 5 \/ x = 6 \/ x = 7
              \/ x = 8 \/ x = 9)%N) by lia.
  repeat (destruct C as [->|C]; [reflexivity|]). subst x. reflexivity.
Qed.

Lemma pretty_N_go_digits x s :
  all_chars is_digit s = true -> all_chars is_digit (pretty_N_go x s) = true.
Proof.
  revert s. induction (N.lt_wf_0 x) as [x _ IH]. intros s Hs.
  destruct (N.eq_dec x 0%N) as [->|N]; [rewrite pretty_N_go_0; exact Hs|].
  rewrite pretty_N_go_step by lia.
  apply IH.
  - apply N.div_lt; lia.
  - simpl. rewrite Hs, pretty_N_char_digit; [reflexivity|].
    apply N.mod_lt. lia.
Qed.

Lemma pretty_N_digits (x : N) : all_chars is_digit (pretty x) = true.
Proof.
  unfold pretty, pretty_N. destruct (decide (x = 0%N)); [reflexivity|].
  apply pretty_N_go_digits. reflexivity.
Qed.

Lemma pretty_Z_digits (z : Z) : (0 <= z)%Z -> all_chars is_digit (pretty z) = true.
Proof.
  intros H. destruct z as [|p|p]; [reflexivity | | lia].
  apply (pretty_N_digits (N.pos p)).
Qed.

Lemma str_take_drop n (s : string) : str_take n s +:+ str_drop n s = s.
Proof.
  revert s. induction n as [|n IH]; intros [|c s]; try reflexivity.
  cbn [str_take str_drop]. rewrite str_app_cons, IH. reflexivity.
Qed.

Lemma str_take_length n (s : string) :
  String.length (str_take n s) = Nat.min n (String.length s).
Proof.
  revert s. induction n as [|n IH]; intros [|c s]; try reflexivity.
  cbn [str_take String.length]. rewrite IH. reflexivity.
Qed.

Lemma str_take_all n (s : string) : String.length s <= n -> str_take n s = s.
Proof.
  revert s. induction n as [|n IH]; intros [|c s] H; try reflexivity; cbn in H; try lia.
  cbn [str_take]. rewrite IH by lia. reflexivity.
Qed.

Lemma lstrip_blank (s : string) : blank s = true -> lstrip s = "".
Proof.
  unfold blank. induction s as [|c s IH]; [reflexivity|]. cbn [all_chars lstrip].
  intros H. apply andb_true_iff in H. destruct H as [H1 H2]. rewrite H1. exact (IH H2).
Qed.

Lemma lstrip_empty (s : string) : lstrip s = "" -> blank s = true.
Proof.
  unfold blank. induction s as [|c s IH]; [reflexivity|]. cbn [all_chars lstrip].
  destruct (is_space c); [exact IH | discriminate].
Qed.

Lemma rev_app_blank (s t : string) : blank (String.rev_app s t) = blank s && blank t.
Proof.
  unfold blank. revert t. induction s as [|c s IH]; intros t; [reflexivity|].
  cbn [String.rev_app all_chars]. rewrite IH. cbn [all_chars].
  destruct (is_space c), (all_chars is_space s); reflexivity.
Qed.

Lemma rev_app_truthy (s t : string) :
  str_truthy t = true -> str_truthy (String.rev_app s t) = true.
Proof.
  revert t. induction s as [|c s IH]; intros t H; [exact H|].
  cbn [String.rev_app]. apply IH. reflexivity.
Qed.

Lemma rev_truthy (s : string) : str_truthy s = true -> str_truthy (String.rev s) = true.
Proof.
  destruct s as [|c s]; [discriminate|]. intros _.
  unfold String.rev. cbn [String.rev_app]. apply rev_app_truthy. reflexivity.
Qed.

(** [strip] gives the empty string exactly on the strings of white space. *)
Lemma strip_blank (s : string) : blank s = true -> strip s = "".
Proof. intros H. unfold strip. rewrite (lstrip_blank s H). reflexivity. Qed.

Lemma strip_not_blank (s : string) : blank s = false -> str_truthy (strip s) = true.
Proof.
  intros H. unfold strip, rstrip. apply rev_truthy.
  destruct (lstrip (String.rev (lstrip s))) eqn:E; [|reflexivity].
  apply lstrip_empty in E. unfold String.rev in E. rewrite rev_app_blank in E.
  apply andb_true_iff in E. destruct E as [E _].
  destruct (lstrip s) eqn:L.
  - apply lstrip_empty in L. congruence.
  - assert (K : is_space a = false).
    { clear E H. induction s as [|c s IH]; [discriminate|]. cbn [lstrip] in L.
      destruct (is_space c) eqn:C; [exact (IH L) | congruence]. }
    unfold blank in E. cbn [all_chars] in E. rewrite K in E. discriminate.
Qed.

Lemma str_length_app (a b : string) :
  String.length (a +:+ b) = String.length a + String.length b.
Proof.
  induction a as [|c a IH]; [reflexivity|].
  rewrite str_app_cons. cbn [String.length]. rewrite IH. reflexivity.
Qed.

(** A text that ends a string ends every string built by putting
    something in front of it. *)
Lemma str_peel (x a b : string) :
  (exists before, a = before +:+ b) -> exists before, x +:+ a = before +:+ b.
Proof. intros [before ->]. exists (x +:+ before). rewrite str_app_assoc. reflexivity. Qed.

(** *** Facts on [strip] *)

Lemma rev_app_app (s t : string) : String.rev_app s t = String.rev s +:+ t.
Proof.
  unfold String.rev. revert t. induction s as [|c s IH]; intros t; [reflexivity|].
  cbn [String.rev_app]. rewrite (IH (String c t)), (IH (String c "")), str_app_assoc.
  reflexivity.
Qed.

Lemma rev_cons c (s : string) : String.rev (String c s) = String.rev s +:+ String c "".
Proof. unfold String.rev at 1. cbn [String.rev_app]. apply rev_app_app. Qed.

Lemma rev_app_distr (s t : string) : String.rev (s +:+ t) = String.rev t +:+ String.rev s.
Proof.
  induction s as [|c s IH].
  - rewrite str_app_nil_l, str_app_nil_r. reflexivity.
  - rewrite str_app_cons, !rev_cons, IH, str_app_assoc. reflexivity.
Qed.

Lemma rev_involutive (s : string) : String.rev (String.rev s) = s.
Proof.
  induction s as [|c s IH]; [reflexivity|].
  rewrite rev_cons, rev_app_distr, IH. reflexivity.
Qed.

Lemma blank_app (s t : string) : blank (s +:+ t) = blank s && blank t.
Proof. apply all_chars_app. Qed.

Lemma blank_rev (s : string) : blank (String.rev s) = blank s.
Proof.
  unfold String.rev. rewrite rev_app_blank. apply andb_true_r.
Qed.

Lemma lstrip_app (s t : string) :
  lstrip (s +:+ t) = if blank s then lstrip t else lstrip s +:+ t.
Proof.
  unfold blank. induction s as [|c s IH]; [reflexivity|].
  rewrite str_app_cons. cbn [lstrip all_chars].
  destruct (is_space c); [exact IH | reflexivity].
Qed.

Lemma lstrip_split (s : string) :
  exists left, s = left +:+ lstrip s /\ blank left = true.
Proof.
  induction s as [|c s (left & E & B)]; [exists ""; split; reflexivity|].
  cbn [lstrip]. destruct (is_space c) eqn:W.
  - exists (String c left). split.
    + rewrite str_app_cons, <- E. reflexivity.
    + unfold blank in *. cbn [all_chars]. rewrite W, B. reflexivity.
  - exists "". split; reflexivity.
Qed.

Lemma lstrip_head (s : string) c rest :
  lstrip s = String c rest -> is_space c = false.
Proof.
  induction s as [|d s IH]; [discriminate|]. cbn [lstrip].
  destruct (is_space d) eqn:W; [exact IH|]. intros H. injection H as <- _. exact W.
Qed.

Lemma rstrip_split (s : string) :
  exists right, s = rstrip s +:+ right /\ blank right = true.
Proof.
  destruct (lstrip_split (String.rev s)) as (left & E & B).
  exists (String.rev left). split; [|rewrite blank_rev; exact B].
  unfold rstrip. rewrite <- rev_app_distr, <- E, rev_involutive. reflexivity.
Qed.

Lemma rstrip_last (s : string) init c :
  rstrip s = init +:+ String c "" -> is_space c = false.
Proof.
  unfold rstrip. intros H. apply (f_equal String.rev) in H.
  rewrite rev_involutive, rev_app_distr in H.
  exact (lstrip_head _ _ _ H).
Qed.

(** [s.strip()] is [s] without the white space at its two ends. *)
Lemma strip_stripped (s : string) : stripped_of s (strip s).
Proof.
  unfold strip.
  destruct (lstrip_split s) as (left & El & Bl).
  destruct (rstrip_split (lstrip s)) as (right & Er & Br).
  split; [|split].
  - exists left, right. split; [|split; assumption].
    rewrite <- Er. exact El.
  - intros c rest H. rewrite H in Er. rewrite str_app_cons in Er.
    exact (lstrip_head _ _ _ Er).
  - apply rstrip_last.
Qed.

Lemma last_char_app (init : string) c : last_char (init +:+ String c "") = Some c.
Proof.
  induction init as [|d init IH]; [reflexivity|].
  rewrite str_app_cons. cbn [last_char]. rewrite IH.
  destruct (init +:+ String c "") eqn:E; [|reflexivity].
  destruct init; discriminate E.
Qed.

(** The two ends of a given text, by computation. *)
Lemma bare_ends_by_ends (t : string) :
  match t with
  | EmptyString => true
  | String c _ => negb (is_space c)
  end = true ->
  match last_char t with
  | Some c => negb (is_space c)
  | None => true
  end = true ->
  bare_ends t.
Proof.
  intros F L. split.
  - intros c rest ->. apply negb_true_iff, F.
  - intros init c ->. rewrite last_char_app in L. apply negb_true_iff, L.
Qed.

(** *** Facts on the search of a list *)

Lemma find_first {A} (f : A -> bool) (l : list A) x :
  List.find f l = Some x ->
  exists before after,
    l = before ++ x :: after /\ f x = true /\ forall y, y ∈ before -> f y = false.
Proof.
  induction l as [|a l IH]; [discriminate|]. cbn [List.find].
  destruct (f a) eqn:F.
  - intros H. injection H as ->. exists [], l. split; [reflexivity|]. split; [exact F|].
    intros y Hy. apply elem_of_nil in Hy. contradiction.
  - intros H. destruct (IH H) as (before & after & -> & Fx & B).
    exists (a :: before), after. split; [reflexivity|]. split; [exact Fx|].
    intros y Hy. apply elem_of_cons in Hy. destruct Hy as [->|Hy]; [exact F | exact (B y Hy)].
Qed.

Lemma find_nothing {A} (f : A -> bool) (l : list A) :
  List.find f l = None -> forall y, y ∈ l -> f y = false.
Proof.
  induction l as [|a l IH]; intros H y Hy; [apply elem_of_nil in Hy; contradiction|].
  cbn [List.find] in H. destruct (f a) eqn:F; [discriminate|].
  apply elem_of_cons in Hy. destruct Hy as [->|Hy]; [exact F | exact (IH H y Hy)].
Qed.

End PyStr.

(** ** The issue summary bot ([issue_summary_bot.py]) *)

Module IssueSummaryBot.
Import PyNum PyStr.

(** An instant: microseconds since 0001-01-01T00:00:00 UTC. *)
Definition datetime := Z.

Definition us_per_day : Z := 86400000000.

(** The instants a Python [datetime] can hold: the years 1 to 9999. *)
Definition valid_datetime (t : datetime) : bool :=
  (0 <=? t)%Z && (t <? 3652059 * us_per_day)%Z.

(** An issue as the hosting platform's client library presents it; [labels]
    holds the names of the label objects, [body] is [None] or a string,
    [comments] is a count. *)
Record issue := {
  number : Z;
  title : string;
  body : option string;
  labels : list string;
  comments : N;
  created_at : datetime;
  html_url : string
}.

(** [calculate_issue_age], the clock reading [now] made explicit:
    [(now - created_at).days]. A [timedelta] keeps its seconds and
    microseconds non-negative, so [days] is the floor of the difference. *)
Definition calculate_issue_age (now created_at : datetime) : Z :=
  ((now - created_at) / us_per_day)%Z.

(** What one call of [chain.run] does: it returns the model's text or raises
    an [Exception], whose message is kept. *)
Inductive outcome :=
  | Returned (text : string)
  | Raised (msg : string).

(** The language model behind [LLMChain]: the answer to a prompt built from
    a title and a body. ([PromptTemplate] and [LLMChain] are built before
    the [try]; the model starts from a chain that was built.) *)
Definition llm := string -> string -> outcome.

(** A computation that may raise: the message of the exception, or the
    value. *)
Definition exc (A : Type) : Type := string + A.

Definition exc_bind {A B : Type} (m : exc A) (k : A -> exc B) : exc B :=
  match m with
  | inl e => inl e
  | inr a => k a
  end.

Notation "'let!' x ':=' m 'in' k" := (exc_bind m (fun x => k))
  (at level 10, x name, m at level 100, k at level 200).

(** [chain.run(...)] inside a [try]. *)
Definition run (model : llm) (t b : string) : exc string :=
  match model t b with
  | Returned text => inr text
  | Raised msg => inl msg
  end.

(** [l[0]]: an [IndexError] on the empty list. *)
Definition index0 (l : list string) : exc string :=
  match l with
  | [] => inl "list index out of range"
  | x :: _ => inr x
  end.

(** [issue.body[:500] if issue.body else "No description provided"] *)
Definition body_preview (i : issue) : string :=
  match body i with
  | Some b => if str_truthy b then str_take 500 b else "No description provided"
  | None => "No description provided"
  end.

(** The value of [get_priority_score]: the dict with keys [total] and
    [breakdown], the latter a dict from component name to number. *)
Record score_result := {
  total : pynum;
  breakdown : gmap string pynum
}.

(** An entry of [prioritized_issues], the dict that [main] builds and
    [format_issue_summary] reads. The keys read with [.get] may be missing. *)
Record issue_data := {
  d_number : Z;
  d_title : string;
  d_url : string;
  d_created_at : datetime;
  d_labels : string;
  d_comments : Z;
  d_priority_score : pynum;
  d_priority_breakdown : option (gmap string pynum);
  d_summary : string;
  d_reading_materials : option string
}.

(** The markers of the report, with the bytes of the source file. *)
Definition mark_recommendation : string := "ðŸŽ¯".
Definition mark_issues : string := "ðŸ“‹".
Definition mark_reading : string := "ðŸ“š".

(** *** The builtins [repr] and [float] on a string *)

(** [c.isprintable()] for a character (code points below 256). *)
Definition printable (c : ascii) : bool :=
  let n := N_of_ascii c in
  negb ((n <? 32) || (127 <=? n) && (n <=? 160) || (n =? 173))%N.

(** One digit of a hexadecimal number, in small letters. *)
Definition hex_digit (n : N) : ascii :=
  if (n <? 10)%N then ascii_of_N (48 + n) else ascii_of_N (87 + n).

(** A character in [repr(s)], between the quotes [quote]. *)
Definition repr_char (quote c : ascii) : string :=
  let n := N_of_ascii c in
  if Ascii.eqb c quote || (n =? 92)%N then String "\" (String c "")
  else if (n =? 9)%N then "\t"
  else if (n =? 10)%N then "\n"
  else if (n =? 13)%N then "\r"
  else if printable c then String c ""
  else "\x" +:+ String (hex_digit (n / 16)) (String (hex_digit (n mod 16)) "").

Fixpoint repr_chars (quote : ascii) (s : string) : string :=
  match s with
  | EmptyString => EmptyString
  | String c rest => repr_char quote c +:+ repr_chars quote rest
  end.

(** [repr(s)]: between double quotes when [s] holds a single quote and no
    double quote, between single quotes otherwise. *)
Definition py_repr (s : string) : string :=
  let double := ascii_of_N 34 in
  let quote := if char_in "'" s && negb (char_in double s) then double else "'"%char in
  String quote (repr_chars quote s +:+ String quote "").

(** The white space that [float] skips at the two ends of its argument,
    once the argument is brought to ASCII. *)
Definition float_space (c : ascii) : bool :=
  let n := N_of_ascii c in
  ((9 <=? n) && (n <=? 13) || (n =? 32))%N.

(** The argument brought to ASCII: an argument with a character outside
    ASCII has its white space outside ASCII turned into spaces and is cut
    after the first other character from 127 on, which becomes "?". *)
Fixpoint to_ascii (s : string) : string :=
  match s with
  | EmptyString => EmptyString
  | String c rest =>
      if (N_of_ascii c <? 127)%N then String c (to_ascii rest)
      else if is_space c then String " " (to_ascii rest)
      else "?"
  end.

Definition float_text (s : string) : string :=
  if all_chars (fun c => (N_of_ascii c <? 128)%N) s then s else to_ascii s.

(** [s] without the characters of [p] at its start. *)
Fixpoint skip_while (p : ascii -> bool) (s : string) : string :=
  match s with
  | EmptyString => EmptyString
  | String c rest => if p c then skip_while p rest else s
  end.

(** The text without its underscores; an underscore stands between two
    digits, or the text is refused. [prev] is the character before [s]. *)
Fixpoint drop_underscores (prev : ascii) (s : string) : option string :=
  match s with
  | EmptyString => if Ascii.eqb prev "_" then None else Some EmptyString
  | String c rest =>
      if Ascii.eqb c "_"
      then (if is_digit prev then drop_underscores c rest else None)
      else if Ascii.eqb prev "_" && negb (is_digit c) then None
      else String c <$> drop_underscores c rest
  end.

(** The digits at the start of [s]: their value after [acc], their number
    after [count], and the rest of [s]. *)
Fixpoint digits_run (acc : N) (count : nat) (s : string) : N * nat * string :=
  match s with
  | String c rest =>
      if is_digit c
      then digits_run (acc * 10 + (N_of_ascii c - 48)) (S count) rest
      else (acc, count, s)
  | EmptyString => (acc, count, s)
  end.

(** An optional sign at the start of [s]: whether it is a minus, and the
    rest. *)
Definition sign_of (s : string) : bool * string :=
  match s with
  | String "-" rest => (true, rest)
  | String "+" rest => (false, rest)
  | _ => (false, s)
  end.

(** The exponent part at the start of [s], when there is one with a digit:
    its value and the rest. *)
Definition exponent_of (s : string) : Z * string :=
  match s with
  | String c rest =>
      if Ascii.eqb c "e" || Ascii.eqb c "E"
      then
        let '(neg, after_sign) := sign_of rest in
        let '(e, count, after) := digits_run 0 0 after_sign in
        match count with
        | O => (0%Z, s)
        | S _ => ((if neg then - Z.of_N e else Z.of_N e)%Z, after)
        end
      else (0%Z, s)
  | EmptyString => (0%Z, s)
  end.

(** [m * 10^e] *)
Definition scaled (m : N) (e : Z) : Q :=
  match e with
  | Zneg p => Z.of_N m # Pos.pow 10 p
  | _ => inject_Z (Z.of_N m * 10 ^ e)
  end.

(** A decimal number with no sign: digits with an optional point among
    them and an optional exponent; the whole of [s], or nothing. *)
Definition decimal_of (s : string) : option Q :=
  let '(whole, count_whole, after_whole) := digits_run 0 0 s in
  let '(mantissa, count_fraction, after_fraction) :=
    match after_whole with
    | String "." rest => digits_run whole 0 rest
    | _ => (whole, O, after_whole)
    end in
  match (count_whole + count_fraction)%nat with
  | O => None
  | S _ =>
      let '(e, rest) := exponent_of after_fraction in
      match rest with
      | EmptyString => Some (scaled mantissa (e - Z.of_nat count_fraction))
      | String _ _ => None
      end
  end.

(** The builtin [float] on a string (code points below 256): the float, or
    the message of the [ValueError]. The text is a decimal number, "inf",
    "infinity" or "nan" in any case, with an optional sign, between white
    space; an underscore may stand between two digits. The value is the
    nearest float, an infinity beyond the range; a negative zero is the
    zero of the model. *)
Definition float_of_literal (s : string) : string + pyfloat :=
  let refused := inl ("could not convert string to float: " +:+ py_repr s) in
  match drop_underscores "000" (float_text s) with
  | None => refused
  | Some text =>
      let text := String.rev (skip_while float_space (String.rev (skip_while float_space text))) in
      let '(neg, body) := sign_of text in
      let word := lower body in
      if String.eqb word "inf" || String.eqb word "infinity"
      then inr (FInf neg)
      else if String.eqb word "nan" then inr FNan
      else match decimal_of body with
           | Some q => inr (float_of_Q (if neg then - q else q))
           | None => refused
           end
  end.

(** *** Sample data of the concrete runs *)

(** A rendering of instants for the runs below: the count of whole seconds.
    (The calendar rendering of [strftime] plays no part in what is proved.) *)
Definition seconds_stamp (t : datetime) : string := pretty (t / 1000000)%Z +:+ " UTC".

(** 2025-01-01T00:00:00 UTC. *)
Definition new_year_2025 : datetime := (739251 * us_per_day)%Z.

(** [n] days before 2025-01-01T00:00:00 UTC. *)
Definition last_days (n : Z) : datetime := (new_year_2025 - n * us_per_day)%Z.

(** An issue opened [age] days before 2025-01-01, with [c] comments. *)
Definition sample_issue (age : Z) (c : N) (names : list string) : issue :=
  {| number := 7; title := "Login fails"; body := Some "Steps to reproduce";
     labels := names; comments := c; created_at := last_days age;
     html_url := "https://example.org/issues/7" |}.

(** The entry of the test suite: one issue, ten days old. *)
Definition sample_entry (ctx : pynum) : issue_data :=
  {| d_number := 42; d_title := "Test Issue";
     d_url := "https://github.com/test/repo/issues/42";
     d_created_at := last_days 10; d_labels := "bug, urgent"; d_comments := 5;
     d_priority_score := PFloat (FFin (171 # 2));
     d_priority_breakdown :=
       Some {[ "age" := PFloat (FFin 5); "labels" := PFloat (FFin 70);
               "engagement" := PFloat (FFin 10); "context" := ctx ]};
     d_summary := "This is a test issue summary.";
     d_reading_materials := None |}.

(** *** The functions *)

Section Builtins.

(** The builtin [float(s)] on a string: the message of the [ValueError], or
    the float. *)
Variable py_float : string -> string + pyfloat.

(** [strftime('%Y-%m-%d %H:%M:%S UTC')] of an instant. *)
Variable strftime : datetime -> string.

(** The [try] block of [analyze_contextual_priority]. *)
Definition contextual_attempt (model : llm) (i : issue) : exc pynum :=
  let! result := run model (title i) (body_preview i) in
  let! score_str := index0 (split (strip result)) in
  let! score := py_float score_str in
  inr (py_max f0 (py_min (PFloat score) f50)).

(** [analyze_contextual_priority]: the score and the lines written to
    [sys.stderr]. The handler [except Exception] returns [0.0]. *)
Definition analyze_contextual_priority (model : llm) (i : issue) : pynum * list string :=
  match contextual_attempt model i with
  | inr score => (score, [])
  | inl e =>
      (f0, ["Error analyzing contextual priority for issue #" +:+ pretty (number i)
              +:+ ": " +:+ e])
  end.

(** [get_priority_score(issue, llm)], with the clock reading of its call of
    [calculate_issue_age]; [model] is [None] when no [llm] is given. *)
Definition get_priority_score (now : datetime) (i : issue) (model : option llm)
  : score_result * list string :=
  let age_days := calculate_issue_age now (created_at i) in
  let age_score := py_min (int_truediv age_days 2) (PInt 50) in
  let engagement_score := py_min (PInt (Z.of_N (comments i) * 3)) (PInt 50) in
  let '(contextual_score, err) :=
    match model with
    | Some m => analyze_contextual_priority m i
    | None => (f0, [])
    end in
  let total_score := num_add (num_add age_score engagement_score) contextual_score in
  ({| total := total_score;
      breakdown := {[ "age" := age_score;
                      "engagement" := engagement_score;
                      "context" := contextual_score ]} |}, err).

(** [f"{x:.1f}"]: the value rounded half to even to one decimal. *)
Definition format_1f (x : pynum) : string :=
  match to_float x with
  | FNan => "nan"
  | FInf false => "inf"
  | FInf true => "-inf"
  | FFin q =>
      let t := rne (Qabs q * 10) in
      (if Qle_bool 0 q then "" else "-")
        +:+ pretty (t / 10)%Z +:+ "." +:+ pretty (t mod 10)%Z
  end.

(** The head of the report, up to the heading of the issue list. *)
Definition report_header (ts : string) (count : nat) (recommendation repo_name : string)
  : string :=
  "# Issue Summary Report" +:+ nl +:+
  nl +:+
  "**Repository:** " +:+ repo_name +:+ "  " +:+ nl +:+
  "**Generated:** " +:+ ts +:+ "  " +:+ nl +:+
  "**Total Open Issues:** " +:+ pretty count +:+ nl +:+
  nl +:+
  "## " +:+ mark_recommendation +:+ " Priority Recommendation" +:+ nl +:+
  nl +:+
  recommendation +:+ nl +:+
  nl +:+
  "## " +:+ mark_issues +:+ " Prioritized Issues" +:+ nl +:+
  nl.

(** [breakdown.get(key, 0.0)] *)
Definition component (b : gmap string pynum) (key : string) : pynum :=
  default f0 (b !! key).

(** The text after "Priority Score:". *)
Definition priority_display (issue : issue_data) : string :=
  let breakdown := default ∅ (d_priority_breakdown issue) in
  let age_val := component breakdown "age" in
  let engagement_val := component breakdown "engagement" in
  let context_val := component breakdown "context" in
  let shown := format_1f (d_priority_score issue) in
  if decide (breakdown = ∅) then shown
  else
    let shown := shown +:+ " (" +:+ format_1f age_val +:+ " Age, "
                   +:+ format_1f engagement_val +:+ " Engagement" in
    let shown :=
      if num_lt (PInt 0) context_val
      then shown +:+ ", " +:+ format_1f context_val +:+ " Context analysis"
      else shown in
    shown +:+ ")".

(** The section of one issue: the body of the [for] loop, [now] being the
    clock reading of this iteration. *)
Definition issue_section (now : datetime) (idx : nat) (issue : issue_data) : string :=
  let age_days := calculate_issue_age now (d_created_at issue) in
  let labels_str := if str_truthy (d_labels issue) then d_labels issue else "none" in
  let reading_materials := default "" (d_reading_materials issue) in
  let reading_section :=
    if str_truthy reading_materials
    then nl +:+ nl +:+ "**" +:+ mark_reading +:+ " Recommended Reading:**" +:+ nl
           +:+ reading_materials +:+ nl
    else "" in
  "### " +:+ pretty idx +:+ ". [" +:+ d_title issue +:+ "](" +:+ d_url issue +:+ ")" +:+ nl +:+
  nl +:+
  "**Issue #** " +:+ pretty (d_number issue) +:+ "  " +:+ nl +:+
  "**Priority Score:** " +:+ priority_display issue +:+ "  " +:+ nl +:+
  "**Labels:** " +:+ labels_str +:+ "  " +:+ nl +:+
  "**Age:** " +:+ pretty age_days +:+ " days  " +:+ nl +:+
  "**Comments:** " +:+ pretty (d_comments issue) +:+ "  " +:+ nl +:+
  nl +:+
  "**Summary:** " +:+ d_summary issue +:+ reading_section +:+ nl +:+
  nl +:+
  "---" +:+ nl +:+
  nl.

(** The loop [for idx, issue in enumerate(prioritized_issues, 1)], which
    appends to [report]. The function reads the clock once for the head and
    once in each iteration: [clock k] is its [k]-th reading. *)
Fixpoint format_loop (clock : nat -> datetime) (idx : nat) (issues : list issue_data)
    (report : string) : string :=
  match issues with
  | [] => report
  | issue :: rest =>
      format_loop clock (S idx) rest (report +:+ issue_section (clock idx) idx issue)
  end.

(** [format_issue_summary(prioritized_issues, recommendation, repo_name)] *)
Definition format_issue_summary (clock : nat -> datetime) (prioritized_issues : list issue_data)
    (recommendation repo_name : string) : string :=
  format_loop clock 1 prioritized_issues
    (report_header (strftime (clock 0%nat)) (length prioritized_issues)
       recommendation repo_name).

(** *** Notions of the statements *)

(** The failures of the analyzer that the error-handling rule names: the
    call raises, or the first token of the response is refused by [float]
    (a response with no token at all has no first token: [IndexError]).
    [msg] is the message of the exception. *)
Definition analysis_fails (model : llm) (i : issue) (msg : string) : Prop :=
  model (title i) (body_preview i) = Raised msg \/
  exists text,
    model (title i) (body_preview i) = Returned text /\
    match split (strip text) with
    | [] => msg = "list index out of range"
    | tok :: _ => py_float tok = inl msg
    end.

(** The sections of [issues] in the order of the list, numbered from [idx]:
    what the report is expected to hold after its head. *)
Fixpoint sections_from (clock : nat -> datetime) (idx : nat) (issues : list issue_data)
  : string :=
  match issues with
  | [] => ""
  | issue :: rest => issue_section (clock idx) idx issue +:+ sections_from clock (S idx) rest
  end.

(** The start of the section of an issue: the heading with the position,
    the title and the link, then the number, up to the priority score. *)
Definition section_start (idx : nat) (issue : issue_data) : string :=
  "### " +:+ pretty idx +:+ ". [" +:+ d_title issue +:+ "](" +:+ d_url issue +:+ ")" +:+ nl +:+
  nl +:+
  "**Issue #** " +:+ pretty (d_number issue) +:+ "  " +:+ nl +:+
  "**Priority Score:** ".

(** The sections of [issues] laid out in the order of the list and numbered
    from [idx]: each starts with [section_start], goes on with the priority
    display of its issue, and ends with its own text of [rests]. *)
Fixpoint laid_out (idx : nat) (issues : list issue_data) (rests : list string) : string :=
  match issues, rests with
  | issue :: issues', rest :: rests' =>
      section_start idx issue +:+ priority_display issue +:+ rest
        +:+ laid_out (S idx) issues' rests'
  | _, _ => ""
  end.

(** The characters of a number printed with one decimal. *)
Definition number_char (c : ascii) : bool :=
  is_digit c || char_in c "-.naif".

(** *** The scorer *)

Local Open Scope Q_scope.

Lemma valid_datetime_age now created :
  valid_datetime now = true -> valid_datetime created = true ->
  (Z.abs (calculate_issue_age now created) <= 3652059)%Z.
Proof.
  unfold valid_datetime, calculate_issue_age, us_per_day. intros H1 H2.
  apply andb_true_iff in H1, H2. destruct H1 as [A1 A2], H2 as [B1 B2].
  apply Z.leb_le in A1, B1. apply Z.ltb_lt in A2, B2.
  assert (L : (-3652059 <= (now - created) / 86400000000)%Z)
    by (apply Z.div_le_lower_bound; lia).
  assert (U : ((now - created) / 86400000000 < 3652059)%Z)
    by (apply Z.div_lt_upper_bound; lia).
  lia.
Qed.

Lemma age_nonneg now created :
  (created <= now)%Z -> (0 <= calculate_issue_age now created)%Z.
Proof.
  intros H. unfold calculate_issue_age, us_per_day. apply Z.div_pos; lia.
Qed.

(** [min(age_days / 2, 50)] as an exact value. *)
Lemma age_score_is (d : Z) :
  (Z.abs d < 2 ^ 52)%Z ->
  num_is (py_min (int_truediv d 2) (PInt 50)) (Z.min d 100 # 2).
Proof.
  intros B. unfold int_truediv.
  destruct (float_of_Q_half d) as [E R]; [lia|]. rewrite E.
  unfold py_min, num_lt, num_is. cbn [num_real flt].
  qcases; cbn [negb num_real].
  - rewrite R in *. assert (d <= 100)%Z.
    { unfold Qle in E0. cbn [Qnum Qden inject_Z] in E0. lia. }
    rewrite Z.min_l by lia. reflexivity.
  - rewrite R in *. assert (100 < d)%Z.
    { unfold Qlt in E0. cbn [Qnum Qden inject_Z] in E0. lia. }
    rewrite Z.min_r by lia. reflexivity.
Qed.

(** [min(comments * 3, 50)] is an integer. *)
Lemma engagement_score_eq (c : Z) :
  py_min (PInt (c * 3)) (PInt 50) = PInt (Z.min (c * 3) 50).
Proof.
  unfold py_min, num_lt. cbn [num_real flt]. qcases; cbn [negb].
  - rewrite <- Zle_Qle in E. rewrite Z.min_l by lia. reflexivity.
  - rewrite <- Zlt_Qlt in E. rewrite Z.min_r by lia. reflexivity.
Qed.

Lemma num_is_int z : num_is (PInt z) (2 * z # 2).
Proof. unfold num_is. simpl. unfold Qeq. cbn [Qnum Qden inject_Z]. lia. Qed.

Lemma num_is_f0 : num_is f0 (0 # 2).
Proof. unfold num_is. simpl. reflexivity. Qed.

Lemma num_is_comp x q q' : q == q' -> num_is x q -> num_is x q'.
Proof.
  unfold num_is. destruct (num_real x); try contradiction.
  intros E H. rewrite H. exact E.
Qed.

Lemma get_priority_score_None now i :
  get_priority_score now i None =
  (let age_score := py_min (int_truediv (calculate_issue_age now (created_at i)) 2) (PInt 50) in
   let engagement_score := py_min (PInt (Z.of_N (comments i) * 3)) (PInt 50) in
   {| total := num_add (num_add age_score engagement_score) f0;
      breakdown := {[ "age" := age_score; "engagement" := engagement_score;
                      "context" := f0 ]} |}, []).
Proof. reflexivity. Qed.

(** The total without an analyzer, from the whole-day age and the comment
    count. *)
Lemma total_no_analyzer now i :
  valid_datetime now = true -> valid_datetime (created_at i) = true ->
  let d := calculate_issue_age now (created_at i) in
  let c := Z.of_N (comments i) in
  num_is (total (fst (get_priority_score now i None)))
    ((Z.min d 100 + 2 * Z.min (c * 3) 50 + 0) # 2).
Proof.
  intros V1 V2 d c. pose proof (valid_datetime_age _ _ V1 V2) as B. fold d in B.
  rewrite get_priority_score_None. cbn [fst total]. fold d c.
  rewrite engagement_score_eq.
  apply num_add_half; [apply num_add_half | apply num_is_f0 | |]; try lia.
  - apply age_score_is. lia.
  - apply num_is_int.
Qed.

(** C1. With no contextual analyzer, the total of [get_priority_score] is
    [min(age_days / 2, 50) + min(comments * 3, 50)], [age_days] being the
    whole-day difference between the clock reading and [created_at]; an
    issue aged 60 days with 20 comments scores 80.0, and an issue aged 0
    days with no comment scores 0.0. *)
Theorem total_is_age_plus_engagement now i :
  valid_datetime now = true -> valid_datetime (created_at i) = true ->
  let age_days := ((now - created_at i) / 86400000000)%Z in
  let comment_count := Z.of_N (comments i) in
  let score := total (fst (get_priority_score now i None)) in
  num_is score (Qmin (age_days # 2) 50 + Qmin (inject_Z (comment_count * 3)) 50)
  /\ (age_days = 60%Z -> comment_count = 20%Z -> num_is score 80)
  /\ (age_days = 0%Z -> comment_count = 0%Z -> num_is score 0).
Proof.
  intros V1 V2 age_days comment_count score.
  pose proof (total_no_analyzer now i V1 V2) as T. cbv zeta in T.
  change (calculate_issue_age now (created_at i)) with age_days in T.
  fold comment_count score in T.
  split; [|split].
  - eapply num_is_comp; [|exact T].
    destruct (Z.le_ge_cases age_days 100) as [A|A];
    destruct (Z.le_ge_cases (comment_count * 3) 50) as [C|C].
    + rewrite !Z.min_l, !Q.min_l by first [lia | unfold Qle; cbn [Qnum Qden inject_Z]; lia].
      unfold Qeq, Qplus. cbn [Qnum Qden inject_Z]. lia.
    + rewrite Z.min_l, Z.min_r, Q.min_l, Q.min_r
        by first [lia | unfold Qle; cbn [Qnum Qden inject_Z]; lia].
      unfold Qeq, Qplus. cbn [Qnum Qden inject_Z]. lia.
    + rewrite Z.min_r, Z.min_l, Q.min_r, Q.min_l
        by first [lia | unfold Qle; cbn [Qnum Qden inject_Z]; lia].
      unfold Qeq, Qplus. cbn [Qnum Qden inject_Z]. lia.
    + rewrite !Z.min_r, !Q.min_r by first [lia | unfold Qle; cbn [Qnum Qden inject_Z]; lia].
      unfold Qeq, Qplus. cbn [Qnum Qden inject_Z]. lia.
  - intros A C. rewrite A, C in T. eapply num_is_comp; [|exact T]. reflexivity.
  - intros A C. rewrite A, C in T. eapply num_is_comp; [|exact T]. reflexivity.
Qed.

Lemma age_score_between (d : Z) :
  (0 <= d)%Z -> num_between 0 50 (py_min (int_truediv d 2) (PInt 50)).
Proof.
  intros H. unfold int_truediv, float_of_Q.
  assert (R : 0 <= b64_round (d # 2)).
  { apply b64_round_nonneg. unfold Qle. cbn [Qnum Qden]. lia. }
  unfold py_min, num_lt, num_between.
  destruct (Qle_bool (2 ^ 1024) (Qabs (b64_round (d # 2)))).
  - apply Qle_bool_iff in R. rewrite R. cbn. change (inject_Z 50) with 50. lra.
  - cbn [num_real flt]. change (inject_Z 50) with 50.
    qcases; cbn [negb num_real]; change (inject_Z 50) with 50; lra.
Qed.

Lemma engagement_score_between (c : N) :
  num_between 0 50 (py_min (PInt (Z.of_N c * 3)) (PInt 50)).
Proof.
  rewrite engagement_score_eq. unfold num_between. cbn [num_real].
  split.
  - change 0 with (inject_Z 0). rewrite <- Zle_Qle. lia.
  - change 50 with (inject_Z 50). rewrite <- Zle_Qle. lia.
Qed.

Lemma num_between_f0 : num_between 0 50 f0.
Proof. unfold num_between. simpl. lra. Qed.

(** What the [try] block returns, when it returns. *)
Lemma contextual_attempt_inr model i score :
  contextual_attempt model i = inr score ->
  exists text tok rest v,
    model (title i) (body_preview i) = Returned text /\
    split (strip text) = tok :: rest /\ py_float tok = inr v /\
    score = py_max f0 (py_min (PFloat v) f50).
Proof.
  unfold contextual_attempt, run, index0, exc_bind. intros H.
  destruct (model (title i) (body_preview i)) as [text|msg] eqn:M; [|discriminate].
  destruct (split (strip text)) as [|tok rest] eqn:S; [discriminate|].
  destruct (py_float tok) as [e|v] eqn:P; [discriminate|].
  exists text, tok, rest, v. inversion H. repeat split; reflexivity || assumption.
Qed.

Lemma contextual_score_between model i :
  num_between 0 50 (fst (analyze_contextual_priority model i)).
Proof.
  unfold analyze_contextual_priority.
  destruct (contextual_attempt model i) as [e|score] eqn:E; cbn [fst].
  - apply num_between_f0.
  - apply contextual_attempt_inr in E. destruct E as (text & tok & rest & v & _ & _ & _ & ->).
    apply clamp_between.
Qed.

(** The result of [get_priority_score] in terms of its three components. *)
Lemma get_priority_score_eq now i model :
  let age_score := py_min (int_truediv (calculate_issue_age now (created_at i)) 2) (PInt 50) in
  let engagement_score := py_min (PInt (Z.of_N (comments i) * 3)) (PInt 50) in
  let contextual := match model with
                    | Some m => analyze_contextual_priority m i
                    | None => (f0, [])
                    end in
  get_priority_score now i model =
  ({| total := num_add (num_add age_score engagement_score) (fst contextual);
      breakdown := {[ "age" := age_score; "engagement" := engagement_score;
                      "context" := fst contextual ]} |}, snd contextual).
Proof.
  cbv zeta. unfold get_priority_score.
  destruct (match model with Some m => _ | None => _ end) as [c err]. reflexivity.
Qed.

(** The age component of an issue created in the future of the clock
    reading is below 0. *)
Lemma age_score_negative (d : Z) :
  (d < 0)%Z -> ~ num_between 0 50 (py_min (int_truediv d 2) (PInt 50)).
Proof.
  intros H. unfold int_truediv, float_of_Q.
  assert (R : b64_round (d # 2) <= - (1 # 2)).
  { rewrite <- (b64_round_half (-1)) by (vm_compute; reflexivity).
    apply b64_round_mono. unfold Qle. cbn [Qnum Qden]. lia. }
  unfold py_min, num_lt, num_between.
  destruct (Qle_bool (2 ^ 1024) (Qabs (b64_round (d # 2)))).
  - destruct (Qle_bool 0 (b64_round (d # 2))) eqn:E.
    + apply Qle_bool_iff in E. lra.
    + cbn. intros C. exact C.
  - cbn [num_real flt]. change (inject_Z 50) with 50.
    qcases; cbn [negb num_real]; lra.
Qed.

Lemma age_negative_in_future now created :
  (now < created)%Z -> (calculate_issue_age now created < 0)%Z.
Proof.
  intros H. unfold calculate_issue_age, us_per_day.
  apply Z.div_lt_upper_bound; lia.
Qed.

(** The age component of a negative age is the quotient itself, at most
    -0.5 (minus infinity where the quotient leaves the binary64 range). *)
Lemma age_score_of_negative (d : Z) :
  (d < 0)%Z ->
  exists f, py_min (int_truediv d 2) (PInt 50) = PFloat f /\ at_most_half f (-1).
Proof.
  intros H. unfold int_truediv. exists (float_of_Q (d # 2)).
  assert (A : at_most_half (float_of_Q (d # 2)) (-1)).
  { apply float_of_Q_at_most; [vm_compute; reflexivity|].
    unfold Qle. cbn [Qnum Qden]. lia. }
  split; [|exact A].
  unfold py_min. rewrite (num_lt_asym _ (PInt 50)); [reflexivity|].
  apply (at_most_half_lt _ (-1)); [exact A | lia].
Qed.

(** C2, as the code has it. For every issue, with or without an analyzer,
    the total is the sum of the three components of the breakdown, and the
    engagement and context components lie in [[0, 50]]. When [created_at]
    is not in the future of the clock reading, the age component lies in
    [[0, 50]] too and the total lies in [[0, 150]]; when it is, the age
    component is negative (below [[0, 50]]: it is half the floored day
    difference, which nothing clamps from below) and the total is below
    100. *)
Theorem components_and_total_in_range now i model :
  let r := fst (get_priority_score now i model) in
  exists age engagement context,
    breakdown r = {[ "age" := age; "engagement" := engagement; "context" := context ]} /\
    total r = num_add (num_add age engagement) context /\
    num_between 0 50 engagement /\ num_between 0 50 context /\
    ((created_at i <= now)%Z -> num_between 0 50 age /\ num_between 0 150 (total r)) /\
    ((now < created_at i)%Z ->
       num_lt age (PInt 0) = true /\ ~ num_between 0 50 age /\
       num_lt (total r) (PInt 100) = true /\
       (valid_datetime now = true -> valid_datetime (created_at i) = true ->
        num_is age (calculate_issue_age now (created_at i) # 2))).
Proof.
  intros r. subst r. rewrite get_priority_score_eq. cbn [fst total breakdown].
  set (age := py_min _ (PInt 50)).
  set (engagement := py_min (PInt _) (PInt 50)).
  set (context := fst _).
  assert (E : num_between 0 50 engagement) by apply engagement_score_between.
  assert (C : num_between 0 50 context).
  { subst context. destruct model; [apply contextual_score_between | apply num_between_f0]. }
  exists age, engagement, context.
  split; [reflexivity|]. split; [reflexivity|]. do 2 (split; [assumption|]). split.
  - intros H.
    assert (A : num_between 0 50 age) by (apply age_score_between, age_nonneg, H).
    split; [exact A|].
    apply (num_add_between _ _ 0 100 0 50); try lia; [|exact C].
    apply (num_add_between _ _ 0 50 0 50); try lia; assumption.
  - intros H. pose proof (age_negative_in_future _ _ H) as D.
    destruct (age_score_of_negative _ D) as (f & F & A). fold age in F.
    split; [|split; [|split]].
    + rewrite F. apply (at_most_half_lt _ (-1)); [exact A | lia].
    + apply age_score_negative, D.
    + rewrite F, !num_add_float.
      apply (at_most_half_lt _ (-1 + 2 * 50 + 2 * 50)); [|lia].
      apply (fadd_at_most _ _ _ 0 50); [|exact C|lia..].
      apply (fadd_at_most _ _ _ 0 50); [exact A|exact E|lia..].
    + intros V1 V2. pose proof (valid_datetime_age _ _ V1 V2) as B.
      pose proof (age_score_is (calculate_issue_age now (created_at i))) as S.
      fold age in S. rewrite Z.min_l in S by lia. apply S. lia.
Qed.

Lemma contextual_attempt_fails model i msg :
  analysis_fails model i msg -> contextual_attempt model i = inl msg.
Proof.
  unfold analysis_fails, contextual_attempt, run, index0, exc_bind.
  intros [H|(text & H & T)]; rewrite H; [reflexivity|].
  destruct (split (strip text)) as [|tok rest]; [now subst msg|].
  rewrite T. reflexivity.
Qed.

(** C3. The context component is exactly [0.0] when no analyzer is given,
    whatever the issue holds. With an analyzer, a failure of the analysis
    (an exception of the call, or a first token that is no number) gives
    exactly [0.0], the function returns normally, and one line naming the
    issue goes to [sys.stderr]; a value that parses comes back clamped into
    [[0, 50]], with nothing written: it is the value itself when it lies in
    [[0, 50]], 0.0 when it is below 0 (or a NaN), and 50.0 when it is
    above 50. *)
Theorem context_component_is_guarded :
  (forall now i,
     breakdown (fst (get_priority_score now i None)) !! "context" = Some f0 /\
     snd (get_priority_score now i None) = [])
  /\
  (forall now i model msg,
     analysis_fails model i msg ->
     let line := "Error analyzing contextual priority for issue #"
                   +:+ pretty (number i) +:+ ": " +:+ msg in
     analyze_contextual_priority model i = (f0, [line]) /\
     breakdown (fst (get_priority_score now i (Some model))) !! "context" = Some f0 /\
     snd (get_priority_score now i (Some model)) = [line])
  /\
  (forall now i model text tok rest v,
     model (title i) (body_preview i) = Returned text ->
     split (strip text) = tok :: rest ->
     py_float tok = inr v ->
     exists c : pyfloat,
       analyze_contextual_priority model i = (PFloat c, []) /\
       match v with
       | FFin q => num_is (PFloat c) (Qmax 0 (Qmin q 50))
       | FInf false => num_is (PFloat c) 50
       | FInf true | FNan => num_is (PFloat c) 0
       end /\
       num_between 0 50 (PFloat c) /\
       (forall q, v = FFin q -> 0 <= q -> q <= 50 -> num_is (PFloat c) q) /\
       breakdown (fst (get_priority_score now i (Some model))) !! "context"
       = Some (PFloat c) /\
       snd (get_priority_score now i (Some model)) = []).
Proof.
  split; [|split].
  - intros now i. split; reflexivity.
  - intros now i model msg F line.
    assert (A : analyze_contextual_priority model i = (f0, [line])).
    { unfold analyze_contextual_priority.
      rewrite (contextual_attempt_fails _ _ _ F). reflexivity. }
    rewrite get_priority_score_eq, A. repeat split; reflexivity.
  - intros now i model text tok rest v M S P.
    assert (A : analyze_contextual_priority model i
                = (py_max f0 (py_min (PFloat v) f50), [])).
    { unfold analyze_contextual_priority, contextual_attempt, run, index0, exc_bind.
      rewrite M, S, P. reflexivity. }
    pose proof (clamp_between v) as B.
    pose proof (fun q (L : 0 <= q) (U : q <= 50) => clamp_in_range q L U) as R.
    destruct (clamp_value v) as (c & C & V). rewrite C in A, B.
    exists c. split; [exact A|]. split; [exact V|]. split; [exact B|]. split.
    + intros q -> L U. specialize (R q L U). rewrite C in R. exact R.
    + rewrite get_priority_score_eq, A. split; reflexivity.
Qed.

(** C7. Two issues that agree on everything but their labels get the same
    result from [get_priority_score] without analyzer, total and breakdown:
    the labels are no input of the score. *)
Theorem labels_are_not_scored now i1 i2 :
  number i1 = number i2 -> title i1 = title i2 -> body i1 = body i2 ->
  comments i1 = comments i2 -> created_at i1 = created_at i2 ->
  html_url i1 = html_url i2 ->
  get_priority_score now i1 None = get_priority_score now i2 None.
Proof.
  intros _ _ _ C D _.
  rewrite !get_priority_score_None. cbv zeta. rewrite C, D. reflexivity.
Qed.

(** *** The report *)

Lemma format_loop_sections clock idx issues report :
  format_loop clock idx issues report = report +:+ sections_from clock idx issues.
Proof.
  revert idx report. induction issues as [|issue rest IH]; intros idx report; simpl.
  - rewrite str_app_nil_r. reflexivity.
  - rewrite IH, str_app_assoc. reflexivity.
Qed.

Lemma sections_from_app clock idx before after :
  sections_from clock idx (before ++ after) =
  sections_from clock idx before +:+ sections_from clock (idx + length before) after.
Proof.
  revert idx. induction before as [|issue rest IH]; intros idx; simpl.
  - rewrite Nat.add_0_r. reflexivity.
  - rewrite IH, str_app_assoc. replace (S idx + length rest)%nat with (idx + S (length rest))%nat by lia.
    reflexivity.
Qed.

Lemma rne_nonneg q : 0 <= q -> (0 <= rne q)%Z.
Proof.
  intros H. rewrite <- (rne_inject 0). apply rne_mono. exact H.
Qed.

Lemma digits_number_chars (s : string) :
  all_chars is_digit s = true -> all_chars number_char s = true.
Proof.
  induction s as [|c s IH]; simpl; [reflexivity|].
  intros H. apply andb_true_iff in H. destruct H as [H1 H2].
  unfold number_char at 1. rewrite H1, (IH H2). reflexivity.
Qed.

Lemma format_1f_chars x : all_chars number_char (format_1f x) = true.
Proof.
  unfold format_1f. destruct (to_float x) as [|[|]|q]; try reflexivity.
  assert (T : (0 <= rne (Qabs q * 10))%Z).
  { apply rne_nonneg. pose proof (Qabs_nonneg q). lra. }
  rewrite !all_chars_app.
  rewrite (digits_number_chars (pretty (rne (Qabs q * 10) / 10)%Z))
    by (apply pretty_Z_digits, Z.div_pos; lia).
  rewrite (digits_number_chars (pretty (rne (Qabs q * 10) mod 10)%Z))
    by (apply pretty_Z_digits, Z.mod_pos_bound; lia).
  destruct (Qle_bool 0 q); reflexivity.
Qed.

Lemma format_1f_no_C x : char_in "C" (format_1f x) = false.
Proof.
  apply (all_chars_not_in number_char); [apply format_1f_chars | reflexivity].
Qed.

(** The section of an issue starts with its heading and its number, and
    shows its priority display. *)
Lemma issue_section_start now idx issue :
  exists rest,
    issue_section now idx issue
    = section_start idx issue +:+ priority_display issue +:+ rest.
Proof.
  unfold issue_section. cbv zeta.
  set (rest := "  " +:+ nl +:+ "**Labels:** " +:+ _).
  exists rest. unfold section_start. rewrite !str_app_assoc. reflexivity.
Qed.

Lemma sections_laid_out clock idx (issues : list issue_data) :
  exists rests,
    length rests = length issues /\
    sections_from clock idx issues = laid_out idx issues rests.
Proof.
  revert idx. induction issues as [|issue issues' IH]; intros idx.
  - exists []. split; reflexivity.
  - destruct (IH (S idx)) as (rests & L & E).
    destruct (issue_section_start (clock idx) idx issue) as (rest & R).
    exists (rest :: rests). split; [cbn [length]; rewrite L; reflexivity|].
    cbn [sections_from laid_out]. rewrite R, E, !str_app_assoc. reflexivity.
Qed.

(** C8. The report is its head followed by one section for each issue, in
    the order of the input list and with nothing between them: the section
    of the issue at position [k] (from 1) starts with the heading
    "### k. [title](url)" and the number of the issue, and shows its
    priority display; it stands after the sections of the issues before it
    in the list and before those of the issues after it. In the priority
    display the context term is present exactly when the context component
    is greater than 0, and the age and engagement terms are present
    whenever the breakdown is. *)
Theorem sections_follow_input_order :
  (forall clock issues recommendation repo_name,
     exists rests,
       length rests = length issues /\
       format_issue_summary clock issues recommendation repo_name =
       report_header (strftime (clock 0%nat)) (length issues) recommendation repo_name
         +:+ laid_out 1 issues rests)
  /\
  (forall clock before issue after recommendation repo_name,
     let issues := before ++ issue :: after in
     let k := S (length before) in
     exists rest,
       issue_section (clock k) k issue
       = section_start k issue +:+ priority_display issue +:+ rest /\
       format_issue_summary clock issues recommendation repo_name =
       (report_header (strftime (clock 0%nat)) (length issues) recommendation repo_name
          +:+ sections_from clock 1 before)
         +:+ (section_start k issue +:+ priority_display issue +:+ rest)
         +:+ sections_from clock (S k) after)
  /\
  (forall issue,
     let breakdown := default ∅ (d_priority_breakdown issue) in
     let context_val := component breakdown "context" in
     (contains "Context analysis" (priority_display issue) = true <->
      num_lt (PInt 0) context_val = true) /\
     (breakdown <> ∅ ->
      exists context_term,
        priority_display issue =
        format_1f (d_priority_score issue) +:+ " ("
          +:+ format_1f (component breakdown "age") +:+ " Age, "
          +:+ format_1f (component breakdown "engagement") +:+ " Engagement"
          +:+ context_term +:+ ")" /\
        context_term
        = if num_lt (PInt 0) context_val
          then ", " +:+ format_1f context_val +:+ " Context analysis"
          else "")).
Proof.
  split; [|split].
  - intros clock issues recommendation repo_name.
    destruct (sections_laid_out clock 1 issues) as (rests & L & E).
    exists rests. split; [exact L|].
    unfold format_issue_summary. rewrite format_loop_sections, E. reflexivity.
  - intros clock before issue after recommendation repo_name issues k.
    destruct (issue_section_start (clock k) k issue) as (rest & R).
    exists rest. split; [exact R|]. rewrite <- R.
    unfold format_issue_summary. rewrite format_loop_sections.
    subst issues. rewrite sections_from_app. cbn [sections_from].
    replace (1 + length before)%nat with k by reflexivity.
    rewrite !str_app_assoc. reflexivity.
  - intros issue breakdown context_val. unfold priority_display.
    fold breakdown. fold context_val.
    destruct (decide (breakdown = ∅)) as [E|N].
    + split; [|contradiction].
      assert (Z : num_lt (PInt 0) context_val = false).
      { subst context_val. rewrite E. reflexivity. }
      rewrite Z. rewrite (not_contains "C"); [easy | reflexivity | apply format_1f_no_C].
    + split.
      * destruct (num_lt (PInt 0) context_val).
        -- split; [reflexivity|]. intros _.
           rewrite !str_app_assoc. do 8 apply contains_app_r. reflexivity.
        -- rewrite (not_contains "C"); [easy | reflexivity |].
           rewrite !char_in_app, !format_1f_no_C. reflexivity.
      * intros _. destruct (num_lt (PInt 0) context_val).
        -- exists (", " +:+ format_1f context_val +:+ " Context analysis").
           split; [|reflexivity]. rewrite !str_app_assoc. reflexivity.
        -- exists "". split; [|reflexivity]. rewrite !str_app_assoc. reflexivity.
Qed.

(** C9. For every recommendation text, the report of the empty list holds
    "Total Open Issues:** 0" and ends with the heading of the issue list:
    no section follows it. *)
Theorem empty_report clock recommendation :
  let report := format_issue_summary clock [] recommendation "o/r" in
  contains "Total Open Issues:** 0" report = true /\
  exists before,
    report = before +:+ recommendation +:+ nl +:+ nl
               +:+ "## " +:+ mark_issues +:+ " Prioritized Issues" +:+ nl +:+ nl.
Proof.
  cbv zeta. unfold format_issue_summary, format_loop, report_header. split.
  - do 10 apply contains_app_r.
    change ("**Total Open Issues:** " +:+ pretty (length (@nil issue_data)) +:+ ?r)
      with ("**" +:+ "Total Open Issues:** 0" +:+ r).
    apply (contains_mid "Total Open Issues:** 0" "**").
  - eexists. rewrite <- !str_app_assoc. reflexivity.
Qed.

(** *** The clock *)

Lemma issue_section_age now1 now2 idx issue :
  calculate_issue_age now1 (d_created_at issue)
  = calculate_issue_age now2 (d_created_at issue) ->
  issue_section now1 idx issue = issue_section now2 idx issue.
Proof. intros H. unfold issue_section. rewrite H. reflexivity. Qed.

Lemma sections_from_ages clock1 clock2 idx (issues : list issue_data) :
  (forall k issue, issues !! k = Some issue ->
     calculate_issue_age (clock1 (idx + k)%nat) (d_created_at issue)
     = calculate_issue_age (clock2 (idx + k)%nat) (d_created_at issue)) ->
  sections_from clock1 idx issues = sections_from clock2 idx issues.
Proof.
  revert idx. induction issues as [|issue rest IH]; intros idx H; [reflexivity|].
  cbn [sections_from]. f_equal.
  - apply issue_section_age. specialize (H 0%nat issue eq_refl).
    rewrite Nat.add_0_r in H. exact H.
  - apply IH. intros k x Hk. specialize (H (S k) x Hk).
    replace (S idx + k)%nat with (idx + S k)%nat by lia. exact H.
Qed.

(** C6, as the code has it. Scoring and formatting read the clock, and
    depend on it only through the whole-day ages and the printed time:
    [get_priority_score] without analyzer returns the same result at two
    clock readings that give the issue the same age in days, and
    [format_issue_summary] returns the same text under two clocks that print
    the same time in the head and give every issue the same age in days. *)
Theorem results_depend_on_clock_by_days :
  (forall now1 now2 i,
     calculate_issue_age now1 (created_at i) = calculate_issue_age now2 (created_at i) ->
     get_priority_score now1 i None = get_priority_score now2 i None)
  /\
  (forall clock1 clock2 (issues : list issue_data) recommendation repo_name,
     strftime (clock1 0%nat) = strftime (clock2 0%nat) ->
     (forall k issue, issues !! k = Some issue ->
        calculate_issue_age (clock1 (S k)) (d_created_at issue)
        = calculate_issue_age (clock2 (S k)) (d_created_at issue)) ->
     format_issue_summary clock1 issues recommendation repo_name
     = format_issue_summary clock2 issues recommendation repo_name).
Proof.
  split.
  - intros now1 now2 i H. rewrite !get_priority_score_None. cbv zeta. rewrite H. reflexivity.
  - intros clock1 clock2 issues recommendation repo_name T A.
    unfold format_issue_summary. rewrite !format_loop_sections, T.
    f_equal. apply sections_from_ages. exact A.
Qed.

End Builtins.

(** *** The calls to the language model, the platform and the run *)

(** [", ".join([label.name for label in issue.labels]) if issue.labels else
    none], [none] being the text for an issue with no label. *)
Definition labels_text (i : issue) (none : string) : string :=
  match labels i with
  | [] => none
  | names => join ", " names
  end.

(** The language model behind the four chains: its answer to the prompt of
    the priority analysis (from a title and a body), of the summary and of
    the reading materials (from a title, the labels and a body), and of the
    recommendation (from the lines of the issues). *)
Record chat := {
  priority_chain : llm;
  summary_chain : string -> string -> string -> outcome;
  reading_chain : string -> string -> string -> outcome;
  recommendation_chain : string -> outcome
}.

(** [summarize_issue(llm, issue)]: the summary and the lines written to
    [sys.stderr]. *)
Definition summarize_issue (model : chat) (i : issue) : string * list string :=
  let labels_str := labels_text i "None" in
  match summary_chain model (title i) labels_str (body_preview i) with
  | Returned result => (strip result, [])
  | Raised e =>
      ("Unable to generate summary. " +:+ title i,
       ["Error summarizing issue #" +:+ pretty (number i) +:+ ": " +:+ e])
  end.

(** [generate_reading_materials(llm, issue)] *)
Definition generate_reading_materials (model : chat) (i : issue) : string * list string :=
  let labels_str := labels_text i "None" in
  match reading_chain model (title i) labels_str (body_preview i) with
  | Returned result => (strip result, [])
  | Raised e =>
      ("", ["Error generating reading materials for issue #" +:+ pretty (number i)
              +:+ ": " +:+ e])
  end.

(** The line of one issue in the prompt of the recommendation. *)
Definition recommendation_line (issue : issue_data) : string :=
  "- Issue #" +:+ pretty (d_number issue) +:+ ": " +:+ d_title issue +:+ " (Score: "
    +:+ format_1f (d_priority_score issue) +:+ ", Labels: " +:+ d_labels issue +:+ ")".

(** [generate_priority_recommendation(llm, prioritized_issues)] *)
Definition generate_priority_recommendation (model : chat)
    (prioritized_issues : list issue_data) : string * list string :=
  match prioritized_issues with
  | [] => ("No open issues to prioritize.", [])
  | _ :: _ =>
      let top_issues := take 5 prioritized_issues in
      let issues_context := join nl (recommendation_line <$> top_issues) in
      match recommendation_chain model issues_context with
      | Returned result => (strip result, [])
      | Raised e =>
          ("Unable to generate recommendation at this time.",
           ["Error generating recommendation: " +:+ e])
      end
  end.

(** [os.getenv(key)] is [environ !! key]. A variable that the program
    requires: the [ValueError] when it is unset or empty, or its value. *)
Definition required (environ : gmap string string) (key : string) : exc string :=
  match environ !! key with
  | Some value =>
      if str_truthy value then inr value
      else inl (key +:+ " environment variable is required")
  | None => inl (key +:+ " environment variable is required")
  end.

(** [get_github_client] and [get_openai_client]: a client stands for the
    token or key it is built from. *)
Definition get_github_client (environ : gmap string string) : exc string :=
  required environ "GITHUB_TOKEN".

Definition get_openai_client (environ : gmap string string) : exc string :=
  required environ "OPENAI_API_KEY".

(** An element of [repo.get_issues(state='open')]: an issue, and whether
    its [pull_request] attribute is set. *)
Record listed := {
  the_issue : issue;
  pull_request : bool
}.

(** What [get_repo] and the iteration over [get_issues(state='open')] give:
    the elements in order, then the end of the list or an exception (the
    pages are fetched while the loop runs; an exception of [get_repo] is a
    listing that breaks at once). *)
Record listing := {
  elements : list listed;
  broken : option string
}.

(** The hosting platform at one moment of the run: the answer to a listing
    (from the token and the name of the repository), to the edit of the
    body of an issue and to the creation of an issue (from the name of the
    repository, a title, a body and labels); an answer to a write is an
    exception or the [html_url] of the issue written. *)
Record github := {
  get_issues : string -> string -> listing;
  edit : listed -> string -> exc string;
  create_issue : string -> string -> string -> list string -> exc string
}.

(** [fetch_open_issues(repo_name)] *)
Definition fetch_open_issues (environ : gmap string string) (hub : github)
    (repo_name : string) : exc (list issue) :=
  let! token := get_github_client environ in
  let issues := get_issues hub token repo_name in
  match broken issues with
  | Some e => inl e
  | None => inr (the_issue <$> List.filter (fun x => negb (pull_request x)) (elements issues))
  end.

(** The title of the issue that holds the report, with the bytes of the
    source file. *)
Definition summary_title : string := "ðŸ“Š Issue Summary Report".

(** A write sent to the platform. *)
Inductive write :=
  | Edit (target : listed) (body : string)
  | Create (title body : string) (labels : list string).

(** The loop that looks for the issue of the report: the first element
    with the title, found before the listing breaks. *)
Definition existing_issue (issues : listing) : exc (option listed) :=
  match List.find (fun x => String.eqb (title (the_issue x)) summary_title)
          (elements issues) with
  | Some x => inr (Some x)
  | None =>
      match broken issues with
      | Some e => inl e
      | None => inr None
      end
  end.

(** [create_or_update_summary_issue(repo_name, summary_content)]: the
    writes sent, and the exception raised or the lines printed. *)
Definition create_or_update_summary_issue (environ : gmap string string) (hub : github)
    (repo_name summary_content : string) : list write * exc (list string) :=
  match get_github_client environ with
  | inl e => ([], inl e)
  | inr token =>
      match existing_issue (get_issues hub token repo_name) with
      | inl e => ([], inl e)
      | inr (Some existing) =>
          ([Edit existing summary_content],
           let! url := edit hub existing summary_content in
           inr ["Updated existing summary issue: " +:+ url])
      | inr None =>
          ([Create summary_title summary_content ["bot"; "summary"]],
           let! url := create_issue hub repo_name summary_title summary_content
                         ["bot"; "summary"] in
           inr ["Created new summary issue: " +:+ url])
      end
  end.

(** The entry of [prioritized_issues] that [main] builds for an issue. *)
Definition entry_of (i : issue) (priority_result : score_result) (summary reading : string)
  : issue_data :=
  {| d_number := number i; d_title := title i; d_url := html_url i;
     d_created_at := created_at i; d_labels := labels_text i "";
     d_comments := Z.of_N (comments i);
     d_priority_score := total priority_result;
     d_priority_breakdown := Some (breakdown priority_result);
     d_summary := summary; d_reading_materials := Some reading |}.

(** [prioritized_issues.sort(key=lambda x: x['priority_score'],
    reverse=True)]: the stable sort by decreasing score, as an insertion
    from the right. (A score is never a NaN, see [total_not_nan] below, so
    [<] orders the scores totally; on such keys every stable sort returns
    this list.) *)
Fixpoint insert_by_score (x : issue_data) (sorted : list issue_data) : list issue_data :=
  match sorted with
  | [] => [x]
  | y :: rest =>
      if num_lt (d_priority_score x) (d_priority_score y)
      then y :: insert_by_score x rest
      else x :: sorted
  end.

Definition sort_by_score (l : list issue_data) : list issue_data :=
  foldr insert_by_score [] l.

(** The report of a repository with no open issue. *)
Definition no_issues_report (ts repo_name : string) : string :=
  "# Issue Summary Report" +:+ nl +:+
  nl +:+
  "**Repository:** " +:+ repo_name +:+ "  " +:+ nl +:+
  "**Generated:** " +:+ ts +:+ "  " +:+ nl +:+
  nl +:+
  "## Status" +:+ nl +:+
  nl +:+
  "âœ… No open issues found! Great job keeping the backlog clean." +:+ nl.

(** What a run meets: the environment and the arguments of the process
    ([argv] starts with the name of the script), the platform when the
    issues are fetched and when the report is posted, the language model
    while the [k]-th fetched issue is processed and when the recommendation
    is asked, and the clock: [score_clock k] is the reading of
    [get_priority_score] for the [k]-th fetched issue, [report_clock] holds
    the readings of the report (0 for its head, [k] for its [k]-th
    section). *)
Record world := {
  environ : gmap string string;
  argv : list string;
  at_fetch : github;
  at_post : github;
  model_at : nat -> chat;
  recommender : chat;
  score_clock : nat -> datetime;
  report_clock : nat -> datetime
}.

(** What a run leaves: the lines printed on [sys.stdout] and on
    [sys.stderr], the writes sent to the platform, and the exit status
    (0 when [main] returns). *)
Record result := {
  stdout : list string;
  stderr : list string;
  requests : list write;
  exit_status : Z
}.

Section Run.

Variable py_float : string -> string + pyfloat.
Variable strftime : datetime -> string.

(** The loop of [main] over the fetched issues, from the [k]-th on: the
    entries in the order of the issues, and the lines written to
    [sys.stderr]. *)
Fixpoint prioritize (w : world) (k : nat) (issues : list issue)
  : list issue_data * list string :=
  match issues with
  | [] => ([], [])
  | i :: rest =>
      if contains "Issue Summary Report" (title i) then prioritize w (S k) rest
      else
        let model := model_at w k in
        let priority_result :=
          get_priority_score py_float (score_clock w k) i (Some (priority_chain model)) in
        let summary := summarize_issue model i in
        let reading := generate_reading_materials model i in
        let issue_data :=
          entry_of i (fst priority_result) (fst summary) (fst reading) in
        let others := prioritize w (S k) rest in
        (issue_data :: fst others,
         snd priority_result ++ snd summary ++ snd reading ++ snd others)
  end.

(** The body of the [try] of [main] after the fetch, on a list of issues
    that is not empty: the lines printed, the lines written to
    [sys.stderr], the writes sent, and the exception raised if any. *)
Definition summarize_all (w : world) (repo_name : string) (issues : list issue)
  : list string * list string * list write * option string :=
  let found := "Found " +:+ pretty (length issues) +:+ " open issues. Analyzing..." in
  match get_openai_client (environ w) with
  | inl e => ([found], [], [], Some e)
  | inr _ =>
      let processed := prioritize w 0 issues in
      let prioritized_issues := sort_by_score (fst processed) in
      let recommendation := generate_priority_recommendation (recommender w) prioritized_issues in
      let summary_content :=
        format_issue_summary strftime (report_clock w) prioritized_issues
          (fst recommendation) repo_name in
      let posted :=
        create_or_update_summary_issue (environ w) (at_post w) repo_name summary_content in
      let errors := snd processed ++ snd recommendation in
      match snd posted with
      | inl e => ([found], errors, fst posted, Some e)
      | inr lines =>
          ([found] ++ lines ++ ["Issue summary completed successfully!"], errors,
           fst posted, None)
      end
  end.

(** The body of the [try] of [main]. *)
Definition attempt (w : world) (repo_name : string)
  : list string * list string * list write * option string :=
  match fetch_open_issues (environ w) (at_fetch w) repo_name with
  | inl e => ([], [], [], Some e)
  | inr [] =>
      let summary_content := no_issues_report (strftime (report_clock w 0%nat)) repo_name in
      let posted :=
        create_or_update_summary_issue (environ w) (at_post w) repo_name summary_content in
      match snd posted with
      | inl e => (["No open issues found."], [], fst posted, Some e)
      | inr lines => (["No open issues found."] ++ lines, [], fst posted, None)
      end
  | inr issues => summarize_all w repo_name issues
  end.

(** [main()] *)
Definition main (w : world) : result :=
  let repo_name := environ w !! "GITHUB_REPOSITORY" in
  let repo_name :=
    if negb (truthy repo_name) && bool_decide (1 < length (argv w))
    then argv w !! 1%nat
    else repo_name in
  if negb (truthy repo_name) then
    {| stdout := [];
       stderr := ["Error: Repository name not provided. Set GITHUB_REPOSITORY env var or pass as argument."];
       requests := []; exit_status := 1 |}
  else
    let repo_name := default "" repo_name in
    let '(printed, errors, sent, raised) := attempt w repo_name in
    let printed := ("Fetching issues from " +:+ repo_name +:+ "...") :: printed in
    match raised with
    | Some e =>
        {| stdout := printed; stderr := errors ++ ["Error: " +:+ e];
           requests := sent; exit_status := 1 |}
    | None =>
        {| stdout := printed; stderr := errors; requests := sent; exit_status := 0 |}
    end.

End Run.

(** *** Notions of the statements on the run *)

(** Two entries neither of which sorts before the other. *)
Definition same_score (x y : issue_data) : bool :=
  negb (num_lt (d_priority_score x) (d_priority_score y))
  && negb (num_lt (d_priority_score y) (d_priority_score x)).

(** No entry of the list has a lower score than an entry after it. *)
Definition descending (l : list issue_data) : Prop :=
  forall j k a b,
    j < k -> l !! j = Some a -> l !! k = Some b ->
    num_lt (d_priority_score a) (d_priority_score b) = false.

(** The issues that the loop of [main] leaves out. *)
Definition skipped (i : issue) : bool := contains "Issue Summary Report" (title i).

(** The body of a write. *)
Definition body_of (request : write) : string :=
  match request with
  | Edit _ body => body
  | Create _ body _ => body
  end.

(** A world with other arguments on the command line. *)
Definition with_argv (w : world) (arguments : list string) : world :=
  {| environ := environ w; argv := arguments; at_fetch := at_fetch w; at_post := at_post w;
     model_at := model_at w; recommender := recommender w;
     score_clock := score_clock w; report_clock := report_clock w |}.

(** A world with one more variable in the environment. *)
Definition with_variable (w : world) (key value : string) : world :=
  {| environ := <[ key := value ]> (environ w); argv := argv w; at_fetch := at_fetch w;
     at_post := at_post w; model_at := model_at w; recommender := recommender w;
     score_clock := score_clock w; report_clock := report_clock w |}.

(** The result of a run that ends before the first access to the
    platform, for want of a repository name. *)
Definition no_repository : result :=
  {| stdout := [];
     stderr := ["Error: Repository name not provided. Set GITHUB_REPOSITORY env var or pass as argument."];
     requests := []; exit_status := 1 |}.

(** *** The scores *)

Section Scores.

Variable py_float : string -> string + pyfloat.

Local Open Scope Q_scope.

(** The sum of the age and engagement components, from the whole-day age
    and the comment count. *)
Lemma base_score_is now i :
  valid_datetime now = true -> valid_datetime (created_at i) = true ->
  let d := calculate_issue_age now (created_at i) in
  let c := Z.of_N (comments i) in
  num_is (num_add (py_min (int_truediv d 2) (PInt 50)) (py_min (PInt (c * 3)) (PInt 50)))
    ((Z.min d 100 + 2 * Z.min (c * 3) 50) # 2).
Proof.
  intros V1 V2 d c. pose proof (valid_datetime_age _ _ V1 V2) as B. fold d in B.
  rewrite engagement_score_eq.
  apply num_add_half; try lia.
  - apply age_score_is. lia.
  - apply num_is_int.
Qed.

(** X6. Without analyzer the score never decreases with the age of the
    issue or with its number of comments: an issue that is at least as old
    as another (at the clock readings of the two calls) and has at least as
    many comments scores at least as much. In particular the score of an
    issue never decreases as time passes. *)
Theorem score_grows_with_age_and_comments now1 now2 i1 i2 :
  valid_datetime now1 = true -> valid_datetime now2 = true ->
  valid_datetime (created_at i1) = true -> valid_datetime (created_at i2) = true ->
  (now1 - created_at i1 <= now2 - created_at i2)%Z ->
  (comments i1 <= comments i2)%N ->
  num_le (total (fst (get_priority_score py_float now1 i1 None)))
         (total (fst (get_priority_score py_float now2 i2 None))).
Proof.
  intros V1 V2 W1 W2 A C.
  pose proof (total_no_analyzer py_float now1 i1 V1 W1) as T1.
  pose proof (total_no_analyzer py_float now2 i2 V2 W2) as T2.
  cbv zeta in T1, T2.
  apply (num_is_le _ _ _ _ T1 T2).
  assert (D : (calculate_issue_age now1 (created_at i1)
               <= calculate_issue_age now2 (created_at i2))%Z).
  { unfold calculate_issue_age, us_per_day. apply Z.div_le_mono; lia. }
  unfold Qle. cbn [Qnum Qden]. lia.
Qed.

(** X7. An analyzer adds its clamped answer to the score and nothing else:
    the total with an analyzer is at least the total without it and at most
    50 more, whatever the analyzer answers or however it fails. *)
Theorem analyzer_adds_between_0_and_50 now i model :
  valid_datetime now = true -> valid_datetime (created_at i) = true ->
  exists base : Q,
    num_is (total (fst (get_priority_score py_float now i None))) base /\
    num_between base (base + 50) (total (fst (get_priority_score py_float now i (Some model)))).
Proof.
  intros V1 V2.
  pose proof (total_no_analyzer py_float now i V1 V2) as T.
  pose proof (base_score_is now i V1 V2) as B.
  pose proof (valid_datetime_age _ _ V1 V2) as D.
  cbv zeta in T, B.
  set (d := calculate_issue_age now (created_at i)) in *.
  set (c := Z.of_N (comments i)) in *.
  set (k := (Z.min d 100 + 2 * Z.min (c * 3) 50)%Z) in *.
  exists (k # 2). split.
  - eapply num_is_comp; [|exact T]. unfold Qeq. cbn [Qnum Qden]. lia.
  - rewrite get_priority_score_eq. cbn [fst total]. fold d c.
    pose proof (contextual_score_between py_float model i) as X.
    pose proof (num_add_half_between _ _ k 0 50 B X) as S.
    eapply num_between_comp; [| |apply S; lia].
    + unfold Qle. cbn [Qnum Qden]. lia.
    + unfold Qle, Qplus. cbn [Qnum Qden]. lia.
Qed.

End Scores.

(** *** The texts handed to the language model and taken from it *)

(** X8. The body handed to the language model is the body of the issue
    cut after its 500th character: the whole body when it has at most 500
    characters, its first 500 characters when it has more, and the
    placeholder sentence when the issue has no body or an empty one. So it
    is never longer than 500 characters. (A character is a code point of
    the text, as Python counts them.) *)
Theorem body_preview_is_bounded i :
  (forall b, body i = Some b -> b <> "" -> String.length b <= 500 ->
     body_preview i = b) /\
  (forall b, body i = Some b -> 500 < String.length b ->
     String.length (body_preview i) = 500 /\
     exists rest, b = body_preview i +:+ rest) /\
  (body i = None \/ body i = Some "" -> body_preview i = "No description provided") /\
  String.length (body_preview i) <= 500.
Proof.
  unfold body_preview. split; [|split; [|split]].
  - intros b -> N L. destruct b as [|c b]; [contradiction|]. cbn [str_truthy].
    apply str_take_all, L.
  - intros b -> L. destruct b as [|c b]; [cbn in L; lia|]. cbn [str_truthy]. split.
    + rewrite str_take_length. lia.
    + exists (str_drop 500 (String c b)). symmetry. apply str_take_drop.
  - intros [-> | ->]; reflexivity.
  - destruct (body i) as [b|]; [|cbn; lia].
    destruct (str_truthy b); [|cbn; lia].
    rewrite str_take_length. lia.
Qed.

(** X9. The recommendation depends on the prioritized issues only through
    the lines of the first five of them (number, title, score with one
    decimal, labels): two lists with the same first five lines get the same
    recommendation from the same model; and the empty list gets the fixed
    sentence with nothing written to [sys.stderr], whatever the model. *)
Theorem recommendation_reads_five_lines :
  (forall model l1 l2,
     take 5 (recommendation_line <$> l1) = take 5 (recommendation_line <$> l2) ->
     generate_priority_recommendation model l1 = generate_priority_recommendation model l2) /\
  (forall model,
     generate_priority_recommendation model [] = ("No open issues to prioritize.", [])).
Proof.
  split; [|reflexivity].
  intros model l1 l2 H. destruct l1 as [|x1 l1], l2 as [|x2 l2]; try discriminate H.
  - reflexivity.
  - unfold generate_priority_recommendation. rewrite !fmap_take, H. reflexivity.
Qed.

Section Entries.

Variable py_float : string -> string + pyfloat.

(** X10. For an entry that [main] builds from a result of
    [get_priority_score], the report always shows the breakdown after the
    total: the age and the engagement components of the result, and the
    context component exactly when it is greater than 0. It is not shown
    without analyzer, nor when the analysis fails. *)
Theorem display_of_scored_entry now i model summary reading :
  let r := fst (get_priority_score py_float now i model) in
  exists age engagement context,
    breakdown r = {[ "age" := age; "engagement" := engagement; "context" := context ]} /\
    priority_display (entry_of i r summary reading)
    = format_1f (total r) +:+ " (" +:+ format_1f age +:+ " Age, "
        +:+ format_1f engagement +:+ " Engagement"
        +:+ (if num_lt (PInt 0) context
             then ", " +:+ format_1f context +:+ " Context analysis"
             else "")
        +:+ ")" /\
    (model = None -> num_lt (PInt 0) context = false) /\
    (forall m msg, model = Some m -> analysis_fails py_float m i msg ->
       num_lt (PInt 0) context = false).
Proof.
  intros r. subst r. rewrite get_priority_score_eq. cbn [fst total breakdown].
  set (age := py_min _ (PInt 50)).
  set (engagement := py_min (PInt _) (PInt 50)).
  set (context := fst _).
  exists age, engagement, context. split; [reflexivity|]. split; [|split].
  - unfold priority_display, entry_of, component.
    cbn [d_priority_breakdown d_priority_score default id breakdown total].
    rewrite decide_False by apply insert_non_empty.
    rewrite lookup_insert_eq.
    rewrite (lookup_insert_ne _ "age" "engagement") by discriminate.
    rewrite lookup_insert_eq.
    rewrite !lookup_insert_ne, lookup_singleton_eq by discriminate.
    cbn [default]. unfold id.
    destruct (num_lt (PInt 0) context); rewrite !str_app_assoc; reflexivity.
  - intros ->. reflexivity.
  - intros m msg -> F. subst context. unfold analyze_contextual_priority.
    rewrite (contextual_attempt_fails _ _ _ _ F). reflexivity.
Qed.

End Entries.

(** X11. The section of an entry that [main] builds shows a reading block
    exactly when the call for the reading materials returned a text that
    is not blank: the block then holds the text without the white space
    around it; after a failure of the call, or an answer of white space
    only, the summary is followed by the rule that ends the section. *)
Theorem blank_reading_leaves_no_block model i now idx r summary :
  let reading := fst (generate_reading_materials model i) in
  let answer := reading_chain model (title i) (labels_text i "None") (body_preview i) in
  exists before,
    issue_section now idx (entry_of i r summary reading)
    = before +:+ "**Summary:** " +:+ summary
        +:+ match answer with
            | Returned text =>
                if blank text then ""
                else nl +:+ nl +:+ "**" +:+ mark_reading +:+ " Recommended Reading:**" +:+ nl
                       +:+ strip text +:+ nl
            | Raised _ => ""
            end
        +:+ nl +:+ nl +:+ "---" +:+ nl +:+ nl.
Proof.
  cbv zeta. unfold issue_section.
  cbn [entry_of d_reading_materials d_summary default]. unfold id.
  set (reading := fst (generate_reading_materials model i)).
  assert (E : (if str_truthy reading
               then nl +:+ nl +:+ "**" +:+ mark_reading +:+ " Recommended Reading:**" +:+ nl
                      +:+ reading +:+ nl
               else "")
              = match reading_chain model (title i) (labels_text i "None") (body_preview i) with
                | Returned text =>
                    if blank text then ""
                    else nl +:+ nl +:+ "**" +:+ mark_reading +:+ " Recommended Reading:**" +:+ nl
                           +:+ strip text +:+ nl
                | Raised _ => ""
                end).
  { subst reading. unfold generate_reading_materials.
    destruct (reading_chain model (title i) (labels_text i "None") (body_preview i))
      as [text|e]; cbn [fst]; [|reflexivity].
    destruct (blank text) eqn:B.
    - rewrite (strip_blank _ B). reflexivity.
    - rewrite (strip_not_blank _ B). reflexivity. }
  rewrite E.
  repeat lazymatch goal with
         | |- exists _, "**Summary:** " +:+ _ = _ => fail
         | |- _ => apply str_peel
         end.
  exists "". reflexivity.
Qed.

(** X25. A text that the language model returns is kept without the white
    space at its two ends: the answer is the text kept between two runs of
    white space, and the text kept neither starts nor ends with a white
    space character. This holds of the summary of [summarize_issue], of the
    reading materials of [generate_reading_materials] and of the
    recommendation of [generate_priority_recommendation] for a list that is
    not empty. The reading materials and the recommendation have no white
    space at their ends in every case, their fallback texts included (the
    fallback of the summary ends with the title of the issue). *)
Theorem answers_of_the_model_are_trimmed model i prioritized_issues :
  (forall text,
     summary_chain model (title i) (labels_text i "None") (body_preview i) = Returned text ->
     stripped_of text (fst (summarize_issue model i))) /\
  (forall text,
     reading_chain model (title i) (labels_text i "None") (body_preview i) = Returned text ->
     stripped_of text (fst (generate_reading_materials model i))) /\
  (forall text,
     prioritized_issues <> [] ->
     recommendation_chain model (join nl (recommendation_line <$> take 5 prioritized_issues))
     = Returned text ->
     stripped_of text (fst (generate_priority_recommendation model prioritized_issues))) /\
  bare_ends (fst (generate_reading_materials model i)) /\
  bare_ends (fst (generate_priority_recommendation model prioritized_issues)).
Proof.
  unfold summarize_issue, generate_reading_materials, generate_priority_recommendation.
  split; [|split; [|split; [|split]]].
  - intros text ->. apply strip_stripped.
  - intros text ->. apply strip_stripped.
  - intros text N. destruct prioritized_issues as [|x l]; [contradiction|].
    intros ->. apply strip_stripped.
  - destruct (reading_chain model (title i) (labels_text i "None") (body_preview i))
      as [text|e]; [apply strip_stripped | apply bare_ends_by_ends; reflexivity].
  - destruct prioritized_issues as [|x l]; [apply bare_ends_by_ends; reflexivity|].
    destruct (recommendation_chain model _) as [text|e];
      [apply strip_stripped | apply bare_ends_by_ends; reflexivity].
Qed.

(** *** The issue that holds the report *)

(** X12. [create_or_update_summary_issue] sends at most one write. When it
    edits, the target is the first element of the listing of open issues
    whose title is exactly the title of the report (a pull request as well
    as an issue), and the new body is the report. It creates an issue, with
    that title, the report as body and the labels "bot" and "summary", only
    after the whole listing was read without exception and holds no element
    with that title. *)
Theorem summary_issue_is_edited_or_created environ hub repo_name summary_content :
  let sent := fst (create_or_update_summary_issue environ hub repo_name summary_content) in
  length sent <= 1 /\
  (forall target body, Edit target body ∈ sent ->
     body = summary_content /\
     exists token before after,
       get_github_client environ = inr token /\
       elements (get_issues hub token repo_name) = before ++ target :: after /\
       title (the_issue target) = summary_title /\
       forall x, x ∈ before -> title (the_issue x) <> summary_title) /\
  (forall t body names, Create t body names ∈ sent ->
     t = summary_title /\ body = summary_content /\ names = ["bot"; "summary"] /\
     exists token,
       get_github_client environ = inr token /\
       broken (get_issues hub token repo_name) = None /\
       forall x, x ∈ elements (get_issues hub token repo_name) ->
                 title (the_issue x) <> summary_title).
Proof.
  cbv zeta. unfold create_or_update_summary_issue, existing_issue.
  destruct (get_github_client environ) as [e|token]; cbn [fst].
  { split; [cbn; lia|]. split; intros; exfalso; eapply elem_of_nil; eassumption. }
  destruct (List.find _ (elements (get_issues hub token repo_name))) as [x|] eqn:F.
  - cbn [fst]. split; [cbn; lia|]. split.
    + intros target body H. apply list_elem_of_singleton in H. injection H as -> ->.
      split; [reflexivity|].
      destruct (find_first _ _ _ F) as (before & after & E & T & B).
      exists token, before, after. split; [reflexivity|]. split; [exact E|].
      split; [apply String.eqb_eq, T|].
      intros y Hy C. apply String.eqb_eq in C. rewrite (B y Hy) in C. discriminate.
    + intros t body names H. apply list_elem_of_singleton in H. discriminate.
  - destruct (broken (get_issues hub token repo_name)) as [e|] eqn:K; cbn [fst].
    { split; [cbn; lia|]. split; intros; exfalso; eapply elem_of_nil; eassumption. }
    split; [cbn; lia|]. split.
    + intros target body H. apply list_elem_of_singleton in H. discriminate.
    + intros t body names H. apply list_elem_of_singleton in H. injection H as -> -> ->.
      repeat (split; [reflexivity|]).
      exists token. split; [reflexivity|]. split; [exact K|].
      intros y Hy C. apply String.eqb_eq in C.
      rewrite (find_nothing _ _ F y Hy) in C. discriminate.
Qed.

(** *** The ranking *)

Lemma descending_cons x l :
  descending (x :: l) <->
  Forall (fun b => num_lt (d_priority_score x) (d_priority_score b) = false) l /\ descending l.
Proof.
  unfold descending. split.
  - intros H. split.
    + apply Forall_lookup. intros k b Hk. apply (H 0 (S k) x b); [lia | reflexivity | exact Hk].
    + intros j k a b L Hj Hk. apply (H (S j) (S k) a b); [lia | exact Hj | exact Hk].
  - intros [F D] j k a b L Hj Hk. destruct k as [|k]; [lia|]. cbn in Hk.
    destruct j as [|j].
    + injection Hj as <-. rewrite Forall_lookup in F. exact (F k b Hk).
    + cbn in Hj. apply (D j k a b); [lia | exact Hj | exact Hk].
Qed.

Lemma insert_by_score_perm x l : insert_by_score x l ≡ₚ x :: l.
Proof.
  induction l as [|y l IH]; [reflexivity|]. cbn [insert_by_score].
  destruct (num_lt _ _); [|reflexivity].
  rewrite IH. apply Permutation_swap.
Qed.

Lemma sort_by_score_perm l : sort_by_score l ≡ₚ l.
Proof.
  induction l as [|x l IH]; [reflexivity|].
  cbn [sort_by_score foldr]. fold (sort_by_score l).
  rewrite insert_by_score_perm, IH. reflexivity.
Qed.

Lemma insert_by_score_descending x l :
  Forall (fun y => num_real (d_priority_score y) <> FNan) l ->
  descending l -> descending (insert_by_score x l).
Proof.
  induction l as [|y l IH]; intros N D.
  - cbn. apply descending_cons. split; [constructor | exact D].
  - cbn [insert_by_score]. apply Forall_cons in N. destruct N as [Ny N].
    apply descending_cons in D. destruct D as [F D].
    destruct (num_lt (d_priority_score x) (d_priority_score y)) eqn:L.
    + apply descending_cons. split; [|exact (IH N D)].
      rewrite (insert_by_score_perm x l). constructor; [|exact F].
      apply num_lt_asym, L.
    + apply descending_cons. split.
      * constructor; [exact L|].
        eapply Forall_impl; [exact F|]. cbn. intros b Hb.
        exact (num_ge_trans _ _ _ Ny L Hb).
      * apply descending_cons. split; assumption.
Qed.

Lemma sort_by_score_descending l :
  Forall (fun y => num_real (d_priority_score y) <> FNan) l ->
  descending (sort_by_score l).
Proof.
  induction l as [|x l IH]; intros N.
  - intros j k a b _ H. discriminate H.
  - apply Forall_cons in N. destruct N as [_ N].
    cbn [sort_by_score foldr]. fold (sort_by_score l).
    apply insert_by_score_descending; [|exact (IH N)].
    rewrite (sort_by_score_perm l). exact N.
Qed.

Lemma insert_by_score_stable z x l :
  num_real (d_priority_score z) <> FNan ->
  num_real (d_priority_score x) <> FNan ->
  List.filter (same_score z) (insert_by_score x l)
  = List.filter (same_score z) (x :: l).
Proof.
  intros Nz Nx. induction l as [|y l IH]; [reflexivity|].
  cbn [insert_by_score].
  destruct (num_lt (d_priority_score x) (d_priority_score y)) eqn:L; [|reflexivity].
  cbn [List.filter] in *. rewrite IH.
  destruct (same_score z x) eqn:Sx; [|reflexivity].
  assert (Sy : same_score z y = false).
  { unfold same_score in *. apply andb_true_iff in Sx. destruct Sx as [S1 S2].
    apply negb_true_iff in S1, S2.
    rewrite (num_lt_same _ _ _ Nz Nx S1 S2 L). reflexivity. }
  rewrite Sy. reflexivity.
Qed.

Lemma sort_by_score_stable z l :
  num_real (d_priority_score z) <> FNan ->
  Forall (fun y => num_real (d_priority_score y) <> FNan) l ->
  List.filter (same_score z) (sort_by_score l) = List.filter (same_score z) l.
Proof.
  intros Nz. induction l as [|x l IH]; intros N; [reflexivity|].
  apply Forall_cons in N. destruct N as [Nx N].
  cbn [sort_by_score foldr]. fold (sort_by_score l).
  rewrite (insert_by_score_stable z x _ Nz Nx). cbn [List.filter].
  rewrite (IH N). reflexivity.
Qed.

Lemma same_score_refl x :
  num_real (d_priority_score x) <> FNan -> same_score x x = true.
Proof.
  intros N. unfold same_score.
  destruct (num_lt (d_priority_score x) (d_priority_score x)) eqn:L; [|reflexivity].
  pose proof (num_lt_asym _ _ L). congruence.
Qed.

(** Two rankings of the same entries are the same list: a list is
    determined by its entries, the decreasing order of the scores and the
    order of the entries that have the same score. *)
Lemma ranking_unique l1 l2 :
  Forall (fun y => num_real (d_priority_score y) <> FNan) l1 ->
  l1 ≡ₚ l2 -> descending l1 -> descending l2 ->
  (forall x, x ∈ l1 -> List.filter (same_score x) l1 = List.filter (same_score x) l2) ->
  l1 = l2.
Proof.
  revert l2. induction l1 as [|a t1 IH]; intros l2 N P D1 D2 S.
  - apply Permutation_nil_l in P. congruence.
  - destruct l2 as [|b t2]; [apply Permutation_nil_r in P; discriminate|].
    apply Forall_cons in N. destruct N as [Na N].
    apply descending_cons in D1, D2. destruct D1 as [F1 D1], D2 as [F2 D2].
    assert (Ia : a ∈ b :: t2) by (rewrite <- P; apply elem_of_cons; left; reflexivity).
    assert (Ib : b ∈ a :: t1) by (rewrite P; apply elem_of_cons; left; reflexivity).
    assert (E : same_score a b = true).
    { unfold same_score. apply andb_true_iff. split; apply negb_true_iff.
      - apply elem_of_cons in Ib. destruct Ib as [->|Ib].
        + destruct (num_lt (d_priority_score a) (d_priority_score a)) eqn:L; [|reflexivity].
          pose proof (num_lt_asym _ _ L). congruence.
        + rewrite Forall_forall in F1. exact (F1 b Ib).
      - apply elem_of_cons in Ia. destruct Ia as [->|Ia].
        + destruct (num_lt (d_priority_score b) (d_priority_score b)) eqn:L; [|reflexivity].
          pose proof (num_lt_asym _ _ L). congruence.
        + rewrite Forall_forall in F2. exact (F2 a Ia). }
    assert (H : a ∈ a :: t1) by (apply elem_of_cons; left; reflexivity).
    apply S in H. cbn [List.filter] in H.
    rewrite (same_score_refl a Na), E in H. injection H as <- _.
    f_equal. apply IH; try assumption.
    + exact (Permutation_cons_inv P).
    + intros x Hx. assert (K : x ∈ a :: t1) by (apply elem_of_cons; right; exact Hx).
      apply S in K.
      cbn [List.filter] in K. destruct (same_score x a); [injection K as K|]; exact K.
Qed.

Section Ranking.

Variable py_float : string -> string + pyfloat.

(** A score is never a NaN. *)
Lemma total_not_nan now i model :
  num_real (total (fst (get_priority_score py_float now i model))) <> FNan.
Proof.
  rewrite get_priority_score_eq. cbn [fst total].
  apply (num_add_not_nan _ _ 0 50); try (cbn; lia).
  - rewrite engagement_score_eq.
    apply (num_add_not_nan _ _ 0 50); try (cbn; lia).
    + unfold py_min, int_truediv. destruct (num_lt _ _); cbn [num_real]; [discriminate|].
      apply float_of_Q_not_nan.
    + rewrite <- engagement_score_eq. apply engagement_score_between.
  - destruct model; [apply contextual_score_between | apply num_between_f0].
Qed.

Lemma prioritize_entries w k issues :
  (fun e => (d_number e, d_title e)) <$> fst (prioritize py_float w k issues)
  = (fun i => (number i, title i)) <$> List.filter (fun i => negb (skipped i)) issues.
Proof.
  revert k. induction issues as [|i rest IH]; intros k; [reflexivity|].
  cbn [prioritize List.filter]. unfold skipped at 1.
  destruct (contains "Issue Summary Report" (title i)); cbn [negb]; [apply IH|].
  cbn [fst fmap list_fmap]. fold (@fmap list _). rewrite IH. reflexivity.
Qed.

Lemma prioritize_not_nan w k issues :
  Forall (fun y => num_real (d_priority_score y) <> FNan) (fst (prioritize py_float w k issues)).
Proof.
  revert k. induction issues as [|i rest IH]; intros k; [constructor|].
  cbn [prioritize]. destruct (contains "Issue Summary Report" (title i)); [apply IH|].
  cbn [fst]. constructor; [|apply IH]. apply total_not_nan.
Qed.

(** X13. The entries of the report are those of the fetched issues whose
    title does not contain "Issue Summary Report", one entry for each of
    them whatever the language model answers, ranked by score: no entry has
    a lower score than an entry after it, and entries with the same score
    keep the order of the listing.  The ranking is the only list of these
    entries with the two properties, so it is the list that a stable sort
    on the score, highest first, returns. *)
Theorem report_is_ranked_by_score w issues :
  let processed := fst (prioritize py_float w 0 issues) in
  let ranked := sort_by_score processed in
  (fun e => (d_number e, d_title e)) <$> processed
  = (fun i => (number i, title i)) <$> List.filter (fun i => negb (skipped i)) issues /\
  ranked ≡ₚ processed /\
  descending ranked /\
  (forall x, x ∈ processed ->
     List.filter (same_score x) ranked = List.filter (same_score x) processed) /\
  (forall other,
     other ≡ₚ processed -> descending other ->
     (forall x, x ∈ processed ->
        List.filter (same_score x) other = List.filter (same_score x) processed) ->
     other = ranked).
Proof.
  cbv zeta. pose proof (prioritize_not_nan w 0 issues) as N.
  assert (S : forall x, x ∈ fst (prioritize py_float w 0 issues) ->
            List.filter (same_score x) (sort_by_score (fst (prioritize py_float w 0 issues)))
            = List.filter (same_score x) (fst (prioritize py_float w 0 issues))).
  { intros x Hx. apply sort_by_score_stable; [|exact N].
    rewrite Forall_forall in N. exact (N x Hx). }
  split; [apply prioritize_entries|]. split; [apply sort_by_score_perm|].
  split; [apply sort_by_score_descending, N|]. split; [exact S|].
  intros other P D K. symmetry. apply ranking_unique.
  - rewrite (sort_by_score_perm _). exact N.
  - rewrite (sort_by_score_perm _). symmetry. exact P.
  - apply sort_by_score_descending, N.
  - exact D.
  - intros x Hx. rewrite (sort_by_score_perm _) in Hx.
    rewrite (S x Hx), (K x Hx). reflexivity.
Qed.

End Ranking.

(** *** The run *)

Section Main.

Variable py_float : string -> string + pyfloat.
Variable strftime : datetime -> string.

(** The writes of [create_or_update_summary_issue], by its outcome. *)
Lemma posting_writes environ hub repo_name summary_content :
  let posted := create_or_update_summary_issue environ hub repo_name summary_content in
  length (fst posted) <= 1 /\
  (forall request, request ∈ fst posted -> body_of request = summary_content) /\
  (forall lines, snd posted = inr lines -> length (fst posted) = 1).
Proof.
  cbv zeta. unfold create_or_update_summary_issue.
  destruct (get_github_client environ) as [e|token]; cbn [fst snd].
  { split; [cbn; lia|]. split; [|discriminate].
    intros request H. apply elem_of_nil in H. contradiction. }
  destruct (existing_issue (get_issues hub token repo_name)) as [e|[x|]]; cbn [fst snd].
  - split; [cbn; lia|]. split; [|discriminate].
    intros request H. apply elem_of_nil in H. contradiction.
  - split; [cbn; lia|]. split; [|reflexivity].
    intros request H. apply list_elem_of_singleton in H. subst request. reflexivity.
  - split; [cbn; lia|]. split; [|reflexivity].
    intros request H. apply list_elem_of_singleton in H. subst request. reflexivity.
Qed.

(** The run from the name of the repository on. *)
Lemma main_with_repository w repo_name :
  environ w !! "GITHUB_REPOSITORY" = Some repo_name -> repo_name <> "" ->
  main py_float strftime w =
  let '(printed, errors, sent, raised) := attempt py_float strftime w repo_name in
  let printed := ("Fetching issues from " +:+ repo_name +:+ "...") :: printed in
  match raised with
  | Some e =>
      {| stdout := printed; stderr := errors ++ ["Error: " +:+ e];
         requests := sent; exit_status := 1 |}
  | None => {| stdout := printed; stderr := errors; requests := sent; exit_status := 0 |}
  end.
Proof.
  intros E N. unfold main. rewrite E.
  assert (T : str_truthy repo_name = true) by (destruct repo_name; [contradiction | reflexivity]).
  cbn [truthy]. rewrite T. cbn [negb andb truthy]. rewrite T. reflexivity.
Qed.

(** The issues that [fetch_open_issues] returns. *)
Lemma fetch_open_issues_listing environ hub repo_name token :
  get_github_client environ = inr token ->
  broken (get_issues hub token repo_name) = None ->
  fetch_open_issues environ hub repo_name
  = inr (the_issue <$> List.filter (fun x => negb (pull_request x))
                         (elements (get_issues hub token repo_name))).
Proof.
  intros T B. unfold fetch_open_issues. rewrite T. cbn [exc_bind]. rewrite B. reflexivity.
Qed.

Lemma attempt_with_issues w repo_name issues :
  fetch_open_issues (environ w) (at_fetch w) repo_name = inr issues -> issues <> [] ->
  attempt py_float strftime w repo_name = summarize_all py_float strftime w repo_name issues.
Proof.
  intros F I. unfold attempt. rewrite F. destruct issues; [contradiction | reflexivity].
Qed.

Lemma attempt_writes w repo_name :
  let '(printed, errors, sent, raised) := attempt py_float strftime w repo_name in
  length sent <= 1 /\ (raised = None -> length sent = 1).
Proof.
  unfold attempt.
  destruct (fetch_open_issues (environ w) (at_fetch w) repo_name) as [e|[|i issues]].
  - split; [cbn; lia | discriminate].
  - destruct (posting_writes (environ w) (at_post w) repo_name
                (no_issues_report (strftime (report_clock w 0%nat)) repo_name)) as (L & _ & S).
    cbv zeta in L, S.
    destruct (snd (create_or_update_summary_issue _ _ _ _)) as [e|lines] eqn:P.
    + split; [exact L | discriminate].
    + split; [exact L|]. intros _. exact (S lines eq_refl).
  - unfold summarize_all.
    destruct (get_openai_client (environ w)) as [e|key].
    { split; [cbn; lia | discriminate]. }
    match goal with
    | |- context [create_or_update_summary_issue ?a ?b ?c ?d] =>
        destruct (posting_writes a b c d) as (L & _ & S);
        cbv zeta in L, S;
        destruct (snd (create_or_update_summary_issue a b c d)) as [e|lines] eqn:P
    end.
    + split; [exact L | discriminate].
    + split; [exact L|]. intros _. exact (S lines eq_refl).
Qed.

(** X14. A run of [main] ends with the exit status 0 or 1 and sends at
    most one write to the platform. It ends with 0 only after one write was
    sent; when it ends with 1, the last line on [sys.stderr] starts with
    "Error: ". *)
Theorem main_sends_at_most_one_write w :
  let r := main py_float strftime w in
  (exit_status r = 0 \/ exit_status r = 1)%Z /\
  length (requests r) <= 1 /\
  (exit_status r = 0%Z -> length (requests r) = 1) /\
  (exit_status r = 1%Z -> exists lines e, stderr r = lines ++ ["Error: " +:+ e]).
Proof.
  cbv zeta. unfold main.
  set (repo_name := if _ && _ then _ else _).
  destruct (negb (truthy repo_name)).
  { cbn. split; [right; reflexivity|]. split; [lia|]. split; [discriminate|].
    intros _. exists [], "Repository name not provided. Set GITHUB_REPOSITORY env var or pass as argument.".
    reflexivity. }
  pose proof (attempt_writes w (default "" repo_name)) as A.
  destruct (attempt py_float strftime w (default "" repo_name)) as [[[printed errors] sent] [e|]];
    destruct A as [L S]; cbn [exit_status requests stderr].
  - split; [right; reflexivity|]. split; [exact L|]. split; [discriminate|].
    intros _. exists errors, e. reflexivity.
  - split; [left; reflexivity|]. split; [exact L|]. split; [intros _; exact (S eq_refl)|].
    discriminate.
Qed.

(** X15. When every open element of the listing is a pull request, the run
    posts the report of a repository with no open issue, and ends with the
    status of that posting: the key of the language model is not read. *)
Theorem pull_requests_alone_give_the_empty_report w repo_name token :
  environ w !! "GITHUB_REPOSITORY" = Some repo_name -> repo_name <> "" ->
  get_github_client (environ w) = inr token ->
  broken (get_issues (at_fetch w) token repo_name) = None ->
  Forall (fun x => pull_request x = true) (elements (get_issues (at_fetch w) token repo_name)) ->
  let report := no_issues_report (strftime (report_clock w 0%nat)) repo_name in
  let posted := create_or_update_summary_issue (environ w) (at_post w) repo_name report in
  let r := main py_float strftime w in
  requests r = fst posted /\
  (forall request, request ∈ requests r -> body_of request = report) /\
  match snd posted with
  | inr lines =>
      stdout r = ["Fetching issues from " +:+ repo_name +:+ "..."; "No open issues found."]
                   ++ lines /\
      stderr r = [] /\ exit_status r = 0%Z
  | inl e =>
      stdout r = ["Fetching issues from " +:+ repo_name +:+ "..."; "No open issues found."] /\
      stderr r = ["Error: " +:+ e] /\ exit_status r = 1%Z
  end.
Proof.
  intros E N T B P report posted r.
  assert (F : fetch_open_issues (environ w) (at_fetch w) repo_name = inr []).
  { rewrite (fetch_open_issues_listing _ _ _ _ T B). f_equal.
    induction P as [|x l Hx _ IH]; [reflexivity|].
    cbn [List.filter]. rewrite Hx. exact IH. }
  assert (R : r = match snd posted with
                  | inr lines =>
                      {| stdout := ["Fetching issues from " +:+ repo_name +:+ "...";
                                    "No open issues found."] ++ lines;
                         stderr := []; requests := fst posted; exit_status := 0 |}
                  | inl e =>
                      {| stdout := ["Fetching issues from " +:+ repo_name +:+ "...";
                                    "No open issues found."];
                         stderr := ["Error: " +:+ e]; requests := fst posted;
                         exit_status := 1 |}
                  end).
  { subst r. rewrite (main_with_repository w repo_name E N). unfold attempt. rewrite F.
    fold report. fold posted. destruct (snd posted); reflexivity. }
  destruct (posting_writes (environ w) (at_post w) repo_name report) as (_ & W & _).
  cbv zeta in W. fold posted in W.
  rewrite R. destruct (snd posted); cbn [requests stdout stderr exit_status]; auto.
Qed.

(** X16. When an open element of the listing is no pull request, the run
    needs the key of the language model: with [OPENAI_API_KEY] unset or
    empty it prints the number of issues found, writes the error to
    [sys.stderr], sends no write to the platform and ends with status 1,
    even if every issue found would be left out of the report. *)
Theorem language_model_key_is_required w repo_name token :
  environ w !! "GITHUB_REPOSITORY" = Some repo_name -> repo_name <> "" ->
  get_github_client (environ w) = inr token ->
  broken (get_issues (at_fetch w) token repo_name) = None ->
  let issues := List.filter (fun x => negb (pull_request x))
                  (elements (get_issues (at_fetch w) token repo_name)) in
  issues <> [] ->
  truthy (environ w !! "OPENAI_API_KEY") = false ->
  main py_float strftime w =
  {| stdout := ["Fetching issues from " +:+ repo_name +:+ "...";
                "Found " +:+ pretty (length issues) +:+ " open issues. Analyzing..."];
     stderr := ["Error: OPENAI_API_KEY environment variable is required"];
     requests := []; exit_status := 1 |}.
Proof.
  intros E N T B issues I K.
  rewrite (main_with_repository w repo_name E N).
  rewrite (attempt_with_issues w repo_name (the_issue <$> issues)
             (fetch_open_issues_listing _ _ _ _ T B))
    by (destruct issues; [contradiction | discriminate]).
  unfold summarize_all, get_openai_client, required. rewrite length_fmap.
  destruct (environ w !! "OPENAI_API_KEY") as [key|]; [|reflexivity].
  cbn [truthy] in K. rewrite K. reflexivity.
Qed.

(** X17. When the only open issues are issues that the loop leaves out (as
    the issue that holds the report), the run does not post the report of a
    repository with no open issue: it asks for the key of the language
    model, and posts the report of an empty ranking, whose recommendation
    is the fixed sentence, after printing the number of issues found. *)
Theorem skipped_issues_give_an_empty_ranking w repo_name token key :
  environ w !! "GITHUB_REPOSITORY" = Some repo_name -> repo_name <> "" ->
  get_github_client (environ w) = inr token ->
  get_openai_client (environ w) = inr key ->
  broken (get_issues (at_fetch w) token repo_name) = None ->
  let issues := the_issue <$> List.filter (fun x => negb (pull_request x))
                                (elements (get_issues (at_fetch w) token repo_name)) in
  issues <> [] ->
  Forall (fun i => skipped i = true) issues ->
  let report := format_issue_summary strftime (report_clock w) []
                  "No open issues to prioritize." repo_name in
  let posted := create_or_update_summary_issue (environ w) (at_post w) repo_name report in
  let r := main py_float strftime w in
  let found := "Found " +:+ pretty (length issues) +:+ " open issues. Analyzing..." in
  requests r = fst posted /\
  (forall request, request ∈ requests r -> body_of request = report) /\
  match snd posted with
  | inr lines =>
      stdout r = ["Fetching issues from " +:+ repo_name +:+ "..."; found] ++ lines
                   ++ ["Issue summary completed successfully!"] /\
      stderr r = [] /\ exit_status r = 0%Z
  | inl e =>
      stdout r = ["Fetching issues from " +:+ repo_name +:+ "..."; found] /\
      stderr r = ["Error: " +:+ e] /\ exit_status r = 1%Z
  end.
Proof.
  intros E N T K B issues I S report posted r found.
  assert (P : forall k, prioritize py_float w k issues = ([], [])).
  { clear I. induction S as [|i l Hi _ IH]; intros k; [reflexivity|].
    cbn [prioritize]. unfold skipped in Hi. rewrite Hi. apply IH. }
  assert (R : r = match snd posted with
                  | inr lines =>
                      {| stdout := ["Fetching issues from " +:+ repo_name +:+ "..."; found]
                                     ++ lines ++ ["Issue summary completed successfully!"];
                         stderr := []; requests := fst posted; exit_status := 0 |}
                  | inl e =>
                      {| stdout := ["Fetching issues from " +:+ repo_name +:+ "..."; found];
                         stderr := ["Error: " +:+ e]; requests := fst posted;
                         exit_status := 1 |}
                  end).
  { subst r. rewrite (main_with_repository w repo_name E N).
    rewrite (attempt_with_issues w repo_name issues
               (fetch_open_issues_listing _ _ _ _ T B) I).
    unfold summarize_all. rewrite K, P.
    cbn [fst snd sort_by_score foldr generate_priority_recommendation app].
    fold report. fold posted. fold found. destruct (snd posted); reflexivity. }
  destruct (posting_writes (environ w) (at_post w) repo_name report) as (_ & W & _).
  cbv zeta in W. fold posted in W.
  rewrite R. destruct (snd posted); cbn [requests stdout stderr exit_status]; auto.
Qed.

Lemma required_insert environ key key' value :
  key <> key' -> required (<[ key' := value ]> environ) key = required environ key.
Proof. intros N. unfold required. rewrite lookup_insert_ne by congruence. reflexivity. Qed.

Lemma prioritize_same w w' k issues :
  model_at w = model_at w' -> score_clock w = score_clock w' ->
  prioritize py_float w k issues = prioritize py_float w' k issues.
Proof.
  intros M C. revert k. induction issues as [|i rest IH]; intros k; [reflexivity|].
  cbn [prioritize]. rewrite M, C, IH. reflexivity.
Qed.

(** The body of the [try] reads the two keys of the environment, the
    platform, the language model and the clock. *)
Lemma attempt_same w w' repo_name :
  required (environ w) "GITHUB_TOKEN" = required (environ w') "GITHUB_TOKEN" ->
  required (environ w) "OPENAI_API_KEY" = required (environ w') "OPENAI_API_KEY" ->
  at_fetch w = at_fetch w' -> at_post w = at_post w' ->
  model_at w = model_at w' -> recommender w = recommender w' ->
  score_clock w = score_clock w' -> report_clock w = report_clock w' ->
  attempt py_float strftime w repo_name = attempt py_float strftime w' repo_name.
Proof.
  intros G O F P M R S C.
  assert (Q : forall content,
             create_or_update_summary_issue (environ w) (at_post w) repo_name content
             = create_or_update_summary_issue (environ w') (at_post w') repo_name content).
  { intros content. unfold create_or_update_summary_issue, get_github_client.
    rewrite G, P. reflexivity. }
  unfold attempt. unfold fetch_open_issues, get_github_client. rewrite G, F.
  destruct (let! token := required (environ w') "GITHUB_TOKEN" in _) as [e|[|i issues]];
    [reflexivity | rewrite Q, C; reflexivity |].
  unfold summarize_all, get_openai_client.
  rewrite O, R, C, (prioritize_same w w' 0 _ M S).
  destruct (required (environ w') "OPENAI_API_KEY"); [reflexivity|].
  rewrite Q. reflexivity.
Qed.

(** X18. The name of the repository comes from the environment first: when
    [GITHUB_REPOSITORY] is set and not empty, the arguments of the command
    line play no part in the run; when it is unset or empty, the first
    argument is used as the variable would be; and with neither, the run
    ends with status 1 and one line on [sys.stderr], whatever the platform
    holds. *)
Theorem repository_name_comes_from_the_environment_first :
  (forall w arguments,
     truthy (environ w !! "GITHUB_REPOSITORY") = true ->
     main py_float strftime w = main py_float strftime (with_argv w arguments)) /\
  (forall w argument,
     truthy (environ w !! "GITHUB_REPOSITORY") = false ->
     argv w !! 1%nat = Some argument ->
     main py_float strftime w
     = main py_float strftime (with_variable (with_argv w []) "GITHUB_REPOSITORY" argument)) /\
  (forall w,
     truthy (environ w !! "GITHUB_REPOSITORY") = false ->
     truthy (argv w !! 1%nat) = false ->
     main py_float strftime w = no_repository).
Proof.
  split; [|split].
  - intros w arguments T. unfold main. cbn [environ with_argv]. rewrite T.
    cbn [negb andb]. rewrite T. cbn [negb].
    rewrite (attempt_same w (with_argv w arguments)) by reflexivity. reflexivity.
  - intros w argument T A. unfold main.
    cbn [environ with_argv with_variable argv]. rewrite lookup_insert_eq, T, A.
    assert (L : bool_decide (1 < length (argv w)) = true).
    { apply bool_decide_eq_true. apply lookup_lt_Some in A. exact A. }
    rewrite L. cbn [negb andb length]. rewrite bool_decide_false by lia.
    rewrite andb_false_r. cbn [truthy].
    destruct (str_truthy argument); [|reflexivity]. cbn [negb default]. unfold id.
    rewrite (attempt_same w (with_variable (with_argv w []) "GITHUB_REPOSITORY" argument));
      try reflexivity;
      cbn [environ with_variable with_argv]; rewrite required_insert by discriminate;
      reflexivity.
  - intros w T A. unfold main. rewrite T. cbn [negb andb].
    destruct (bool_decide (1 < length (argv w))).
    + rewrite A. reflexivity.
    + rewrite T. reflexivity.
Qed.

End Main.

(** *** Concrete runs *)

Example float_on_tokens :
  float_of_literal "45.5" = inr (float_of_Q (91 # 2)) /\
  float_of_literal "+45" = inr (float_of_Q 45) /\
  float_of_literal "1e1" = inr (float_of_Q 10) /\
  float_of_literal "-2.5E-1" = inr (float_of_Q (- (1 # 4))) /\
  float_of_literal "1_000" = inr (float_of_Q 1000) /\
  float_of_literal "1e400" = inr (FInf false) /\
  float_of_literal "Infinity" = inr (FInf false) /\
  float_of_literal "-inf" = inr (FInf true) /\
  float_of_literal "NaN" = inr FNan /\
  float_of_literal "High" = inl "could not convert string to float: 'High'" /\
  float_of_literal "1__0" = inl "could not convert string to float: '1__0'" /\
  float_of_literal "45%" = inl "could not convert string to float: '45%'".
Proof. repeat split; vm_compute; reflexivity. Qed.

Example score_60_days_20_comments :
  format_1f (total (fst (get_priority_score float_of_literal new_year_2025
                           (sample_issue 60 20 ["bug"; "urgent"]) None))) = "80.0".
Proof. vm_compute. reflexivity. Qed.

Example score_20_days :
  format_1f (total (fst (get_priority_score float_of_literal new_year_2025
                           (sample_issue 20 0 []) None))) = "10.0".
Proof. vm_compute. reflexivity. Qed.

Example score_200_days_17_comments :
  format_1f (total (fst (get_priority_score float_of_literal new_year_2025
                           (sample_issue 200 17 []) None))) = "100.0".
Proof. vm_compute. reflexivity. Qed.

Example score_with_analyzer :
  let r := get_priority_score float_of_literal new_year_2025 (sample_issue 3 1 [])
             (Some (fun _ _ => Returned " 45 (login is broken)")) in
  format_1f (total (fst r)) = "49.5" /\ snd r = [].
Proof. vm_compute. split; reflexivity. Qed.

Example score_with_failing_analyzer :
  let r := get_priority_score float_of_literal new_year_2025 (sample_issue 3 1 [])
             (Some (fun _ _ => Returned "High priority")) in
  format_1f (total (fst r)) = "4.5" /\
  snd r = ["Error analyzing contextual priority for issue #7: could not convert string to float: 'High'"].
Proof. vm_compute. split; reflexivity. Qed.

Example display_of_test_entry :
  priority_display (sample_entry (PFloat (FFin (1 # 2))))
  = "85.5 (5.0 Age, 10.0 Engagement, 0.5 Context analysis)" /\
  priority_display (sample_entry f0) = "85.5 (5.0 Age, 10.0 Engagement)".
Proof. vm_compute. split; reflexivity. Qed.

(** C1 at an issue opened 60 days ago with 20 comments. *)
Lemma total_is_age_plus_engagement_witness :
  valid_datetime new_year_2025 = true /\
  valid_datetime (created_at (sample_issue 60 20 [])) = true /\
  num_is (total (fst (get_priority_score float_of_literal new_year_2025
                        (sample_issue 60 20 []) None))) 80.
Proof.
  assert (V1 : valid_datetime new_year_2025 = true) by (vm_compute; reflexivity).
  assert (V2 : valid_datetime (created_at (sample_issue 60 20 [])) = true)
    by (vm_compute; reflexivity).
  split; [exact V1|]. split; [exact V2|].
  pose proof (total_is_age_plus_engagement float_of_literal new_year_2025
                (sample_issue 60 20 []) V1 V2) as T.
  cbv zeta in T. destruct T as (_ & T & _).
  apply T; vm_compute; reflexivity.
Defined.

(** C2 fails on an issue whose [created_at] is one second ahead of the
    clock: its age is -1 day, its age component -0.5, and so is its total. *)
Lemma future_issue_scores_below_zero :
  let now := new_year_2025 in
  let i := sample_issue 0 0 [] in
  let i := {| number := number i; title := title i; body := body i; labels := labels i;
              comments := 0; created_at := (now + 1000000)%Z; html_url := html_url i |} in
  let r := fst (get_priority_score float_of_literal now i None) in
  calculate_issue_age now (created_at i) = (-1)%Z /\
  (exists age, breakdown r !! "age" = Some age /\ num_is age (-1 # 2)
               /\ ~ num_between 0 50 age) /\
  num_is (total r) (-1 # 2) /\ ~ num_between 0 150 (total r).
Proof.
  cbv zeta. split; [vm_compute; reflexivity|]. split; [|split].
  - eexists. split; [vm_compute; reflexivity|]. split; [vm_compute; reflexivity|].
    vm_compute. intros [H _]. apply H. reflexivity.
  - vm_compute. reflexivity.
  - vm_compute. intros [H _]. apply H. reflexivity.
Qed.

(** The amended C2 at an issue opened 200 days ago with 30 comments and an
    analyzer that answers 45, and at the same issue opened three days
    ahead of the clock. *)
Lemma components_and_total_in_range_witness :
  let i := sample_issue 200 30 ["bug"] in
  let ahead := sample_issue (-3) 30 ["bug"] in
  let model : llm := fun _ _ => Returned "45" in
  let r := fst (get_priority_score float_of_literal new_year_2025 i (Some model)) in
  let r' := fst (get_priority_score float_of_literal new_year_2025 ahead (Some model)) in
  ((created_at i <= new_year_2025)%Z /\
   exists age engagement context,
     breakdown r = {[ "age" := age; "engagement" := engagement; "context" := context ]} /\
     total r = num_add (num_add age engagement) context /\
     num_between 0 50 age /\ num_between 0 50 engagement /\ num_between 0 50 context /\
     num_between 0 150 (total r)) /\
  ((new_year_2025 < created_at ahead)%Z /\
   exists age,
     breakdown r' !! "age" = Some age /\
     num_lt age (PInt 0) = true /\ num_is age (-3 # 2) /\
     num_lt (total r') (PInt 100) = true).
Proof.
  cbv zeta. split.
  - assert (H : (created_at (sample_issue 200 30 ["bug"]) <= new_year_2025)%Z)
      by (vm_compute; discriminate).
    split; [exact H|].
    destruct (components_and_total_in_range float_of_literal new_year_2025
                (sample_issue 200 30 ["bug"]) (Some (fun _ _ => Returned "45")))
      as (age & engagement & context & B & T & E & C & P & _).
    destruct (P H) as [A R].
    exists age, engagement, context.
    exact (conj B (conj T (conj A (conj E (conj C R))))).
  - assert (H : (new_year_2025 < created_at (sample_issue (-3) 30 ["bug"]))%Z)
      by (vm_compute; reflexivity).
    split; [exact H|].
    destruct (components_and_total_in_range float_of_literal new_year_2025
                (sample_issue (-3) 30 ["bug"]) (Some (fun _ _ => Returned "45")))
      as (age & engagement & context & B & _ & _ & _ & _ & F).
    destruct (F H) as (N & _ & T & V).
    exists age.
    split; [exact (eq_trans (f_equal (fun m => m !! "age") B) (lookup_insert_eq _ _ _))|].
    split; [exact N|]. split; [|exact T].
    apply V; vm_compute; reflexivity.
Defined.

(** C3 at five analyzers: one that raises, one that answers a word, and
    three that answer a number: above the cap, below 0, and within the
    range. *)
Lemma context_component_is_guarded_witness :
  let i := sample_issue 3 1 [] in
  analyze_contextual_priority float_of_literal (fun _ _ => Raised "rate limit") i
  = (f0, ["Error analyzing contextual priority for issue #7: rate limit"]) /\
  analyze_contextual_priority float_of_literal (fun _ _ => Returned "High priority") i
  = (f0, ["Error analyzing contextual priority for issue #7: could not convert string to float: 'High'"]) /\
  (exists c, analyze_contextual_priority float_of_literal (fun _ _ => Returned " 75 ") i
             = (PFloat c, []) /\ num_is (PFloat c) 50) /\
  (exists c, analyze_contextual_priority float_of_literal (fun _ _ => Returned "-5 (stale)") i
             = (PFloat c, []) /\ num_is (PFloat c) 0) /\
  (exists c, analyze_contextual_priority float_of_literal (fun _ _ => Returned "30") i
             = (PFloat c, []) /\ num_is (PFloat c) 30).
Proof.
  cbv zeta.
  destruct (context_component_is_guarded float_of_literal) as (_ & B & C).
  split; [|split; [|split; [|split]]].
  - destruct (B new_year_2025 (sample_issue 3 1 []) (fun _ _ => Raised "rate limit")
                "rate limit") as (H & _); [left; reflexivity|].
    rewrite H. vm_compute. reflexivity.
  - destruct (B new_year_2025 (sample_issue 3 1 []) (fun _ _ => Returned "High priority")
                "could not convert string to float: 'High'") as (H & _).
    { right. exists "High priority". split; vm_compute; reflexivity. }
    rewrite H. vm_compute. reflexivity.
  - destruct (C new_year_2025 (sample_issue 3 1 []) (fun _ _ => Returned " 75 ")
                " 75 " "75" [] (FFin (b64_round 75)))
      as (c & Hc & Hv & _);
      [reflexivity | vm_compute; reflexivity | vm_compute; reflexivity |].
    exists c. split; [exact Hc|].
    eapply num_is_comp; [|exact Hv]. vm_compute. reflexivity.
  - destruct (C new_year_2025 (sample_issue 3 1 []) (fun _ _ => Returned "-5 (stale)")
                "-5 (stale)" "-5" ["(stale)"] (FFin (b64_round (-5))))
      as (c & Hc & Hv & _);
      [reflexivity | vm_compute; reflexivity | vm_compute; reflexivity |].
    exists c. split; [exact Hc|].
    eapply num_is_comp; [|exact Hv]. vm_compute. reflexivity.
  - destruct (C new_year_2025 (sample_issue 3 1 []) (fun _ _ => Returned "30")
                "30" "30" [] (FFin (b64_round 30)))
      as (c & Hc & Hv & _);
      [reflexivity | vm_compute; reflexivity | vm_compute; reflexivity |].
    exists c. split; [exact Hc|].
    eapply num_is_comp; [|exact Hv]. vm_compute. reflexivity.
Defined.

(** C6 fails across two days: the same issue scores 0.0 on the day it is
    opened and 1.0 two days later, and the same one-entry list is reported
    with another time and another age. *)
Lemma clock_changes_results :
  let i := sample_issue 0 0 [] in
  let later := (new_year_2025 + 2 * us_per_day)%Z in
  get_priority_score float_of_literal new_year_2025 i None
  <> get_priority_score float_of_literal later i None /\
  format_issue_summary seconds_stamp (fun _ => new_year_2025) [sample_entry f0] "r" "o/r"
  <> format_issue_summary seconds_stamp (fun _ => later) [sample_entry f0] "r" "o/r".
Proof.
  cbv zeta. split.
  - intros H. apply (f_equal (fun r => format_1f (total (fst r)))) in H.
    vm_compute in H. discriminate.
  - intros H. apply (f_equal (contains "**Age:** 10 days")) in H.
    vm_compute in H. discriminate.
Qed.


(** The amended C6 at two readings of one day, and at two clocks half a
    second apart. *)
Lemma results_depend_on_clock_by_days_witness :
  let i := sample_issue 10 3 [] in
  let morning := (new_year_2025 + 3600000000)%Z in
  let evening := (new_year_2025 + 72000000000)%Z in
  get_priority_score float_of_literal morning i None
  = get_priority_score float_of_literal evening i None /\
  format_issue_summary seconds_stamp (fun _ => morning) [sample_entry f0] "r" "o/r"
  = format_issue_summary seconds_stamp (fun k => (morning + 500000 + Z.of_nat k)%Z)
      [sample_entry f0] "r" "o/r".
Proof.
  cbv zeta.
  destruct (results_depend_on_clock_by_days float_of_literal seconds_stamp) as (A & B).
  split.
  - apply A. vm_compute. reflexivity.
  - apply B; [vm_compute; reflexivity|].
    intros k issue Hk. destruct k as [|k]; [|destruct k; discriminate Hk].
    injection Hk as <-. vm_compute. reflexivity.
Defined.

(** C7 at the label sets of the test suite. *)
Lemma labels_are_not_scored_witness :
  get_priority_score float_of_literal new_year_2025 (sample_issue 60 20 []) None
  = get_priority_score float_of_literal new_year_2025
      (sample_issue 60 20 ["bug"; "urgent"; "critical"]) None.
Proof. apply labels_are_not_scored; reflexivity. Defined.

(** C8 at a list of two entries, the second with a context component. *)
Lemma sections_follow_input_order_witness :
  let first := sample_entry f0 in
  let second := sample_entry (PFloat (FFin 12)) in
  let clock : nat -> datetime := fun _ => new_year_2025 in
  (exists rest1 rest2,
     format_issue_summary seconds_stamp clock [first; second] "r" "o/r"
     = report_header (seconds_stamp (clock 0%nat)) 2 "r" "o/r"
         +:+ "### 1. [Test Issue](https://github.com/test/repo/issues/42)" +:+ nl +:+ nl
         +:+ "**Issue #** 42  " +:+ nl
         +:+ "**Priority Score:** 85.5 (5.0 Age, 10.0 Engagement)" +:+ rest1
         +:+ "### 2. [Test Issue](https://github.com/test/repo/issues/42)" +:+ nl +:+ nl
         +:+ "**Issue #** 42  " +:+ nl
         +:+ "**Priority Score:** 85.5 (5.0 Age, 10.0 Engagement, 12.0 Context analysis)"
         +:+ rest2) /\
  contains "Context analysis" (priority_display second) = true /\
  contains "Context analysis" (priority_display first) = false.
Proof.
  cbv zeta. destruct (sections_follow_input_order seconds_stamp) as (A & _ & B).
  split; [|split].
  - destruct (A (fun _ => new_year_2025) [sample_entry f0; sample_entry (PFloat (FFin 12))]
                "r" "o/r") as (rests & L & E).
    destruct rests as [|rest1 [|rest2 [|]]]; try discriminate L.
    exists rest1, rest2. rewrite E. f_equal.
    cbn [laid_out]. rewrite str_app_nil_r.
    change (section_start 1 (sample_entry f0))
      with ("### 1. [Test Issue](https://github.com/test/repo/issues/42)" +:+ nl +:+ nl
              +:+ "**Issue #** 42  " +:+ nl +:+ "**Priority Score:** ").
    change (section_start 2 (sample_entry (PFloat (FFin 12))))
      with ("### 2. [Test Issue](https://github.com/test/repo/issues/42)" +:+ nl +:+ nl
              +:+ "**Issue #** 42  " +:+ nl +:+ "**Priority Score:** ").
    replace (priority_display (sample_entry f0))
      with "85.5 (5.0 Age, 10.0 Engagement)" by (vm_compute; reflexivity).
    replace (priority_display (sample_entry (PFloat (FFin 12))))
      with "85.5 (5.0 Age, 10.0 Engagement, 12.0 Context analysis)"
      by (vm_compute; reflexivity).
    rewrite !str_app_assoc. reflexivity.
  - destruct (B (sample_entry (PFloat (FFin 12)))) as ((_ & H) & _).
    apply H. vm_compute. reflexivity.
  - destruct (B (sample_entry f0)) as ((H & _) & _).
    destruct (contains "Context analysis" (priority_display (sample_entry f0)));
      [|reflexivity].
    specialize (H eq_refl). vm_compute in H. discriminate H.
Defined.

(** *** Concrete runs of the bot *)

(** A platform that lists [items] and accepts every write. *)
Definition sample_hub (items : list listed) : github :=
  {| get_issues := fun _ _ => {| elements := items; broken := None |};
     edit := fun target _ => inr (html_url (the_issue target));
     create_issue := fun repo_name _ _ _ =>
       inr ("https://github.com/" +:+ repo_name +:+ "/issues/8") |}.

(** A language model that rates every issue 30, summarises it by its
    title, and fails on the reading materials. *)
Definition sample_chat : chat :=
  {| priority_chain := fun _ _ => Returned "30";
     summary_chain := fun title _ _ => Returned ("  About: " +:+ title +:+ nl);
     reading_chain := fun _ _ _ => Raised "timeout";
     recommendation_chain := fun _ => Returned "Start with the oldest issue." |}.

(** The run on 2025-01-01 in the repository "o/r", with the variables
    [variables] in its environment. *)
Definition sample_world (variables : list (string * string)) (items : list listed) : world :=
  {| environ := list_to_map variables; argv := ["issue_summary_bot.py"];
     at_fetch := sample_hub items; at_post := sample_hub items;
     model_at := fun _ => sample_chat; recommender := sample_chat;
     score_clock := fun _ => new_year_2025; report_clock := fun _ => new_year_2025 |}.

(** An issue of the listing, a pull request, and the issue that holds the
    report. *)
Definition listed_issue (age : Z) (c : N) : listed :=
  {| the_issue := sample_issue age c []; pull_request := false |}.

Definition listed_pull_request : listed :=
  {| the_issue := sample_issue 1 0 []; pull_request := true |}.

Definition listed_report : listed :=
  {| the_issue :=
       {| number := 8; title := summary_title; body := Some "# Issue Summary Report";
          labels := ["bot"; "summary"]; comments := 0; created_at := last_days 2;
          html_url := "https://github.com/o/r/issues/8" |};
     pull_request := false |}.

Example run_on_two_issues :
  let w := sample_world [("GITHUB_REPOSITORY", "o/r"); ("GITHUB_TOKEN", "t");
                         ("OPENAI_API_KEY", "k")]
             [listed_issue 10 1; listed_pull_request; listed_report; listed_issue 40 0] in
  let r := main float_of_literal seconds_stamp w in
  exit_status r = 0%Z /\
  stdout r = ["Fetching issues from o/r..."; "Found 3 open issues. Analyzing...";
              "Updated existing summary issue: https://github.com/o/r/issues/8";
              "Issue summary completed successfully!"] /\
  stderr r = ["Error generating reading materials for issue #7: timeout";
              "Error generating reading materials for issue #7: timeout"] /\
  (exists body, requests r = [Edit listed_report body] /\
     contains "Total Open Issues:** 2" body = true /\
     contains "**Priority Score:** 50.0 (20.0 Age, 0.0 Engagement, 30.0 Context analysis)"
       body = true /\
     contains "**Summary:** About: Login fails" body = true).
Proof.
  cbv zeta. split; [vm_compute; reflexivity|]. split; [vm_compute; reflexivity|].
  split; [vm_compute; reflexivity|].
  eexists. split; [vm_compute; reflexivity|]. repeat split; vm_compute; reflexivity.
Qed.

(** X6 at an issue opened 10 days ago with 2 comments and one opened 30
    days ago with 5 comments. *)
Lemma score_grows_with_age_and_comments_witness :
  num_le (total (fst (get_priority_score float_of_literal new_year_2025
                        (sample_issue 10 2 []) None)))
         (total (fst (get_priority_score float_of_literal new_year_2025
                        (sample_issue 30 5 ["bug"]) None))).
Proof.
  assert (V : valid_datetime new_year_2025 = true) by (vm_compute; reflexivity).
  assert (W1 : valid_datetime (created_at (sample_issue 10 2 [])) = true)
    by (vm_compute; reflexivity).
  assert (W2 : valid_datetime (created_at (sample_issue 30 5 ["bug"])) = true)
    by (vm_compute; reflexivity).
  assert (A : (new_year_2025 - created_at (sample_issue 10 2 [])
               <= new_year_2025 - created_at (sample_issue 30 5 ["bug"]))%Z)
    by (vm_compute; discriminate).
  assert (C : (comments (sample_issue 10 2 []) <= comments (sample_issue 30 5 ["bug"]))%N)
    by (vm_compute; discriminate).
  exact (score_grows_with_age_and_comments float_of_literal new_year_2025 new_year_2025
           (sample_issue 10 2 []) (sample_issue 30 5 ["bug"]) V V W1 W2 A C).
Defined.

(** X7 at an issue opened 20 days ago with 3 comments and an analyzer that
    answers 45. *)
Lemma analyzer_adds_between_0_and_50_witness :
  exists base : Q,
    num_is (total (fst (get_priority_score float_of_literal new_year_2025
                          (sample_issue 20 3 []) None))) base /\
    num_between base (base + 50)
      (total (fst (get_priority_score float_of_literal new_year_2025
                     (sample_issue 20 3 []) (Some (fun _ _ => Returned "45"))))).
Proof.
  assert (V : valid_datetime new_year_2025 = true) by (vm_compute; reflexivity).
  assert (W : valid_datetime (created_at (sample_issue 20 3 [])) = true)
    by (vm_compute; reflexivity).
  exact (analyzer_adds_between_0_and_50 float_of_literal new_year_2025
           (sample_issue 20 3 []) (fun _ _ => Returned "45") V W).
Defined.

(** X15 at a repository whose open elements are two pull requests. *)
Lemma pull_requests_alone_give_the_empty_report_witness :
  let w := sample_world [("GITHUB_REPOSITORY", "o/r"); ("GITHUB_TOKEN", "t")]
             [listed_pull_request; listed_pull_request] in
  let report := no_issues_report (seconds_stamp (report_clock w 0%nat)) "o/r" in
  let posted := create_or_update_summary_issue (environ w) (at_post w) "o/r" report in
  let r := main float_of_literal seconds_stamp w in
  requests r = fst posted /\
  (forall request, request ∈ requests r -> body_of request = report) /\
  match snd posted with
  | inr lines =>
      stdout r = ["Fetching issues from " +:+ "o/r" +:+ "..."; "No open issues found."]
                   ++ lines /\
      stderr r = [] /\ exit_status r = 0%Z
  | inl e =>
      stdout r = ["Fetching issues from " +:+ "o/r" +:+ "..."; "No open issues found."] /\
      stderr r = ["Error: " +:+ e] /\ exit_status r = 1%Z
  end.
Proof.
  assert (P : Forall (fun x => pull_request x = true)
                [listed_pull_request; listed_pull_request])
    by (repeat constructor).
  exact (pull_requests_alone_give_the_empty_report float_of_literal seconds_stamp
           (sample_world [("GITHUB_REPOSITORY", "o/r"); ("GITHUB_TOKEN", "t")]
              [listed_pull_request; listed_pull_request])
           "o/r" "t" eq_refl ltac:(discriminate) eq_refl eq_refl P).
Defined.

(** X16 at a repository with one open issue and no key in the
    environment. *)
Lemma language_model_key_is_required_witness :
  main float_of_literal seconds_stamp
    (sample_world [("GITHUB_REPOSITORY", "o/r"); ("GITHUB_TOKEN", "t")]
       [listed_pull_request; listed_issue 10 1])
  = {| stdout := ["Fetching issues from " +:+ "o/r" +:+ "...";
                  "Found " +:+ pretty (length [listed_issue 10 1])
                    +:+ " open issues. Analyzing..."];
       stderr := ["Error: OPENAI_API_KEY environment variable is required"];
       requests := []; exit_status := 1 |}.
Proof.
  exact (language_model_key_is_required float_of_literal seconds_stamp
           (sample_world [("GITHUB_REPOSITORY", "o/r"); ("GITHUB_TOKEN", "t")]
              [listed_pull_request; listed_issue 10 1])
           "o/r" "t" eq_refl ltac:(discriminate) eq_refl eq_refl ltac:(discriminate) eq_refl).
Defined.

(** X17 at a repository whose only open issue is the issue of the report. *)
Lemma skipped_issues_give_an_empty_ranking_witness :
  let w := sample_world [("GITHUB_REPOSITORY", "o/r"); ("GITHUB_TOKEN", "t");
                         ("OPENAI_API_KEY", "k")] [listed_report] in
  let report := format_issue_summary seconds_stamp (report_clock w) []
                  "No open issues to prioritize." "o/r" in
  let posted := create_or_update_summary_issue (environ w) (at_post w) "o/r" report in
  let r := main float_of_literal seconds_stamp w in
  let found := "Found " +:+ pretty (length [the_issue listed_report])
                 +:+ " open issues. Analyzing..." in
  requests r = fst posted /\
  (forall request, request ∈ requests r -> body_of request = report) /\
  match snd posted with
  | inr lines =>
      stdout r = ["Fetching issues from " +:+ "o/r" +:+ "..."; found] ++ lines
                   ++ ["Issue summary completed successfully!"] /\
      stderr r = [] /\ exit_status r = 0%Z
  | inl e =>
      stdout r = ["Fetching issues from " +:+ "o/r" +:+ "..."; found] /\
      stderr r = ["Error: " +:+ e] /\ exit_status r = 1%Z
  end.
Proof.
  assert (S : Forall (fun i => skipped i = true) [the_issue listed_report])
    by (repeat constructor).
  exact (skipped_issues_give_an_empty_ranking float_of_literal seconds_stamp
           (sample_world [("GITHUB_REPOSITORY", "o/r"); ("GITHUB_TOKEN", "t");
                          ("OPENAI_API_KEY", "k")] [listed_report])
           "o/r" "t" "k" eq_refl ltac:(discriminate) eq_refl eq_refl eq_refl
           ltac:(discriminate) S).
Defined.

End IssueSummaryBot.

(** ** The kanban summary bot ([kanban_summary_bot.py]) *)

Module KanbanSummaryBot.
Import PyStr.

(** The value found under a key that holds a string in the JSON answer:
    the key may be missing, or hold [null]. *)
Inductive json_str :=
  | JAbsent
  | JNull
  | JStr (s : string).

(** [field_value['field']]: a dict whose [name] key may be missing. *)
Record field_ref := { f_name : option string }.

(** A node of [fieldValues]: a dict with the selected option's [name] and
    the [field] it belongs to; the empty dict has neither. *)
Record field_value := {
  fv_name : json_str;
  fv_field : option field_ref
}.

(** The content of an item when it is not empty. Only an issue has a
    [number]; [c_labels] holds the names of [labels.nodes]. *)
Record content := {
  c_number : option Z;
  c_title : string;
  c_url : string;
  c_state : string;
  c_labels : list string;
  c_createdAt : string;
  c_updatedAt : string
}.

(** An item of the project as the API lists it. [item_content] is [None]
    when the key is missing, [null] or the empty dict; a node of
    [item_fieldValues] is [None] when it is [null]. *)
Record raw_item := {
  item_content : option content;
  item_fieldValues : list (option field_value)
}.

(** The record kept for an issue in a column. *)
Record issue_data := {
  number : Z;
  title : string;
  url : string;
  state : string;
  labels : list string;
  created_at : string;
  updated_at : string
}.

(** [field_value.get('name', 'Backlog')]: a string, or [None] on [null]. *)
Definition selected_name (fv : field_value) : option string :=
  match fv_name fv with
  | JAbsent => Some "Backlog"
  | JNull => None
  | JStr s => Some s
  end.

(** [field_name.lower() in ['status', 'state']] *)
Definition status_like (field_name : string) : bool :=
  String.eqb (lower field_name) "status" || String.eqb (lower field_name) "state".

(** The loop over the field values, which stops at the first status-like
    field; ['Backlog'] is the value of [status] when it never stops. *)
Fixpoint resolve_status (nodes : list (option field_value)) : option string :=
  match nodes with
  | [] => Some "Backlog"
  | field_value :: rest =>
      match field_value with
      | Some fv =>
          match fv_field fv with
          | Some field =>
              let field_name := default "" (f_name field) in
              if status_like field_name then selected_name fv
              else resolve_status rest
          | None => resolve_status rest
          end
      | None => resolve_status rest
      end
  end.

(** The dict [columns] before the loop. *)
Definition initial_columns : gmap string (list issue_data) :=
  {[ "Backlog" := []; "Ready" := []; "In progress" := []; "In review" := [];
     "Done" := [] ]}.

(** [issue_data] of the loop body. *)
Definition record_of (c : content) (n : Z) : issue_data :=
  {| number := n; title := c_title c; url := c_url c; state := c_state c;
     labels := c_labels c; created_at := c_createdAt c; updated_at := c_updatedAt c |}.

(** One iteration of [for item in all_items]. *)
Definition bucket_step (columns : gmap string (list issue_data)) (item : raw_item)
  : gmap string (list issue_data) :=
  match item_content item with
  | None => columns
  | Some c =>
      let status := resolve_status (item_fieldValues item) in
      match c_number c with
      | None => columns
      | Some n =>
          match status with
          | Some s =>
              match columns !! s with
              | Some issues => <[ s := issues ++ [record_of c n] ]> columns
              | None => columns
              end
          | None => columns
          end
      end
  end.

(** The grouping of [get_project_items], from [all_items]. *)
Definition bucket_items (all_items : list raw_item) : gmap string (list issue_data) :=
  fold_left bucket_step all_items initial_columns.

(** One page of items. *)
Record page := {
  nodes : list raw_item;
  hasNextPage : bool;
  endCursor : option string
}.

(** What [execute_graphql_query] does with the item query: it raises, or
    returns the data, in which the items may be missing. *)
Inductive response :=
  | QueryFailed (msg : string)
  | Answer (items : option page).

(** The API: the answer to the variables [projectId] and [cursor]. *)
Definition graphql := string -> option string -> response.

(** The outcome of a run bounded by [fuel] queries. *)
Inductive outcome (A : Type) :=
  | Finished (a : A)
  | Failed (msg : string)
  | OutOfFuel.
Arguments Finished {A} a.
Arguments Failed {A} msg.
Arguments OutOfFuel {A}.

(** The loop [while has_next_page], entered with [has_next_page] true. *)
Fixpoint fetch_all (api : graphql) (project_id : string) (fuel : nat)
    (cursor : option string) (all_items : list raw_item) : outcome (list raw_item) :=
  match fuel with
  | O => OutOfFuel
  | S fuel' =>
      match api project_id cursor with
      | QueryFailed msg => Failed msg
      | Answer None => Finished all_items
      | Answer (Some items_data) =>
          let all_items := all_items ++ nodes items_data in
          if hasNextPage items_data
          then fetch_all api project_id fuel' (endCursor items_data) all_items
          else Finished all_items
      end
  end.

(** [get_project_items(project_id, board_name)] *)
Definition get_project_items (api : graphql) (fuel : nat) (project_id : string)
    (board_name : option string) : outcome (gmap string (list issue_data)) :=
  match fetch_all api project_id fuel None [] with
  | Finished all_items => Finished (bucket_items all_items)
  | Failed msg => Failed msg
  | OutOfFuel => OutOfFuel
  end.

(** [column_config], with the bytes of the source file. *)
Definition column_config : list (string * string) :=
  [ ("Backlog", "ðŸ“‹"); ("Ready", "âœ…"); ("In progress", "ðŸ”„");
    ("In review", "ðŸ‘€"); ("Done", "âœ”ï¸") ].

(** [sum(len(issues) for issues in columns.values())] *)
Definition total_issues (columns : gmap string (list issue_data)) : nat :=
  map_fold (fun _ issues acc => (length issues + acc)%nat) 0%nat columns.

(** The three lines of one issue. *)
Definition issue_lines (issue : issue_data) : string :=
  let labels_str :=
    match labels issue with
    | [] => "no labels"
    | _ => join ", " (labels issue)
    end in
  "- [#" +:+ pretty (number issue) +:+ ": " +:+ title issue +:+ "](" +:+ url issue +:+ ")"
    +:+ nl +:+
  "  - **Labels:** " +:+ labels_str +:+ nl +:+
  "  - **Status:** " +:+ state issue +:+ nl.

(** The part of the report for one entry of [column_config]. *)
Definition column_section (columns : gmap string (list issue_data))
    (entry : string * string) : string :=
  let '(column_name, emoji) := entry in
  let issues := default [] (columns !! column_name) in
  "## " +:+ emoji +:+ " " +:+ column_name +:+ " (" +:+ pretty (length issues) +:+ ")"
    +:+ nl +:+ nl +:+
  match issues with
  | [] => "*No issues in this column*" +:+ nl +:+ nl
  | _ => fold_left (fun report issue => report +:+ issue_lines issue) issues "" +:+ nl
  end.

Section Builtins.

(** [strftime('%Y-%m-%d %H:%M:%S UTC')] of an instant. *)
Variable strftime : Z -> string.

(** [format_kanban_summary(columns, project_name, board_name)], [now] being
    the clock reading. *)
Definition format_kanban_summary (now : Z) (columns : gmap string (list issue_data))
    (project_name board_name : string) : string :=
  let timestamp := strftime now in
  let report :=
    "# Kanban Board Summary" +:+ nl +:+
    nl +:+
    "**Project:** " +:+ project_name +:+ "  " +:+ nl +:+
    "**Board:** " +:+ board_name +:+ "  " +:+ nl +:+
    "**Generated:** " +:+ timestamp +:+ "  " +:+ nl +:+
    "**Total Issues:** " +:+ pretty (total_issues columns) +:+ nl +:+
    nl in
  let report :=
    fold_left (fun report entry => report +:+ column_section columns entry)
      column_config report in
  let report := report +:+ "---" +:+ nl +:+ nl in
  report +:+ "*This summary was automatically generated by the Kanban Summary Bot.*" +:+ nl.

End Builtins.

(** *** The bucketing, item by item *)

(** The names of the five columns. *)
Definition known_columns : list string :=
  ["Backlog"; "Ready"; "In progress"; "In review"; "Done"].

(** A field value whose field passes the test of the loop. *)
Definition is_status_field (node : option field_value) : bool :=
  match node with
  | Some fv =>
      match fv_field fv with
      | Some field => status_like (default "" (f_name field))
      | None => false
      end
  | None => false
  end.

(** The status that the loop resolves: the selected name of the first
    status field, "Backlog" when there is none. *)
Definition status_rule (item : raw_item) : option string :=
  match List.find is_status_field (item_fieldValues item) with
  | Some (Some fv) => selected_name fv
  | _ => Some "Backlog"
  end.

(** The column and the record of an item under the rule; [None] when the
    item belongs to no column: no content, no number, or a status that is
    not the name of a column. *)
Definition placement (item : raw_item) : option (string * issue_data) :=
  match item_content item with
  | Some c =>
      match c_number c, status_rule item with
      | Some n, Some s =>
          if bool_decide (s ∈ known_columns) then Some (s, record_of c n) else None
      | _, _ => None
      end
  | None => None
  end.

(** The records that the rule puts in column [name], in arrival order. *)
Definition column_rule (name : string) (items : list raw_item) : list issue_data :=
  omap (fun item =>
          match placement item with
          | Some (s, r) => if decide (s = name) then Some r else None
          | None => None
          end) items.

(** A dict with exactly the five columns as keys. *)
Definition five_columns (columns : gmap string (list issue_data)) : Prop :=
  forall name, is_Some (columns !! name) <-> name ∈ known_columns.

(** The sum of the counts that the report prints in the headings of its
    sections, one for each entry of [column_config]. *)
Definition shown_count (columns : gmap string (list issue_data)) : nat :=
  foldr (fun entry acc => (length (default [] (columns !! entry.1)) + acc)%nat) 0%nat
    column_config.

(** The lines of the issues of a column, one issue after the other. *)
Definition issues_lines (issues : list issue_data) : string :=
  foldr (fun issue rest => issue_lines issue +:+ rest) "" issues.

(** *** The bucketing rule, in the words of its statement *)

(** Two characters that are equal, or the capital and the small form of
    one of the letters A to Z. *)
Definition same_letter (c d : ascii) : bool :=
  let m := N_of_ascii c in
  let n := N_of_ascii d in
  ((m =? n) || (65 <=? m) && (m <=? 90) && (n =? m + 32)
            || (65 <=? n) && (n <=? 90) && (m =? n + 32))%N.

(** Two strings that are equal up to the case of their letters. *)
Fixpoint equal_ignoring_case (a b : string) : bool :=
  match a, b with
  | EmptyString, EmptyString => true
  | String c a', String d b' => same_letter c d && equal_ignoring_case a' b'
  | _, _ => false
  end.

(** A field value of a field whose name is "status" or "state" up to
    case. *)
Definition names_the_status (node : option field_value) : bool :=
  match node with
  | Some fv =>
      match fv_field fv with
      | Some field =>
          match f_name field with
          | Some name =>
              equal_ignoring_case name "status" || equal_ignoring_case name "state"
          | None => false
          end
      | None => false
      end
  | None => false
  end.

(** The status of an item: the selected name of the first field value of a
    status field, "Backlog" when the item has no such field value (and
    when that field value has no [name] key); there is no status when the
    selected name is [null]. *)
Definition stated_status (item : raw_item) : option string :=
  match List.find names_the_status (item_fieldValues item) with
  | Some (Some fv) =>
      match fv_name fv with
      | JStr choice => Some choice
      | JAbsent => Some "Backlog"
      | JNull => None
      end
  | _ => Some "Backlog"
  end.

(** The column of an item, with the record of its issue; an item with no
    content, with a content that has no number, or with a status that is
    not one of the five names has no column. *)
Definition stated_place (item : raw_item) : option (string * issue_data) :=
  match item_content item with
  | Some c =>
      match c_number c, stated_status item with
      | Some n, Some s =>
          if bool_decide (s ∈ ["Backlog"; "Ready"; "In progress"; "In review"; "Done"])
          then Some (s, {| number := n; title := c_title c; url := c_url c;
                           state := c_state c; labels := c_labels c;
                           created_at := c_createdAt c; updated_at := c_updatedAt c |})
          else None
      | _, _ => None
      end
  | None => None
  end.

(** The records of the items whose column is [name], in arrival order. *)
Definition stated_column (name : string) (items : list raw_item) : list issue_data :=
  omap (fun item =>
          match stated_place item with
          | Some (s, r) => if decide (s = name) then Some r else None
          | None => None
          end) items.

(** A string of small letters. *)
Definition small_letters (p : string) : bool :=
  all_chars (fun d => (97 <=? N_of_ascii d)%N && (N_of_ascii d <=? 122)%N) p.

(** *** Facts on the bucketing *)

Lemma resolve_status_rule item :
  resolve_status (item_fieldValues item) = status_rule item.
Proof.
  unfold status_rule. induction (item_fieldValues item) as [|node rest IH]; [reflexivity|].
  cbn [resolve_status List.find]. unfold is_status_field at 1.
  destruct node as [fv|]; [|exact IH].
  destruct (fv_field fv) as [field|]; [|exact IH].
  destruct (status_like (default "" (f_name field))); [reflexivity | exact IH].
Qed.

Lemma initial_columns_lookup name :
  initial_columns !! name = if bool_decide (name ∈ known_columns) then Some [] else None.
Proof.
  unfold initial_columns, known_columns. rewrite !lookup_insert, lookup_singleton.
  case_bool_decide as K.
  - repeat case_decide; try reflexivity. exfalso.
    rewrite !elem_of_cons, elem_of_nil in K. intuition congruence.
  - repeat case_decide; try reflexivity; exfalso; apply K; subst name;
      rewrite !elem_of_cons; auto 10.
Qed.

Lemma initial_columns_five : five_columns initial_columns.
Proof.
  intros name. rewrite initial_columns_lookup.
  case_bool_decide as K; split; intros H; try assumption; try contradiction.
  - eauto.
  - destruct H. discriminate.
Qed.

Lemma placement_known item s r :
  placement item = Some (s, r) -> s ∈ known_columns.
Proof.
  unfold placement. destruct (item_content item); [|discriminate].
  destruct (c_number _); [|discriminate]. destruct (status_rule item); [|discriminate].
  case_bool_decide; [|discriminate]. congruence.
Qed.

(** One iteration, by the rule. *)
Lemma bucket_step_rule columns item :
  five_columns columns ->
  bucket_step columns item =
  match placement item with
  | Some (s, r) => <[ s := default [] (columns !! s) ++ [r] ]> columns
  | None => columns
  end.
Proof.
  intros W. unfold bucket_step, placement. rewrite resolve_status_rule.
  destruct (item_content item) as [c|]; [|reflexivity].
  destruct (c_number c) as [n|]; [|reflexivity].
  destruct (status_rule item) as [s|]; [|reflexivity].
  case_bool_decide as K.
  - apply W in K. destruct K as [l K]. rewrite K. reflexivity.
  - destruct (columns !! s) as [l|] eqn:E; [|reflexivity].
    exfalso. apply K, W. eauto.
Qed.

Lemma bucket_step_five columns item :
  five_columns columns -> five_columns (bucket_step columns item).
Proof.
  intros W. rewrite (bucket_step_rule _ _ W).
  destruct (placement item) as [[s r]|] eqn:P; [|exact W].
  pose proof (placement_known _ _ _ P) as S.
  intros name. rewrite lookup_insert_is_Some. split.
  - intros [<-|[_ H]]; [exact S | apply W, H].
  - intros H. destruct (decide (s = name)); [auto|]. right. split; [assumption | apply W, H].
Qed.

Lemma bucket_fold_rule items columns name :
  five_columns columns ->
  fold_left bucket_step items columns !! name
  = (fun issues => issues ++ column_rule name items) <$> (columns !! name).
Proof.
  revert columns. induction items as [|item rest IH]; intros columns W.
  - cbn. destruct (columns !! name); cbn; [rewrite app_nil_r|]; reflexivity.
  - cbn [fold_left]. rewrite (IH _ (bucket_step_five _ _ W)).
    rewrite (bucket_step_rule _ _ W). unfold column_rule. cbn [omap list_omap].
    destruct (placement item) as [[s r]|] eqn:P; [|reflexivity].
    destruct (decide (s = name)) as [->|N].
    + rewrite lookup_insert_eq. destruct (columns !! name) as [l|] eqn:E; cbn.
      * rewrite <- app_assoc. reflexivity.
      * exfalso. pose proof (placement_known _ _ _ P) as S.
        apply W in S. rewrite E in S. destruct S. discriminate.
    + rewrite lookup_insert_ne by exact N. reflexivity.
Qed.

Lemma total_issues_insert columns s old new :
  columns !! s = Some old ->
  (total_issues (<[ s := new ]> columns) + length old
   = total_issues columns + length new)%nat.
Proof.
  intros H. unfold total_issues.
  rewrite <- (insert_delete_eq columns s new).
  rewrite <- (insert_id columns s old H) at 2.
  rewrite <- (insert_delete_eq columns s old).
  rewrite (map_fold_insert_L _ _ s new), (map_fold_insert_L _ _ s old)
    by first [apply lookup_delete_eq | intros; lia].
  lia.
Qed.

Lemma total_fold_rule items columns :
  five_columns columns ->
  total_issues (fold_left bucket_step items columns)
  = (total_issues columns + length (omap placement items))%nat.
Proof.
  revert columns. induction items as [|item rest IH]; intros columns W.
  - cbn. lia.
  - cbn [fold_left]. rewrite (IH _ (bucket_step_five _ _ W)).
    rewrite (bucket_step_rule _ _ W). cbn [omap list_omap].
    destruct (placement item) as [[s r]|] eqn:P; [|reflexivity].
    assert (S : is_Some (columns !! s)) by (apply W, (placement_known _ _ _ P)).
    destruct S as [l E]. rewrite E. change (default [] (Some l)) with l.
    pose proof (total_issues_insert columns s l (l ++ [r]) E) as T.
    rewrite length_app in T. cbn [length] in *. lia.
Qed.

Lemma bucket_items_lookup items name :
  bucket_items items !! name =
  if bool_decide (name ∈ known_columns) then Some (column_rule name items) else None.
Proof.
  unfold bucket_items. rewrite (bucket_fold_rule _ _ _ initial_columns_five).
  rewrite initial_columns_lookup. case_bool_decide; reflexivity.
Qed.

Lemma ascii_eqb_N (c d : ascii) : Ascii.eqb c d = (N_of_ascii c =? N_of_ascii d)%N.
Proof.
  destruct (Ascii.eqb_spec c d) as [->|H].
  - symmetry. apply N.eqb_refl.
  - symmetry. apply N.eqb_neq. intros E. apply H.
    rewrite <- (ascii_N_embedding c), <- (ascii_N_embedding d), E. reflexivity.
Qed.

(** Lowering a character gives a small letter exactly when the character
    is that letter in one of its two forms. *)
Lemma lower_char_same_letter (c d : ascii) :
  (97 <= N_of_ascii d)%N -> (N_of_ascii d <= 122)%N ->
  Ascii.eqb (lower_char c) d = same_letter c d.
Proof.
  intros L U. unfold lower_char, same_letter. cbv zeta.
  pose proof (N_ascii_bounded c) as B.
  destruct (N.leb_spec 65 (N_of_ascii c)) as [R1|R1];
    destruct (N.leb_spec (N_of_ascii c) 90) as [R2|R2]; cbn [andb];
    rewrite ascii_eqb_N, ?N_ascii_embedding by lia;
    repeat match goal with
           | |- context [N.eqb ?a ?b] => destruct (N.eqb_spec a b)
           | |- context [N.leb ?a ?b] => destruct (N.leb_spec a b)
           end; cbn [andb orb]; first [reflexivity | lia].
Qed.

Lemma lower_equal_ignoring_case (a p : string) :
  small_letters p = true ->
  String.eqb (lower a) p = equal_ignoring_case a p.
Proof.
  revert p. induction a as [|c a IH]; intros [|d p] S; try reflexivity.
  unfold small_letters in S. cbn [all_chars] in S.
  apply andb_true_iff in S. destruct S as [S1 S2].
  apply andb_true_iff in S1. destruct S1 as [L U].
  apply N.leb_le in L, U.
  cbn [lower String.eqb equal_ignoring_case].
  rewrite (lower_char_same_letter c d L U), (IH p S2).
  destruct (same_letter c d); reflexivity.
Qed.

Lemma status_like_stated (name : string) :
  status_like name = equal_ignoring_case name "status" || equal_ignoring_case name "state".
Proof.
  unfold status_like. rewrite !lower_equal_ignoring_case by reflexivity. reflexivity.
Qed.

Lemma names_the_status_eq node : names_the_status node = is_status_field node.
Proof.
  unfold names_the_status, is_status_field.
  destruct node as [fv|]; [|reflexivity].
  destruct (fv_field fv) as [field|]; [|reflexivity].
  rewrite status_like_stated.
  destruct (f_name field) as [name|]; reflexivity.
Qed.

Lemma stated_status_eq item : stated_status item = status_rule item.
Proof.
  unfold stated_status, status_rule.
  induction (item_fieldValues item) as [|node rest IH]; [reflexivity|].
  cbn [List.find]. rewrite names_the_status_eq.
  destruct (is_status_field node); [|exact IH].
  destruct node as [fv|]; [|reflexivity]. unfold selected_name.
  destruct (fv_name fv); reflexivity.
Qed.

Lemma stated_place_eq item : stated_place item = placement item.
Proof.
  unfold stated_place, placement. rewrite stated_status_eq. reflexivity.
Qed.

Lemma stated_column_eq name items : stated_column name items = column_rule name items.
Proof.
  unfold stated_column, column_rule. induction items as [|item rest IH]; [reflexivity|].
  cbn [omap list_omap]. rewrite stated_place_eq.
  fold (omap (fun item => match stated_place item with
                          | Some (s, r) => if decide (s = name) then Some r else None
                          | None => None end) rest).
  destruct (placement item) as [[s r]|]; [destruct (decide (s = name))|];
    first [f_equal; exact IH | exact IH].
Qed.

Lemma stated_places_eq (items : list raw_item) : omap stated_place items = omap placement items.
Proof.
  induction items as [|item rest IH]; [reflexivity|].
  cbn [omap list_omap]. rewrite stated_place_eq.
  fold (omap stated_place rest) (omap placement rest). rewrite IH. reflexivity.
Qed.

(** C4. For every list of raw items, the mapping of [get_project_items]
    has the five columns and no other, and a column holds, in arrival
    order, the records of the items that the rule places in it: an item
    with no content, or whose content has no number, is in no column; the
    status of an item is the selected name of the first field value whose
    field is named "status" or "state" up to case, and "Backlog" when there
    is no such field value; an item whose status is not one of the five
    names is in no column, and the total does not count it. The test of the
    field name by the code is the equality up to case with one of the two
    words. *)
Theorem bucketing_follows_the_rule (all_items : list raw_item) :
  (forall name,
     bucket_items all_items !! name =
     if bool_decide (name ∈ ["Backlog"; "Ready"; "In progress"; "In review"; "Done"])
     then Some (stated_column name all_items)
     else None)
  /\ total_issues (bucket_items all_items) = length (omap stated_place all_items)
  /\ (forall item, resolve_status (item_fieldValues item) = stated_status item)
  /\ (forall field_name,
        status_like field_name
        = equal_ignoring_case field_name "status" || equal_ignoring_case field_name "state").
Proof.
  split; [|split; [|split]].
  - intros name. rewrite stated_column_eq. apply bucket_items_lookup.
  - unfold bucket_items. rewrite (total_fold_rule _ _ initial_columns_five).
    rewrite stated_places_eq. reflexivity.
  - intros item. rewrite stated_status_eq. apply resolve_status_rule.
  - apply status_like_stated.
Qed.

Lemma column_rule_app name before after :
  column_rule name (before ++ after) = column_rule name before ++ column_rule name after.
Proof. unfold column_rule. apply omap_app. Qed.

(** An item that the rule places nowhere leaves every column as it is. *)
Lemma bucket_items_skip before item after :
  placement item = None ->
  bucket_items (before ++ item :: after) = bucket_items (before ++ after).
Proof.
  intros P. apply map_eq. intros name. rewrite !bucket_items_lookup.
  case_bool_decide; [|reflexivity].
  rewrite !column_rule_app. unfold column_rule at 2. cbn [omap list_omap].
  rewrite P. reflexivity.
Qed.

(** C5, as the code has it. For an item with content and a number, at any
    place of the listing: when the selected name of its status field is not
    the name of a column (or is [null]), the item enters no column, the
    mapping being the one obtained without it; the item goes to "Backlog"
    by default when none of its field values is a status field. *)
Theorem unknown_status_is_dropped before item after c n :
  item_content item = Some c -> c_number c = Some n ->
  (forall s, resolve_status (item_fieldValues item) = Some s -> s ∉ known_columns ->
     bucket_items (before ++ item :: after) = bucket_items (before ++ after))
  /\ (resolve_status (item_fieldValues item) = None ->
      bucket_items (before ++ item :: after) = bucket_items (before ++ after))
  /\ (List.find is_status_field (item_fieldValues item) = None ->
      bucket_items (before ++ item :: after) !! "Backlog"
      = Some (column_rule "Backlog" before ++ record_of c n :: column_rule "Backlog" after)).
Proof.
  intros C N.
  assert (P : forall s, status_rule item = s ->
                placement item =
                match s with
                | Some s => if bool_decide (s ∈ known_columns)
                            then Some (s, record_of c n) else None
                | None => None
                end).
  { intros s <-. unfold placement. rewrite C, N. reflexivity. }
  split; [|split].
  - intros s S K. apply bucket_items_skip.
    rewrite (P (Some s)) by (rewrite <- resolve_status_rule; exact S).
    rewrite bool_decide_false by exact K. reflexivity.
  - intros S. apply bucket_items_skip.
    rewrite (P None) by (rewrite <- resolve_status_rule; exact S). reflexivity.
  - intros F. rewrite bucket_items_lookup.
    rewrite bool_decide_true by (unfold known_columns; apply list_elem_of_here).
    rewrite column_rule_app. unfold column_rule at 2. cbn [omap list_omap].
    rewrite (P (Some "Backlog")) by (unfold status_rule; rewrite F; reflexivity).
    rewrite bool_decide_true by (unfold known_columns; apply list_elem_of_here).
    reflexivity.
Qed.

(** *** The pages *)

(** From [cursor] on, the API serves the items [items] in [n] queries: each
    page but the last announces a next page. *)
Inductive serves (api : graphql) (project_id : string)
  : option string -> list raw_item -> nat -> Prop :=
  | serves_nothing cursor :
      api project_id cursor = Answer None ->
      serves api project_id cursor [] 1
  | serves_last cursor items_data :
      api project_id cursor = Answer (Some items_data) ->
      hasNextPage items_data = false ->
      serves api project_id cursor (nodes items_data) 1
  | serves_next cursor items_data items n :
      api project_id cursor = Answer (Some items_data) ->
      hasNextPage items_data = true ->
      serves api project_id (endCursor items_data) items n ->
      serves api project_id cursor (nodes items_data ++ items) (S n).

(** With enough fuel the loop returns the items of all pages, in arrival
    order. *)
Lemma fetch_all_serves api project_id cursor items n :
  serves api project_id cursor items n ->
  forall fuel all_items,
    n <= fuel ->
    fetch_all api project_id fuel cursor all_items = Finished (all_items ++ items).
Proof.
  induction 1 as [cursor A | cursor p A L | cursor p items n A L _ IH];
    intros fuel all_items F; (destruct fuel as [|fuel]; [lia|]);
    cbn [fetch_all]; rewrite A.
  - rewrite app_nil_r. reflexivity.
  - rewrite L. reflexivity.
  - rewrite L, IH by lia. rewrite <- app_assoc. reflexivity.
Qed.

Lemma get_project_items_serves api project_id items n fuel board_name :
  serves api project_id None items n -> n <= fuel ->
  get_project_items api fuel project_id board_name = Finished (bucket_items items).
Proof.
  intros S F. unfold get_project_items.
  rewrite (fetch_all_serves _ _ _ _ _ S fuel [] F). reflexivity.
Qed.

Lemma fetch_all_more_fuel api project_id fuel extra cursor all_items items :
  fetch_all api project_id fuel cursor all_items = Finished items ->
  fetch_all api project_id (fuel + extra) cursor all_items = Finished items.
Proof.
  revert cursor all_items. induction fuel as [|fuel IH]; intros cursor all_items H.
  - discriminate.
  - cbn [fetch_all Nat.add] in *.
    destruct (api project_id cursor) as [msg|[items_data|]]; try exact H.
    destruct (hasNextPage items_data); [apply IH, H | exact H].
Qed.

Section Report.

Variable strftime : Z -> string.

Lemma fold_sections columns (entries : list (string * string)) report :
  fold_left (fun report entry => report +:+ column_section columns entry) entries report
  = report +:+ fold_left (fun report entry => report +:+ column_section columns entry)
                 entries "".
Proof.
  revert report. induction entries as [|entry rest IH]; intros report; cbn [fold_left].
  - rewrite str_app_nil_r. reflexivity.
  - rewrite IH, (IH ("" +:+ _)), str_app_assoc. reflexivity.
Qed.

(** C10. The [board_name] argument has no effect on the mapping returned
    by [get_project_items], whatever the API answers: the same items are
    kept, with the same status and the same column. The report of
    [format_kanban_summary] holds it verbatim after "**Board:** " in its
    head, around a text that does not depend on it. *)
Theorem board_name_is_only_echoed :
  (forall api fuel project_id board_name1 board_name2,
     get_project_items api fuel project_id board_name1
     = get_project_items api fuel project_id board_name2)
  /\
  (forall now columns project_name,
     exists rest,
       forall board_name,
         format_kanban_summary strftime now columns project_name board_name
         = "# Kanban Board Summary" +:+ nl +:+ nl +:+ "**Project:** " +:+ project_name
             +:+ "  " +:+ nl +:+ "**Board:** " +:+ board_name +:+ rest).
Proof.
  split.
  - intros api fuel project_id board_name1 board_name2. reflexivity.
  - intros now columns project_name. eexists. intros board_name.
    unfold format_kanban_summary. rewrite fold_sections.
    rewrite !str_app_assoc. reflexivity.
Qed.

End Report.

(** *** More on the pages *)

(** From [cursor] on, [n] queries in a row are answered by pages that
    announce a next page: together they hold [items], and the last of them
    hands over [cursor']. *)
Inductive turns (api : graphql) (project_id : string)
  : option string -> list raw_item -> nat -> option string -> Prop :=
  | turns_none cursor : turns api project_id cursor [] 0 cursor
  | turns_page cursor items_data items n cursor' :
      api project_id cursor = Answer (Some items_data) ->
      hasNextPage items_data = true ->
      turns api project_id (endCursor items_data) items n cursor' ->
      turns api project_id cursor (nodes items_data ++ items) (S n) cursor'.

Lemma fetch_all_turns api project_id cursor items n cursor' :
  turns api project_id cursor items n cursor' ->
  forall fuel all_items,
    fetch_all api project_id (n + fuel) cursor all_items
    = fetch_all api project_id fuel cursor' (all_items ++ items).
Proof.
  induction 1 as [cursor | cursor p items n cursor' A L _ IH]; intros fuel all_items.
  - rewrite app_nil_r. reflexivity.
  - cbn [Nat.add fetch_all]. rewrite A, L, IH, <- app_assoc. reflexivity.
Qed.

(** What the loop returns was served, within the bound. *)
Lemma fetch_all_finished api project_id fuel :
  forall cursor all_items result,
    fetch_all api project_id fuel cursor all_items = Finished result ->
    exists items n,
      serves api project_id cursor items n /\ n <= fuel /\ result = all_items ++ items.
Proof.
  induction fuel as [|fuel IH]; intros cursor all_items result H; [discriminate|].
  cbn [fetch_all] in H.
  destruct (api project_id cursor) as [msg|[p|]] eqn:A; [discriminate| |].
  - destruct (hasNextPage p) eqn:L.
    + destruct (IH _ _ _ H) as (items & n & V & F & ->).
      exists (nodes p ++ items), (S n).
      split; [eapply serves_next; eassumption|].
      split; [lia | rewrite app_assoc; reflexivity].
    + injection H as <-. exists (nodes p), 1.
      split; [apply serves_last; assumption|]. split; [lia | reflexivity].
  - injection H as <-. exists [], 1.
    split; [apply serves_nothing; assumption|].
    split; [lia | rewrite app_nil_r; reflexivity].
Qed.

(** X1. [get_project_items] returns a mapping exactly when the API serves
    the items in a number of queries within the bound: each page but the
    last announces a next page, the query for a page carries the end cursor
    of the page before it (no cursor for the first), and a page without
    items ends the listing. The mapping is then the grouping of the items of
    all pages, in the order of the pages. *)
Theorem pages_are_gathered_in_order api fuel project_id board_name columns :
  get_project_items api fuel project_id board_name = Finished columns <->
  exists items n,
    serves api project_id None items n /\ n <= fuel /\ columns = bucket_items items.
Proof.
  unfold get_project_items. split.
  - destruct (fetch_all api project_id fuel None []) as [all_items|msg|] eqn:F;
      try discriminate.
    intros H. injection H as <-.
    destruct (fetch_all_finished _ _ _ _ _ _ F) as (items & n & V & L & ->).
    exists items, n. auto.
  - intros (items & n & V & L & ->).
    rewrite (fetch_all_serves _ _ _ _ _ V fuel [] L). reflexivity.
Qed.

(** X2. A query that fails on any page fails the whole call of
    [get_project_items] with the message of that query: the items of the
    pages fetched before it are not returned. *)
Theorem failed_page_fails_the_listing api project_id items n cursor msg fuel board_name :
  turns api project_id None items n cursor ->
  api project_id cursor = QueryFailed msg ->
  n < fuel ->
  get_project_items api fuel project_id board_name = Failed msg.
Proof.
  intros T Q F. unfold get_project_items.
  replace fuel with (n + S (fuel - S n)) by lia.
  rewrite (fetch_all_turns _ _ _ _ _ _ T). cbn [fetch_all]. rewrite Q. reflexivity.
Qed.

(** X3. The loop of [get_project_items] has no limit on the number of pages:
    when the API answers any number of queries in a row with a page that
    announces a next page, the call returns under no bound. *)
Theorem listing_has_no_page_limit api project_id :
  (forall n, exists items cursor, turns api project_id None items n cursor) ->
  forall fuel board_name, get_project_items api fuel project_id board_name = OutOfFuel.
Proof.
  intros E fuel board_name. destruct (E fuel) as (items & cursor & T).
  unfold get_project_items.
  replace fuel with (fuel + 0) at 1 by lia.
  rewrite (fetch_all_turns _ _ _ _ _ _ T). reflexivity.
Qed.

(** *** The counts of the report *)

Lemma total_issues_delete columns name :
  total_issues columns
  = (length (default [] (columns !! name)) + total_issues (delete name columns))%nat.
Proof.
  unfold total_issues. destruct (columns !! name) as [l|] eqn:E.
  - rewrite <- (insert_delete_id columns name l E) at 1.
    rewrite map_fold_insert_L; [reflexivity | intros; lia | apply lookup_delete_eq].
  - rewrite (delete_id _ _ E). reflexivity.
Qed.

Lemma lookup_foldr_delete_names (names : list string) (columns : gmap string (list issue_data))
    name :
  foldr delete columns names !! name = if decide (name ∈ names) then None else columns !! name.
Proof.
  induction names as [|k rest IH]; cbn [foldr].
  - rewrite decide_False by apply not_elem_of_nil. reflexivity.
  - destruct (decide (k = name)) as [->|N].
    + rewrite lookup_delete_eq, decide_True by apply list_elem_of_here. reflexivity.
    + rewrite lookup_delete_ne, IH by exact N.
      destruct (decide (name ∈ rest)) as [I|I].
      * rewrite decide_True by (apply list_elem_of_further, I). reflexivity.
      * rewrite decide_False; [reflexivity|].
        rewrite elem_of_cons. intros [->|?]; [now apply N | now apply I].
Qed.

(** The total, as the counts of some columns and the total of the others. *)
Lemma total_issues_split (names : list string) columns :
  NoDup names ->
  total_issues columns
  = (foldr (fun name acc => length (default [] (columns !! name)) + acc) 0 names
     + total_issues (foldr delete columns names))%nat.
Proof.
  induction 1 as [|k rest K _ IH]; cbn [foldr]; [reflexivity|].
  rewrite IH at 1. rewrite (total_issues_delete (foldr delete columns rest) k).
  rewrite lookup_foldr_delete_names, decide_False by exact K. lia.
Qed.

Lemma known_columns_NoDup : NoDup known_columns.
Proof.
  unfold known_columns.
  repeat (apply NoDup_cons_2;
    [rewrite ?not_elem_of_cons; repeat split; try discriminate; apply not_elem_of_nil|]).
  apply NoDup_nil_2.
Qed.

Lemma total_issues_shown columns :
  total_issues columns
  = (shown_count columns + total_issues (foldr delete columns known_columns))%nat.
Proof. exact (total_issues_split known_columns columns known_columns_NoDup). Qed.

(** X4. The total in the head of the report counts the issues under every
    key of the mapping, and the sections show the five configured columns
    only: the total is at least the sum of the five counts shown, it is that
    sum when the mapping has no other key, and so it is for every mapping
    that [get_project_items] builds. *)
Theorem total_is_the_sum_of_shown_counts :
  (forall columns, shown_count columns <= total_issues columns) /\
  (forall columns,
     (forall name, is_Some (columns !! name) -> name ∈ known_columns) ->
     total_issues columns = shown_count columns) /\
  (forall all_items,
     total_issues (bucket_items all_items) = shown_count (bucket_items all_items)).
Proof.
  assert (K : forall columns,
             (forall name, is_Some (columns !! name) -> name ∈ known_columns) ->
             total_issues columns = shown_count columns).
  { intros columns W. rewrite total_issues_shown.
    replace (foldr delete columns known_columns) with (∅ : gmap string (list issue_data)).
    - unfold total_issues at 1. rewrite map_fold_empty. lia.
    - symmetry. apply map_empty. intros name. rewrite lookup_foldr_delete_names.
      destruct (decide (name ∈ known_columns)) as [I|I]; [reflexivity|].
      destruct (columns !! name) eqn:E; [|reflexivity].
      exfalso. apply I, W. rewrite E. eauto. }
  split; [|split].
  - intros columns. rewrite total_issues_shown. lia.
  - exact K.
  - intros all_items. apply K. intros name [l H].
    rewrite bucket_items_lookup in H. case_bool_decide; [assumption | discriminate].
Qed.

(** *** The issues of the report *)

Lemma fold_issue_lines issues report :
  fold_left (fun report issue => report +:+ issue_lines issue) issues report
  = report +:+ issues_lines issues.
Proof.
  revert report. induction issues as [|issue rest IH]; intros report; cbn [fold_left issues_lines foldr].
  - rewrite str_app_nil_r. reflexivity.
  - rewrite IH, str_app_assoc. reflexivity.
Qed.

Lemma issues_lines_app before after :
  issues_lines (before ++ after) = issues_lines before +:+ issues_lines after.
Proof.
  induction before as [|issue rest IH]; [reflexivity|].
  cbn [app issues_lines foldr]. fold (issues_lines (rest ++ after)) (issues_lines rest).
  rewrite IH, str_app_assoc. reflexivity.
Qed.

(** The section of a column that holds issues. *)
Lemma column_section_issues columns name emoji earlier issue later :
  columns !! name = Some (earlier ++ issue :: later) ->
  column_section columns (name, emoji)
  = "## " +:+ emoji +:+ " " +:+ name +:+ " (" +:+ pretty (length (earlier ++ issue :: later))
      +:+ ")" +:+ nl +:+ nl
      +:+ issues_lines earlier +:+ issue_lines issue +:+ issues_lines later +:+ nl.
Proof.
  intros E. unfold column_section. rewrite E.
  change (default [] (Some ?l)) with l.
  assert (M : forall (X Y : string),
             match earlier ++ issue :: later with [] => X | _ :: _ => Y end = Y)
    by (intros X Y; destruct earlier; reflexivity).
  rewrite M, fold_issue_lines, str_app_nil_l, issues_lines_app.
  cbn [issues_lines foldr]. fold (issues_lines later).
  rewrite !str_app_assoc. reflexivity.
Qed.

Section Printed.

Variable strftime : Z -> string.

(** The section of an entry of [column_config], in the report. *)
Lemma report_section now columns project_name board_name c1 entry c2 :
  column_config = c1 ++ entry :: c2 ->
  exists before after,
    format_kanban_summary strftime now columns project_name board_name
    = before +:+ column_section columns entry +:+ after.
Proof.
  intros E. unfold format_kanban_summary. rewrite E, fold_left_app. cbn [fold_left].
  rewrite (fold_sections _ c2).
  set (section := column_section columns entry).
  set (report := fold_left _ c1 _).
  rewrite !str_app_assoc. eexists report, _. reflexivity.
Qed.

(** X5. An issue that the loop places in a column is printed in the section
    of that column. For an item with content and a number whose status is
    the name of a column: the heading of the section of that column shows
    the number of issues placed in it, and the three lines of the issue
    (its number, title and link; its labels joined by ", ", or "no labels";
    its state) stand after the lines of the issues placed there from
    earlier items and before those from later items. *)
Theorem placed_issue_is_printed now earlier item later c n s project_name board_name :
  item_content item = Some c -> c_number c = Some n ->
  resolve_status (item_fieldValues item) = Some s -> s ∈ known_columns ->
  let placed_before := default [] (bucket_items earlier !! s) in
  let placed_after := default [] (bucket_items later !! s) in
  exists emoji before after,
    (s, emoji) ∈ column_config /\
    format_kanban_summary strftime now (bucket_items (earlier ++ item :: later))
      project_name board_name
    = before +:+ "## " +:+ emoji +:+ " " +:+ s +:+ " ("
        +:+ pretty (length placed_before + 1 + length placed_after) +:+ ")" +:+ nl +:+ nl
        +:+ issues_lines placed_before
        +:+ "- [#" +:+ pretty n +:+ ": " +:+ c_title c +:+ "](" +:+ c_url c +:+ ")" +:+ nl
        +:+ "  - **Labels:** "
        +:+ match c_labels c with
            | [] => "no labels"
            | _ :: _ => join ", " (c_labels c)
            end +:+ nl
        +:+ "  - **Status:** " +:+ c_state c +:+ nl
        +:+ issues_lines placed_after +:+ nl +:+ after.
Proof.
  intros HC HN HS K placed_before placed_after.
  set (all_items := earlier ++ item :: later).
  set (r := record_of c n).
  assert (P : placement item = Some (s, r)).
  { unfold placement. rewrite HC, HN, <- resolve_status_rule, HS.
    rewrite bool_decide_true by exact K. reflexivity. }
  assert (B1 : placed_before = column_rule s earlier).
  { subst placed_before. rewrite bucket_items_lookup, bool_decide_true by exact K.
    reflexivity. }
  assert (B2 : placed_after = column_rule s later).
  { subst placed_after. rewrite bucket_items_lookup, bool_decide_true by exact K.
    reflexivity. }
  assert (C : exists emoji, (s, emoji) ∈ column_config).
  { change known_columns with (column_config.*1) in K.
    apply list_elem_of_fmap in K. destruct K as ([s' emoji] & -> & K). eauto. }
  destruct C as (emoji & C). exists emoji.
  destruct (list_elem_of_split _ _ C) as (c1 & c2 & E).
  assert (L : bucket_items all_items !! s
              = Some (column_rule s earlier ++ r :: column_rule s later)).
  { rewrite bucket_items_lookup, bool_decide_true by exact K.
    subst all_items. rewrite column_rule_app. unfold column_rule at 2.
    cbn [omap list_omap]. rewrite P, decide_True by reflexivity. reflexivity. }
  destruct (report_section now (bucket_items all_items) project_name board_name _ _ _ E)
    as (before & after & Q).
  exists before, after. split; [exact C|].
  rewrite Q, (column_section_issues _ _ _ _ _ _ L), B1, B2.
  replace (length (column_rule s earlier ++ r :: column_rule s later))
    with (length (column_rule s earlier) + 1 + length (column_rule s later))
    by (rewrite length_app; cbn [length]; lia).
  unfold issue_lines. subst r. cbn [record_of number title url state labels].
  rewrite !str_app_assoc. reflexivity.
Qed.

End Printed.

(** *** The queries, the discussion and the run *)

(** A computation that may raise, as in the issue summary bot. *)
Definition exc (A : Type) : Type := IssueSummaryBot.exc A.

Notation "'let!' x ':=' m 'in' k" := (IssueSummaryBot.exc_bind m (fun x => k))
  (at level 10, x name, m at level 100, k at level 200).

(** [get_github_token] *)
Definition get_github_token (environ : gmap string string) : exc string :=
  match environ !! "GITHUB_TOKEN" with
  | Some github_token =>
      if str_truthy github_token then inr github_token
      else inl "GITHUB_TOKEN environment variable is required"
  | None => inl "GITHUB_TOKEN environment variable is required"
  end.

(** The body of an HTTP response read as JSON: the rendering of its
    [errors] when it has that key, and its [data] when it has that key,
    in the shape that the query asks for. *)
Record reply (A : Type) := {
  reply_errors : option string;
  reply_data : option A
}.
Arguments reply_errors {A} _.
Arguments reply_data {A} _.

(** The response of [requests.post]; [json] is what [response.json()]
    gives, an exception when the body is no JSON. *)
Record http_response (A : Type) := {
  status_code : Z;
  text : string;
  json : exc (reply A)
}.
Arguments status_code {A} _.
Arguments text {A} _.
Arguments json {A} _.

(** [execute_graphql_query(query, variables)], [post] being what the API
    does with the request that carries the token: an exception of the
    transport, or a response. *)
Definition execute_graphql_query {A : Type} (environ : gmap string string)
    (post : string -> exc (http_response A)) : exc A :=
  let! token := get_github_token environ in
  let! response := post token in
  if negb (status_code response =? 200)%Z then
    inl ("GraphQL query failed with status " +:+ pretty (status_code response) +:+ ": "
           +:+ text response)
  else
    let! data := json response in
    match reply_errors data with
    | Some errors => inl ("GraphQL query returned errors: " +:+ errors)
    | None =>
        match reply_data data with
        | Some d => inr d
        | None => inl "'data'"
        end
    end.

(** A project and a discussion category, as the queries select them. *)
Record project := {
  project_id : string;
  project_title : string;
  project_number : Z
}.

Record category := {
  cat_id : string;
  cat_name : string
}.

(** [s.split('/')]: the pieces between the slashes, [cur] being the piece
    that is read. *)
Fixpoint split_on (sep : ascii) (cur s : string) : list string :=
  match s with
  | EmptyString => [cur]
  | String c rest =>
      if Ascii.eqb c sep then cur :: split_on sep "" rest
      else split_on sep (cur +:+ String c "") rest
  end.

(** [owner, repo = repo_name.split('/')]: a [ValueError] unless there are
    two pieces (with the messages of CPython 3.8 to 3.13). *)
Definition owner_and_repo (repo_name : string) : exc (string * string) :=
  match split_on "/" "" repo_name with
  | [owner; repo] => inr (owner, repo)
  | [] | [_] => inl "not enough values to unpack (expected 2, got 1)"
  | _ => inl "too many values to unpack (expected 2)"
  end.

(** The API as a run meets it: what it does with each of the requests of
    the program, the last argument being the token. *)
Record platform := {
  post_organization : string -> string -> string -> exc (http_response (option (list project)));
  post_repository :
    string -> string -> string -> string -> exc (http_response (option (list project)));
  post_items : string -> option string -> string -> exc (http_response (option page));
  post_categories : string -> string -> string -> exc (http_response (option (list category)));
  post_repository_id : string -> string -> string -> exc (http_response (option string));
  post_discussion :
    string -> string -> string -> string -> string -> exc (http_response string)
}.

Section Queries.

(** The builtin [str.lower]. *)
Variable py_lower : string -> string.

(** The loop that looks for the project with the title, in any case. *)
Definition exact_match (projects : list project) (project_name : string) : option project :=
  List.find (fun project => String.eqb (py_lower (project_title project)) (py_lower project_name))
    projects.

(** [get_organization_projects(org_name, project_name)] *)
Definition get_organization_projects (environ : gmap string string) (api : platform)
    (org_name project_name : string) : exc (option project) :=
  let! data := execute_graphql_query environ (post_organization api org_name project_name) in
  match data with
  | None => inr None
  | Some projects => inr (exact_match projects project_name)
  end.

(** [get_repository_projects(owner, repo, project_name)] *)
Definition get_repository_projects (environ : gmap string string) (api : platform)
    (owner repo project_name : string) : exc (option project) :=
  let! data := execute_graphql_query environ (post_repository api owner repo project_name) in
  match data with
  | None => inr None
  | Some projects => inr (exact_match projects project_name)
  end.

(** [get_discussion_category_id(repo_name, category_name)] *)
Definition get_discussion_category_id (environ : gmap string string) (api : platform)
    (repo_name category_name : string) : exc (option string) :=
  let! names := owner_and_repo repo_name in
  let '(owner, repo) := names in
  let! data := execute_graphql_query environ (post_categories api owner repo) in
  match data with
  | None => inr None
  | Some categories =>
      inr (cat_id <$>
             List.find (fun category =>
                          String.eqb (py_lower (cat_name category)) (py_lower category_name))
               categories)
  end.

End Queries.

(** [create_discussion(repo_name, category_id, title, body)]: the URL of
    the discussion. A repository that the API does not know (a [null] in
    the answer to the first query) is a [TypeError]. *)
Definition create_discussion (environ : gmap string string) (api : platform)
    (repo_name category_id title body : string) : exc string :=
  let! names := owner_and_repo repo_name in
  let '(owner, repo) := names in
  let! data := execute_graphql_query environ (post_repository_id api owner repo) in
  match data with
  | None => inl "'NoneType' object is not subscriptable"
  | Some repository_id =>
      execute_graphql_query environ
        (post_discussion api repository_id category_id title body)
  end.

(** The item query of [get_project_items], through
    [execute_graphql_query]. *)
Definition items_api (environ : gmap string string) (api : platform) : graphql :=
  fun project_id cursor =>
    match execute_graphql_query environ (post_items api project_id cursor) with
    | inl e => QueryFailed e
    | inr items => Answer items
    end.

(** What a run meets: the environment and the arguments of the process
    ([argv] starts with the name of the script), the API, and the clock
    readings of the report and of the title of the discussion. *)
Record world := {
  environ : gmap string string;
  argv : list string;
  api : platform;
  report_clock : Z;
  title_clock : Z
}.

(** What is written on [sys.stderr]: a line, or the traceback of an
    exception. *)
Inductive written :=
  | Line (s : string)
  | Traceback (e : string).

(** What a run leaves: the lines printed on [sys.stdout], what is written
    on [sys.stderr], the URL of the discussion when one was created, and
    the exit status (0 when [main] returns). *)
Record result := {
  stdout : list string;
  stderr : list written;
  discussion : option string;
  exit_status : Z
}.

(** A run that ends in the handler [except Exception] of [main]. *)
Definition raised (printed : list string) (e : string) : result :=
  {| stdout := printed; stderr := [Line ("Error: " +:+ e); Traceback e];
     discussion := None; exit_status := 1 |}.

(** A run that ends with a message and [sys.exit(1)]. *)
Definition refused (printed : list string) (message : string) : result :=
  {| stdout := printed; stderr := [Line message]; discussion := None; exit_status := 1 |}.

Section Run.

Variable py_lower : string -> string.

(** [strftime('%Y-%m-%d %H:%M:%S UTC')] and [strftime('%Y-%m-%d')] of an
    instant. *)
Variable strftime : Z -> string.
Variable strftime_date : Z -> string.

(** The [try] of [main], from the project on; [None] when the listing of
    the items does not end within [fuel] queries. *)
Definition summarize_project (fuel : nat) (w : world) (printed : list string)
    (repo_name board_name : string) (project : project) : option result :=
  let printed :=
    printed ++ ["Found project: " +:+ project_title project +:+ " (#"
                  +:+ pretty (project_number project) +:+ ")"] in
  match get_project_items (items_api (environ w) (api w)) fuel (project_id project)
          (Some board_name) with
  | OutOfFuel => None
  | Failed e => Some (raised printed e)
  | Finished columns =>
      let printed :=
        printed ++ ["Found " +:+ pretty (total_issues columns)
                      +:+ " issues across all columns"] in
      let summary_content :=
        format_kanban_summary strftime (report_clock w) columns (project_title project)
          board_name in
      match get_discussion_category_id py_lower (environ w) (api w) repo_name
              "Kanban Summaries" with
      | inl e => Some (raised printed e)
      | inr category_id =>
          if negb (truthy category_id) then
            Some (refused printed "Error: Discussion category 'Kanban Summaries' not found.")
          else
            let discussion_title :=
              "Kanban Summary: " +:+ project_title project +:+ " - "
                +:+ strftime_date (title_clock w) in
            match create_discussion (environ w) (api w) repo_name (default "" category_id)
                    discussion_title summary_content with
            | inl e => Some (raised printed e)
            | inr discussion_url =>
                Some {| stdout := printed ++ ["Successfully created discussion: "
                                                +:+ discussion_url];
                        stderr := []; discussion := Some discussion_url;
                        exit_status := 0 |}
            end
      end
  end.

(** The [try] of [main]. *)
Definition attempt (fuel : nat) (w : world) (repo_name project_name board_name : string)
  : option result :=
  let printed :=
    ["Fetching Kanban board from project '" +:+ project_name +:+ "' in repository "
       +:+ repo_name +:+ "..."] in
  match owner_and_repo repo_name with
  | inl e => Some (raised printed e)
  | inr (owner, repo) =>
      match get_organization_projects py_lower (environ w) (api w) owner project_name with
      | inl e => Some (raised printed e)
      | inr project =>
          let project :=
            match project with
            | Some _ => inr project
            | None =>
                get_repository_projects py_lower (environ w) (api w) owner repo project_name
            end in
          match project with
          | inl e => Some (raised printed e)
          | inr None =>
              Some (refused printed
                      ("Error: Project '" +:+ project_name +:+ "' not found in organization '"
                         +:+ owner +:+ "' or repository '" +:+ repo_name +:+ "'."))
          | inr (Some project) =>
              summarize_project fuel w printed repo_name board_name project
          end
      end
  end.

(** [main()] *)
Definition main (fuel : nat) (w : world) : option result :=
  let repo_name := environ w !! "GITHUB_REPOSITORY" in
  let project_name := environ w !! "PROJECT_NAME" in
  let board_name := default "kanban-board" (environ w !! "BOARD_NAME") in
  let repo_name := match argv w !! 1%nat with Some a => Some a | None => repo_name end in
  let project_name := match argv w !! 2%nat with Some a => Some a | None => project_name end in
  let board_name := match argv w !! 3%nat with Some a => a | None => board_name end in
  if negb (truthy repo_name) then
    Some (refused []
            "Error: Repository name not provided. Set GITHUB_REPOSITORY env var or pass as argument.")
  else if negb (truthy project_name) then
    Some (refused []
            "Error: Project name not provided. Set PROJECT_NAME env var or pass as second argument.")
  else attempt fuel w (default "" repo_name) (default "" project_name) board_name.

End Run.

(** *** The queries *)

(** X26. [execute_graphql_query] returns data only from a clean answer: the
    token is set, the request comes back with the status 200 and a JSON
    body that has no [errors] key and has a [data] key, whose value is
    returned. With no token it raises whatever the API would do with the
    request; with another status it raises with the status and the text of
    the response, whatever the body holds. *)
Theorem query_returns_clean_data_only {A : Type} environ
    (post : string -> exc (http_response A)) :
  (forall d,
     execute_graphql_query environ post = inr d <->
     exists token response body,
       get_github_token environ = inr token /\ post token = inr response /\
       status_code response = 200%Z /\ json response = inr body /\
       reply_errors body = None /\ reply_data body = Some d) /\
  (truthy (environ !! "GITHUB_TOKEN") = false ->
   execute_graphql_query environ post = inl "GITHUB_TOKEN environment variable is required") /\
  (forall token response,
     get_github_token environ = inr token -> post token = inr response ->
     status_code response <> 200%Z ->
     execute_graphql_query environ post
     = inl ("GraphQL query failed with status " +:+ pretty (status_code response) +:+ ": "
              +:+ text response)).
Proof.
  split; [|split].
  - intros d. unfold execute_graphql_query. split.
    + destruct (get_github_token environ) as [e|token]; [discriminate|].
      cbn [IssueSummaryBot.exc_bind].
      destruct (post token) as [e|response] eqn:P; [discriminate|].
      cbn [IssueSummaryBot.exc_bind].
      destruct (Z.eqb_spec (status_code response) 200) as [S|S]; [|discriminate].
      cbn [negb].
      destruct (json response) as [e|body] eqn:J; [discriminate|].
      cbn [IssueSummaryBot.exc_bind].
      destruct (reply_errors body) as [errors|] eqn:E; [discriminate|].
      destruct (reply_data body) as [d'|] eqn:D; [|discriminate].
      intros H. injection H as ->. exists token, response, body. auto 10.
    + intros (token & response & body & T & P & S & J & E & D).
      rewrite T. cbn [IssueSummaryBot.exc_bind]. rewrite P. cbn [IssueSummaryBot.exc_bind].
      rewrite S. cbn [Z.eqb Pos.eqb negb]. rewrite J. cbn [IssueSummaryBot.exc_bind].
      rewrite E, D. reflexivity.
  - intros T. unfold execute_graphql_query, get_github_token.
    destruct (environ !! "GITHUB_TOKEN") as [t|]; [|reflexivity].
    cbn [truthy] in T. rewrite T. reflexivity.
  - intros token response T P S. unfold execute_graphql_query.
    rewrite T. cbn [IssueSummaryBot.exc_bind]. rewrite P. cbn [IssueSummaryBot.exc_bind].
    destruct (Z.eqb_spec (status_code response) 200) as [C|_]; [contradiction | reflexivity].
Qed.

(** *** The name of the repository *)

Lemma split_on_cur sep (cur s : string) :
  split_on sep cur s
  = match split_on sep "" s with
    | piece :: pieces => (cur +:+ piece) :: pieces
    | [] => [cur]
    end.
Proof.
  revert cur. induction s as [|c s IH]; intros cur; cbn [split_on].
  - rewrite str_app_nil_r. reflexivity.
  - destruct (Ascii.eqb c sep).
    + rewrite str_app_nil_r. reflexivity.
    + rewrite (IH (cur +:+ String c "")), (IH ("" +:+ String c "")).
      destruct (split_on sep "" s) as [|piece pieces]; [reflexivity|].
      rewrite str_app_assoc. reflexivity.
Qed.

(** One piece: the string itself, which holds no separator. *)
Lemma split_on_one sep (s piece : string) :
  split_on sep "" s = [piece] <-> s = piece /\ char_in sep piece = false.
Proof.
  revert piece. induction s as [|c s IH]; intros piece; cbn [split_on].
  - split; [intros H; injection H as <-; split; reflexivity|]. intros [<- _]. reflexivity.
  - rewrite (Ascii.eqb_sym c sep). destruct (Ascii.eqb sep c) eqn:E.
    + split; intros H.
      * injection H as _ H. rewrite split_on_cur in H.
        destruct (split_on sep "" s); discriminate.
      * destruct H as [<- H]. cbn [char_in] in H. rewrite E in H. discriminate.
    + rewrite split_on_cur.
      destruct (split_on sep "" s) as [|x l] eqn:S.
      { exfalso. rewrite split_on_cur in S.
        destruct (split_on sep "" s); discriminate. }
      change (("" +:+ String c "") +:+ x) with (String c x).
      split; intros H.
      * injection H as <- ->. destruct (proj1 (IH x) eq_refl) as [-> K].
        split; [reflexivity|]. cbn [char_in]. rewrite E, K. reflexivity.
      * destruct H as [<- H]. cbn [char_in] in H. rewrite E in H. cbn [orb] in H.
        pose proof (proj2 (IH s) (conj eq_refl H)) as Q. injection Q as -> ->. reflexivity.
Qed.

Lemma split_on_two sep (s first second : string) :
  split_on sep "" s = [first; second] <->
  s = first +:+ String sep second /\ char_in sep first = false /\ char_in sep second = false.
Proof.
  revert first. induction s as [|c s IH]; intros first; cbn [split_on].
  - split; [discriminate|]. intros [H _]. destruct first; discriminate.
  - rewrite (Ascii.eqb_sym c sep). destruct (Ascii.eqb_spec sep c) as [<-|N].
    + split; intros H.
      * injection H as <- H. apply split_on_one in H. destruct H as [-> K].
        split; [reflexivity|]. split; [reflexivity | exact K].
      * destruct H as (H & F & K). destruct first as [|d first].
        -- rewrite str_app_nil_l in H. injection H as ->. f_equal.
           apply split_on_one. auto.
        -- rewrite str_app_cons in H. injection H as <- _. cbn [char_in] in F.
           rewrite Ascii.eqb_refl in F. discriminate.
    + rewrite split_on_cur.
      destruct (split_on sep "" s) as [|x l] eqn:S.
      { split; [discriminate|]. exfalso. rewrite split_on_cur in S.
        destruct (split_on sep "" s); discriminate. }
      change (("" +:+ String c "") +:+ x) with (String c x).
      assert (E : Ascii.eqb sep c = false) by (apply Ascii.eqb_neq, N).
      split; intros H.
      * injection H as <- ->. destruct (proj1 (IH x) eq_refl) as (-> & F & K).
        split; [reflexivity|]. split; [|exact K]. cbn [char_in]. rewrite E, F. reflexivity.
      * destruct H as (H & F & K). destruct first as [|d first].
        { rewrite str_app_nil_l in H. injection H as H _. congruence. }
        rewrite str_app_cons in H. injection H as <- ->.
        cbn [char_in] in F. rewrite E in F. cbn [orb] in F.
        pose proof (proj2 (IH first) (conj eq_refl (conj F K))) as Q.
        injection Q as -> ->. reflexivity.
Qed.

(** X19. The unpacking [owner, repo = repo_name.split('/')] succeeds
    exactly when the name of the repository is an owner, one slash and a
    repository, neither of which holds a slash (either may be empty); every
    other name raises an exception. *)
Theorem repository_name_has_one_slash repo_name :
  (forall owner repo,
     owner_and_repo repo_name = inr (owner, repo) <->
     repo_name = owner +:+ "/" +:+ repo /\
     char_in "/" owner = false /\ char_in "/" repo = false) /\
  ((exists e, owner_and_repo repo_name = inl e) <->
   ~ exists owner repo,
       repo_name = owner +:+ "/" +:+ repo /\
       char_in "/" owner = false /\ char_in "/" repo = false).
Proof.
  assert (A : forall owner repo,
             owner_and_repo repo_name = inr (owner, repo) <->
             repo_name = owner +:+ "/" +:+ repo /\
             char_in "/" owner = false /\ char_in "/" repo = false).
  { intros owner repo. rewrite <- (split_on_two "/" repo_name owner repo).
    unfold owner_and_repo.
    destruct (split_on "/" "" repo_name) as [|a [|b [|c l]]]; split; intros H;
      try discriminate H; congruence. }
  split; [exact A|]. split.
  - intros [e E] (owner & repo & H). apply A in H. congruence.
  - intros N. destruct (owner_and_repo repo_name) as [e|[owner repo]] eqn:E; [eauto|].
    exfalso. apply N. exists owner, repo. apply A. reflexivity.
Qed.

(** *** The lookups and the run *)

Section Lookups.

Variable py_lower : string -> string.

(** What a lookup by name returns, for the answer [data] to its query: the
    exception of the query; nothing when the answer knows no organization
    or repository, or holds no project whose title is the name up to the
    case of the letters; the first such project otherwise. *)
Definition first_match (project_name : string) (data : exc (option (list project)))
    (result : exc (option project)) : Prop :=
  match data with
  | inl e => result = inl e
  | inr None => result = inr None
  | inr (Some projects) =>
      match result with
      | inr (Some project) =>
          exists before after,
            projects = before ++ project :: after /\
            py_lower (project_title project) = py_lower project_name /\
            forall other, other ∈ before ->
              py_lower (project_title other) <> py_lower project_name
      | inr None =>
          forall other, other ∈ projects ->
            py_lower (project_title other) <> py_lower project_name
      | inl _ => False
      end
  end.

(** X20. The lookup of a project by name, in the organization as in the
    repository, returns the first project of the answer whose title is the
    name up to the case of the letters, and nothing when the answer holds
    no such project or knows no such organization or repository. *)
Theorem project_lookup_takes_the_first_match environ api owner repo project_name :
  first_match project_name
    (execute_graphql_query environ (post_organization api owner project_name))
    (get_organization_projects py_lower environ api owner project_name) /\
  first_match project_name
    (execute_graphql_query environ (post_repository api owner repo project_name))
    (get_repository_projects py_lower environ api owner repo project_name).
Proof.
  assert (M : forall projects,
             match exact_match py_lower projects project_name with
             | Some project =>
                 exists before after,
                   projects = before ++ project :: after /\
                   py_lower (project_title project) = py_lower project_name /\
                   forall other, other ∈ before ->
                     py_lower (project_title other) <> py_lower project_name
             | None =>
                 forall other, other ∈ projects ->
                   py_lower (project_title other) <> py_lower project_name
             end).
  { intros projects. unfold exact_match.
    destruct (List.find _ projects) as [project|] eqn:F.
    - destruct (find_first _ _ _ F) as (before & after & E & T & B).
      exists before, after. split; [exact E|]. split; [apply String.eqb_eq, T|].
      intros other H C. apply String.eqb_eq in C. rewrite (B other H) in C. discriminate.
    - intros other H C. apply String.eqb_eq in C.
      rewrite (find_nothing _ _ F other H) in C. discriminate. }
  unfold first_match, get_organization_projects, get_repository_projects. split.
  - destruct (execute_graphql_query environ (post_organization api owner project_name))
      as [e|[projects|]]; cbn [IssueSummaryBot.exc_bind]; try reflexivity. apply M.
  - destruct (execute_graphql_query environ (post_repository api owner repo project_name))
      as [e|[projects|]]; cbn [IssueSummaryBot.exc_bind]; try reflexivity. apply M.
Qed.

End Lookups.

(** The names that unpack. *)
Lemma split_names repo_name owner repo :
  repo_name = owner +:+ "/" +:+ repo /\
  char_in "/" owner = false /\ char_in "/" repo = false ->
  owner_and_repo repo_name = inr (owner, repo).
Proof.
  intros H. apply (split_on_two "/" repo_name owner repo) in H.
  unfold owner_and_repo. rewrite H. reflexivity.
Qed.

Section RunFacts.

Variable py_lower : string -> string.
Variable strftime : Z -> string.
Variable strftime_date : Z -> string.

Lemma execute_graphql_query_token {A} environ environ' (post : string -> exc (http_response A)) :
  environ !! "GITHUB_TOKEN" = environ' !! "GITHUB_TOKEN" ->
  execute_graphql_query environ post = execute_graphql_query environ' post.
Proof. intros T. unfold execute_graphql_query, get_github_token. rewrite T. reflexivity. Qed.

Lemma fetch_all_same api1 api2 project_id fuel :
  (forall cursor, api1 project_id cursor = api2 project_id cursor) ->
  forall cursor all_items,
    fetch_all api1 project_id fuel cursor all_items
    = fetch_all api2 project_id fuel cursor all_items.
Proof.
  intros E. induction fuel as [|fuel IH]; intros cursor all_items; [reflexivity|].
  cbn [fetch_all]. rewrite E.
  destruct (api2 project_id cursor) as [msg|[p|]]; try reflexivity.
  destruct (hasNextPage p); [apply IH | reflexivity].
Qed.

(** The run reads the environment for the token only, once the names are
    chosen. *)
Lemma attempt_token fuel w w' repo_name project_name board_name :
  environ w !! "GITHUB_TOKEN" = environ w' !! "GITHUB_TOKEN" ->
  api w = api w' -> report_clock w = report_clock w' -> title_clock w = title_clock w' ->
  attempt py_lower strftime strftime_date fuel w repo_name project_name board_name
  = attempt py_lower strftime strftime_date fuel w' repo_name project_name board_name.
Proof.
  intros T A R C. unfold attempt.
  destruct (owner_and_repo repo_name) as [e|[owner repo]]; [reflexivity|].
  unfold get_organization_projects, get_repository_projects.
  rewrite <- A, <- !(execute_graphql_query_token (environ w) (environ w') _ T).
  assert (S : forall printed project,
             summarize_project py_lower strftime strftime_date fuel w printed repo_name
               board_name project
             = summarize_project py_lower strftime strftime_date fuel w' printed repo_name
                 board_name project).
  { intros printed project. unfold summarize_project, get_project_items.
    rewrite (fetch_all_same (items_api (environ w) (api w)) (items_api (environ w') (api w')))
      by (intros cursor; unfold items_api; rewrite <- A;
          rewrite (execute_graphql_query_token (environ w) (environ w') _ T); reflexivity).
    unfold get_discussion_category_id, create_discussion.
    rewrite <- A, <- R, <- C.
    destruct (fetch_all _ _ _ _ _); try reflexivity.
    destruct (owner_and_repo repo_name) as [e|[owner' repo']]; [reflexivity|].
    cbn [IssueSummaryBot.exc_bind].
    rewrite <- !(execute_graphql_query_token (environ w) (environ w') _ T).
    destruct (execute_graphql_query (environ w) (post_categories (api w) owner' repo'))
      as [e|[categories|]]; try reflexivity.
    cbn [IssueSummaryBot.exc_bind].
    destruct (negb _); [reflexivity|].
    destruct (execute_graphql_query (environ w) (post_repository_id (api w) owner' repo'))
      as [e|[id|]]; try reflexivity.
    cbn [IssueSummaryBot.exc_bind].
    rewrite <- !(execute_graphql_query_token (environ w) (environ w') _ T). reflexivity. }
  destruct (let! data := execute_graphql_query (environ w) (post_organization (api w) owner project_name) in _)
    as [e|[project|]]; try reflexivity.
  - apply S.
  - destruct (let! data := execute_graphql_query (environ w) _ in _) as [e|[project|]];
      try reflexivity. apply S.
Qed.

(** X21. The arguments of the command line come before the environment:
    with three arguments after the name of the script, the run reads the
    environment for the token only. *)
Theorem arguments_override_the_environment fuel w w' :
  argv w = argv w' -> 3 < length (argv w) ->
  environ w !! "GITHUB_TOKEN" = environ w' !! "GITHUB_TOKEN" ->
  api w = api w' -> report_clock w = report_clock w' -> title_clock w = title_clock w' ->
  main py_lower strftime strftime_date fuel w = main py_lower strftime strftime_date fuel w'.
Proof.
  intros V L T A R C. unfold main. rewrite <- V.
  destruct (lookup_lt_is_Some_2 (argv w) 1) as [a1 E1]; [lia|].
  destruct (lookup_lt_is_Some_2 (argv w) 2) as [a2 E2]; [lia|].
  destruct (lookup_lt_is_Some_2 (argv w) 3) as [a3 E3]; [lia|].
  rewrite E1, E2, E3.
  rewrite (attempt_token fuel w w' _ _ _ T A R C). reflexivity.
Qed.

(** The steps of a run that ends with the status 0. *)
Lemma summarize_project_done fuel w printed repo_name board_name project r :
  summarize_project py_lower strftime strftime_date fuel w printed repo_name board_name project
  = Some r ->
  exit_status r = 0%Z ->
  exists items n category_id url,
    serves (items_api (environ w) (api w)) (project_id project) None items n /\
    n <= fuel /\
    get_discussion_category_id py_lower (environ w) (api w) repo_name "Kanban Summaries"
    = inr (Some category_id) /\
    category_id <> "" /\
    create_discussion (environ w) (api w) repo_name category_id
      ("Kanban Summary: " +:+ project_title project +:+ " - " +:+ strftime_date (title_clock w))
      (format_kanban_summary strftime (report_clock w) (bucket_items items)
         (project_title project) board_name)
    = inr url /\
    discussion r = Some url.
Proof.
  unfold summarize_project. intros H Z.
  destruct (get_project_items _ fuel (project_id project) (Some board_name))
    as [columns|e|] eqn:G; [| injection H as <-; discriminate Z | discriminate H].
  unfold get_project_items in G.
  destruct (fetch_all _ _ fuel None []) as [all_items|e|] eqn:F; try discriminate G.
  injection G as <-.
  destruct (fetch_all_finished _ _ _ _ _ _ F) as (items & n & V & L & ->).
  destruct (get_discussion_category_id _ _ _ _ _) as [e|category_id] eqn:C;
    [injection H as <-; discriminate Z|].
  destruct category_id as [category_id|]; [|injection H as <-; discriminate Z].
  cbn [truthy default] in H. unfold id in H.
  destruct (str_truthy category_id) eqn:T; [|injection H as <-; discriminate Z].
  cbn [negb] in H.
  destruct (create_discussion _ _ _ _ _ _) as [e|url] eqn:D;
    [injection H as <-; discriminate Z|].
  injection H as <-. exists items, n, category_id, url.
  split; [exact V|]. split; [exact L|]. split; [reflexivity|].
  split; [intros ->; discriminate T|]. split; [exact D | reflexivity].
Qed.

(** X22. A run of [main] that ends with the status 0 has created one
    discussion: the name of the repository is an owner and a repository
    around one slash, the project was found in the organization, or in the
    repository after the organization held none, the items of the project
    were listed to the last page, the category "Kanban Summaries" exists,
    and the discussion holds the summary of the grouped items under the
    title "Kanban Summary: ", the title of the project, " - " and the
    date. *)
Theorem discussion_holds_the_board fuel w r :
  main py_lower strftime strftime_date fuel w = Some r ->
  exit_status r = 0%Z ->
  exists repo_name project_name board_name owner repo project items n category_id url,
    Some repo_name = from_option Some (environ w !! "GITHUB_REPOSITORY") (argv w !! 1%nat) /\
    Some project_name = from_option Some (environ w !! "PROJECT_NAME") (argv w !! 2%nat) /\
    board_name = default (default "kanban-board" (environ w !! "BOARD_NAME"))
                   (argv w !! 3%nat) /\
    owner_and_repo repo_name = inr (owner, repo) /\
    (get_organization_projects py_lower (environ w) (api w) owner project_name
     = inr (Some project) \/
     get_organization_projects py_lower (environ w) (api w) owner project_name = inr None /\
     get_repository_projects py_lower (environ w) (api w) owner repo project_name
     = inr (Some project)) /\
    serves (items_api (environ w) (api w)) (project_id project) None items n /\
    n <= fuel /\
    get_discussion_category_id py_lower (environ w) (api w) repo_name "Kanban Summaries"
    = inr (Some category_id) /\
    category_id <> "" /\
    create_discussion (environ w) (api w) repo_name category_id
      ("Kanban Summary: " +:+ project_title project +:+ " - " +:+ strftime_date (title_clock w))
      (format_kanban_summary strftime (report_clock w) (bucket_items items)
         (project_title project) board_name)
    = inr url /\
    discussion r = Some url.
Proof.
  unfold main. intros H Z.
  set (chosen_repo := match argv w !! 1%nat with Some a => Some a | None => _ end) in H.
  set (chosen_name := match argv w !! 2%nat with Some a => Some a | None => _ end) in H.
  set (board_name := match argv w !! 3%nat with Some a => a | None => _ end) in H.
  destruct (truthy chosen_repo) eqn:TR; cbn [negb] in H; [|injection H as <-; discriminate Z].
  destruct (truthy chosen_name) eqn:TN; cbn [negb] in H; [|injection H as <-; discriminate Z].
  destruct chosen_repo as [repo_name|] eqn:ER; [|discriminate TR].
  destruct chosen_name as [project_name|] eqn:EN; [|discriminate TN].
  cbn [default] in H. unfold id in H. unfold attempt in H.
  destruct (owner_and_repo repo_name) as [e|[owner repo]] eqn:O;
    [injection H as <-; discriminate Z|].
  destruct (get_organization_projects py_lower (environ w) (api w) owner project_name)
    as [e|found] eqn:G; [injection H as <-; discriminate Z|].
  assert (P : exists project,
             (found = Some project \/
              found = None /\
              get_repository_projects py_lower (environ w) (api w) owner repo project_name
              = inr (Some project)) /\
             summarize_project py_lower strftime strftime_date fuel w
               ["Fetching Kanban board from project '" +:+ project_name
                  +:+ "' in repository " +:+ repo_name +:+ "..."]
               repo_name board_name project = Some r).
  { destruct found as [project|].
    - exists project. split; [left; reflexivity | exact H].
    - destruct (get_repository_projects py_lower (environ w) (api w) owner repo project_name)
        as [e|[project|]]; try (injection H as <-; discriminate Z).
      exists project. split; [right; split; reflexivity | exact H]. }
  destruct P as (project & F & S).
  destruct (summarize_project_done _ _ _ _ _ _ _ S Z)
    as (items & n & category_id & url & V & L & C & N & D & U).
  exists repo_name, project_name, board_name, owner, repo, project, items, n, category_id, url.
  split; [rewrite <- ER; destruct (argv w !! 1%nat); reflexivity|].
  split; [rewrite <- EN; destruct (argv w !! 2%nat); reflexivity|].
  split; [subst board_name; destruct (argv w !! 3%nat); reflexivity|].
  split; [exact O|]. split.
  { rewrite G.
    destruct F as [->|[-> F]]; [left; reflexivity | right; split; [reflexivity | exact F]]. }
  auto 10.
Qed.


(** X24. The repository is looked up only after the organization answered
    without a project of the name. When the answer to the query on the
    organization carries errors (with or without data), the run ends with
    the status 1 and the message of these errors, whatever the API would
    answer to the other queries. *)
Theorem errors_on_the_organization_end_the_run fuel w repo_name project_name owner repo
    token response body errors :
  argv w !! 1%nat = None ->
  environ w !! "GITHUB_REPOSITORY" = Some repo_name ->
  environ w !! "PROJECT_NAME" = Some project_name ->
  project_name <> "" ->
  repo_name = owner +:+ "/" +:+ repo ->
  char_in "/" owner = false -> char_in "/" repo = false ->
  get_github_token (environ w) = inr token ->
  post_organization (api w) owner project_name token = inr response ->
  status_code response = 200%Z ->
  json response = inr body ->
  reply_errors body = Some errors ->
  main py_lower strftime strftime_date fuel w
  = Some (raised ["Fetching Kanban board from project '" +:+ project_name
                    +:+ "' in repository " +:+ repo_name +:+ "..."]
            ("GraphQL query returned errors: " +:+ errors)).
Proof.
  intros A1 ER EP NP E F1 F2 T P S J B.
  assert (O : owner_and_repo repo_name = inr (owner, repo)).
  { apply split_names. auto. }
  assert (NR : str_truthy repo_name = true).
  { subst repo_name. destruct owner; reflexivity. }
  assert (TP : str_truthy project_name = true)
    by (destruct project_name; [contradiction | reflexivity]).
  unfold main. rewrite A1.
  assert (A2 : argv w !! 2%nat = None).
  { apply lookup_ge_None. apply lookup_ge_None in A1. lia. }
  assert (A3 : argv w !! 3%nat = None).
  { apply lookup_ge_None. apply lookup_ge_None in A1. lia. }
  rewrite A2, A3, ER, EP. cbn [truthy]. rewrite NR, TP. cbn [negb default]. unfold id.
  unfold attempt. rewrite O.
  unfold get_organization_projects, execute_graphql_query.
  rewrite T. cbn [IssueSummaryBot.exc_bind]. rewrite P. cbn [IssueSummaryBot.exc_bind].
  rewrite S. cbn [Z.eqb Pos.eqb negb]. rewrite J. cbn [IssueSummaryBot.exc_bind].
  rewrite B. reflexivity.
Qed.

End RunFacts.

(** *** Concrete runs *)

Definition sample_content (n : Z) : content :=
  {| c_number := Some n; c_title := "Fix bug";
     c_url := "https://github.com/owner/repo/issues/2"; c_state := "OPEN";
     c_labels := ["bug"; "priority"]; c_createdAt := "2025-01-03T00:00:00Z";
     c_updatedAt := "2025-01-04T00:00:00Z" |}.

(** The single-select value [choice] of the field [field]. *)
Definition select (field choice : string) : option field_value :=
  Some {| fv_name := JStr choice; fv_field := Some {| f_name := Some field |} |}.

(** A value that is no single-select value: the empty dict. *)
Definition other_value : option field_value :=
  Some {| fv_name := JAbsent; fv_field := None |}.

Definition sample_item (n : Z) (values : list (option field_value)) : raw_item :=
  {| item_content := Some (sample_content n); item_fieldValues := values |}.

Example buckets_of_four_items :
  let items := [ sample_item 1 [other_value; select "STATUS" "Done"];
                 sample_item 2 [other_value];
                 sample_item 3 [select "Status" "Archived"];
                 {| item_content := None; item_fieldValues := [select "Status" "Ready"] |} ] in
  bucket_items items !! "Backlog" = Some [record_of (sample_content 2) 2] /\
  bucket_items items !! "Ready" = Some [] /\
  bucket_items items !! "Done" = Some [record_of (sample_content 1) 1] /\
  bucket_items items !! "Archived" = None /\
  total_issues (bucket_items items) = 2%nat.
Proof. cbv zeta. repeat split; vm_compute; reflexivity. Qed.

(** C4 at six items: a status field named in capitals, no status field, a
    status that is no column, no content, a field named "sTaTe" before one
    named "Status", and a field whose name only starts with "Status". *)
Lemma bucketing_follows_the_rule_witness :
  let items := [ sample_item 1 [other_value; select "STATUS" "Done"];
                 sample_item 2 [other_value];
                 sample_item 3 [select "Status" "Archived"];
                 {| item_content := None; item_fieldValues := [select "Status" "Ready"] |};
                 sample_item 5 [select "sTaTe" "Ready"; select "Status" "Done"];
                 sample_item 6 [select "Statuses" "Done"] ] in
  bucket_items items !! "Backlog"
  = Some [record_of (sample_content 2) 2; record_of (sample_content 6) 6] /\
  bucket_items items !! "Ready" = Some [record_of (sample_content 5) 5] /\
  bucket_items items !! "Done" = Some [record_of (sample_content 1) 1] /\
  bucket_items items !! "Archived" = None /\
  total_issues (bucket_items items) = 4%nat /\
  resolve_status [select "sTaTe" "Ready"; select "Status" "Done"] = Some "Ready" /\
  status_like "STATUS" = true /\ status_like "Statuses" = false.
Proof.
  cbv zeta.
  destruct (bucketing_follows_the_rule
              [ sample_item 1 [other_value; select "STATUS" "Done"];
                sample_item 2 [other_value];
                sample_item 3 [select "Status" "Archived"];
                {| item_content := None; item_fieldValues := [select "Status" "Ready"] |};
                sample_item 5 [select "sTaTe" "Ready"; select "Status" "Done"];
                sample_item 6 [select "Statuses" "Done"] ]) as (A & T & S & L).
  split; [exact (eq_trans (A "Backlog") eq_refl)|].
  split; [exact (eq_trans (A "Ready") eq_refl)|].
  split; [exact (eq_trans (A "Done") eq_refl)|].
  split; [exact (eq_trans (A "Archived") eq_refl)|].
  split; [exact (eq_trans T eq_refl)|].
  split; [exact (eq_trans (S (sample_item 5 [select "sTaTe" "Ready"; select "Status" "Done"]))
                   eq_refl)|].
  split; [exact (eq_trans (L "STATUS") eq_refl) | exact (eq_trans (L "Statuses") eq_refl)].
Defined.

(** C5 fails on an item whose status is "Archived": it has content and a
    number, its status is the name of no column, and it is not in
    "Backlog", which stays empty, as every other column does. *)
Lemma archived_item_is_not_in_backlog :
  let item := sample_item 3 [select "Status" "Archived"] in
  item_content item = Some (sample_content 3) /\
  c_number (sample_content 3) = Some 3%Z /\
  resolve_status (item_fieldValues item) = Some "Archived" /\
  ("Archived" ∉ known_columns) /\
  bucket_items [item] !! "Backlog" = Some [] /\
  bucket_items [item] = initial_columns.
Proof.
  cbv zeta. repeat split; try (vm_compute; reflexivity).
  unfold known_columns. rewrite !not_elem_of_cons. repeat split; try discriminate.
  apply not_elem_of_nil.
Qed.

(** The amended C5 at the "Archived" item and at an item with no status
    field, each between two items of "Backlog". *)
Lemma unknown_status_is_dropped_witness :
  let before := [sample_item 1 []] in
  let after := [sample_item 5 [select "state" "Backlog"]] in
  bucket_items (before ++ sample_item 3 [select "Status" "Archived"] :: after)
  = bucket_items (before ++ after) /\
  bucket_items (before ++ sample_item 4 [other_value] :: after) !! "Backlog"
  = Some (column_rule "Backlog" before
            ++ record_of (sample_content 4) 4 :: column_rule "Backlog" after).
Proof.
  cbv zeta. split.
  - destruct (unknown_status_is_dropped [sample_item 1 []]
                (sample_item 3 [select "Status" "Archived"])
                [sample_item 5 [select "state" "Backlog"]] (sample_content 3) 3
                eq_refl eq_refl) as (D & _).
    apply (D "Archived"); [reflexivity|].
    unfold known_columns. rewrite !not_elem_of_cons. repeat split; try discriminate.
    apply not_elem_of_nil.
  - destruct (unknown_status_is_dropped [sample_item 1 []]
                (sample_item 4 [other_value])
                [sample_item 5 [select "state" "Backlog"]] (sample_content 4) 4
                eq_refl eq_refl) as (_ & _ & B).
    apply B. reflexivity.
Defined.

(** An API that serves two pages and fails on the third query. *)
Definition failing_api : graphql := fun _ cursor =>
  match cursor with
  | None =>
      Answer (Some {| nodes := [sample_item 1 []]; hasNextPage := true;
                      endCursor := Some "c1" |})
  | Some c =>
      if String.eqb c "c1"
      then Answer (Some {| nodes := [sample_item 2 [select "Status" "Done"]];
                           hasNextPage := true; endCursor := Some "c2" |})
      else QueryFailed "GraphQL query failed with status 502: Bad Gateway"
  end.

(** An API that announces a next page for ever. *)
Definition endless_api : graphql := fun _ _ =>
  Answer (Some {| nodes := [sample_item 1 []]; hasNextPage := true;
                  endCursor := Some "again" |}).

(** An API that serves three items in two pages. *)
Definition two_pages_api : graphql := fun _ cursor =>
  match cursor with
  | None =>
      Answer (Some {| nodes := [sample_item 1 []; sample_item 2 [select "Status" "Done"]];
                      hasNextPage := true; endCursor := Some "c1" |})
  | Some _ =>
      Answer (Some {| nodes := [sample_item 3 [select "state" "Ready"]];
                      hasNextPage := false; endCursor := None |})
  end.

Example two_pages_are_gathered :
  exists columns,
    get_project_items two_pages_api 2 "PVT_1" (Some "kanban-board") = Finished columns /\
    columns !! "Backlog" = Some [record_of (sample_content 1) 1] /\
    columns !! "Ready" = Some [record_of (sample_content 3) 3] /\
    columns !! "Done" = Some [record_of (sample_content 2) 2] /\
    get_project_items two_pages_api 1 "PVT_1" (Some "kanban-board") = OutOfFuel.
Proof. eexists. split; [reflexivity|]. repeat split; vm_compute; reflexivity. Qed.

(** X2 at an API whose third query fails. *)
Lemma failed_page_fails_the_listing_witness :
  get_project_items failing_api 5 "PVT_1" None
  = Failed "GraphQL query failed with status 502: Bad Gateway".
Proof.
  apply (failed_page_fails_the_listing failing_api "PVT_1"
           ([sample_item 1 []] ++ [sample_item 2 [select "Status" "Done"]] ++ [])
           2 (Some "c2")).
  - exact (turns_page failing_api "PVT_1" None
             {| nodes := [sample_item 1 []]; hasNextPage := true; endCursor := Some "c1" |}
             _ 1 (Some "c2") eq_refl eq_refl
             (turns_page failing_api "PVT_1" (Some "c1")
                {| nodes := [sample_item 2 [select "Status" "Done"]];
                   hasNextPage := true; endCursor := Some "c2" |}
                [] 0 (Some "c2") eq_refl eq_refl (turns_none _ _ _))).
  - reflexivity.
  - lia.
Defined.

(** X3 at an API that announces a next page for ever. *)
Lemma listing_has_no_page_limit_witness :
  get_project_items endless_api 1000 "PVT_1" None = OutOfFuel.
Proof.
  apply listing_has_no_page_limit.
  assert (T : forall n cursor, exists items cursor',
               turns endless_api "PVT_1" cursor items n cursor').
  { induction n as [|n IH]; intros cursor.
    - exists [], cursor. apply turns_none.
    - destruct (IH (Some "again")) as (items & cursor' & T).
      eexists _, cursor'.
      exact (turns_page endless_api "PVT_1" cursor
               {| nodes := [sample_item 1 []]; hasNextPage := true;
                  endCursor := Some "again" |}
               items n cursor' eq_refl eq_refl T). }
  intros n. apply T.
Defined.

(** X5 at an item of "Done" between two other items. *)
Lemma placed_issue_is_printed_witness :
  let earlier := [sample_item 1 [select "Status" "Done"]] in
  let item := sample_item 3 [other_value; select "STATUS" "Done"] in
  let later := [sample_item 4 []] in
  exists emoji before after,
    ("Done", emoji) ∈ column_config /\
    format_kanban_summary pretty 0 (bucket_items (earlier ++ item :: later)) "Roadmap" "kanban-board"
    = before +:+ "## " +:+ emoji +:+ " Done (2)" +:+ nl +:+ nl
        +:+ "- [#1: Fix bug](https://github.com/owner/repo/issues/2)" +:+ nl
        +:+ "  - **Labels:** bug, priority" +:+ nl
        +:+ "  - **Status:** OPEN" +:+ nl
        +:+ "- [#3: Fix bug](https://github.com/owner/repo/issues/2)" +:+ nl
        +:+ "  - **Labels:** bug, priority" +:+ nl
        +:+ "  - **Status:** OPEN" +:+ nl
        +:+ nl +:+ after.
Proof.
  cbv zeta.
  assert (K : "Done" ∈ known_columns).
  { unfold known_columns. rewrite !elem_of_cons. auto 10. }
  destruct (placed_issue_is_printed pretty 0 [sample_item 1 [select "Status" "Done"]]
              (sample_item 3 [other_value; select "STATUS" "Done"]) [sample_item 4 []]
              (sample_content 3) 3 "Done" "Roadmap" "kanban-board"
              eq_refl eq_refl eq_refl K) as (emoji & before & after & C & Q).
  exists emoji, before, after. split; [exact C|].
  rewrite Q. do 4 f_equal.
Defined.

(** *** Concrete runs of the bot *)

(** A response with the status 200 and the data [d]. *)
Definition answer {A : Type} (d : A) : exc (http_response A) :=
  inr {| status_code := 200; text := "";
         json := inr {| reply_errors := None; reply_data := Some d |} |}.

(** A response with the status 200, no project and the errors of a login
    that is no organization. *)
Definition no_organization : exc (http_response (option (list project))) :=
  inr {| status_code := 200; text := "";
         json := inr {| reply_errors := Some "[{'type': 'NOT_FOUND'}]";
                        reply_data := Some None |} |}.

(** An API with the project "Roadmap" in the organization, the items of
    [two_pages_api] and a category for the summaries. *)
Definition sample_platform : platform :=
  {| post_organization := fun _ _ _ =>
       answer (Some [ {| project_id := "PVT_0"; project_title := "Roadmap 2024";
                         project_number := 2 |};
                      {| project_id := "PVT_1"; project_title := "Roadmap";
                         project_number := 3 |} ]);
     post_repository := fun _ _ _ _ => answer None;
     post_items := fun project_id cursor _ =>
       match two_pages_api project_id cursor with
       | Answer items => answer items
       | QueryFailed e => inl e
       end;
     post_categories := fun _ _ _ =>
       answer (Some [ {| cat_id := "DIC_1"; cat_name := "General" |};
                      {| cat_id := "DIC_2"; cat_name := "Kanban Summaries" |} ]);
     post_repository_id := fun _ _ _ => answer (Some "R_1");
     post_discussion := fun _ _ _ _ _ =>
       answer "https://github.com/owner/repo/discussions/9" |}.

(** The same API for an owner that is a user: the query on the
    organization comes back with errors. *)
Definition user_platform : platform :=
  {| post_organization := fun _ _ _ => no_organization;
     post_repository := fun _ _ _ _ =>
       answer (Some [ {| project_id := "PVT_1"; project_title := "Roadmap";
                         project_number := 3 |} ]);
     post_items := post_items sample_platform;
     post_categories := post_categories sample_platform;
     post_repository_id := post_repository_id sample_platform;
     post_discussion := post_discussion sample_platform |}.

Definition sample_world (variables : list (string * string)) (arguments : list string)
    (service : platform) : world :=
  {| environ := list_to_map variables; argv := arguments; api := service;
     report_clock := 1735689600; title_clock := 1735689601 |}.

(** The run on the sample API, with the names in the environment. *)
Definition sample_run : option result :=
  main lower pretty pretty 5
    (sample_world [("GITHUB_REPOSITORY", "owner/repo"); ("PROJECT_NAME", "roadmap");
                   ("GITHUB_TOKEN", "t")]
       ["kanban_summary_bot.py"] sample_platform).

(** What the sample run leaves. *)
Definition sample_result : result :=
  {| stdout := ["Fetching Kanban board from project 'roadmap' in repository owner/repo...";
                "Found project: Roadmap (#3)";
                "Found 3 issues across all columns";
                "Successfully created discussion: https://github.com/owner/repo/discussions/9"];
     stderr := [];
     discussion := Some "https://github.com/owner/repo/discussions/9";
     exit_status := 0 |}.

Example sample_run_result : sample_run = Some sample_result.
Proof. vm_compute. reflexivity. Qed.

(** X21 at two environments that name different repositories, under the
    same three arguments. *)
Lemma arguments_override_the_environment_witness :
  main lower pretty pretty 5
    (sample_world [("GITHUB_REPOSITORY", "other/place"); ("BOARD_NAME", "b");
                   ("GITHUB_TOKEN", "t")]
       ["kanban_summary_bot.py"; "owner/repo"; "Roadmap"; "kanban-board"] sample_platform)
  = main lower pretty pretty 5
      (sample_world [("GITHUB_TOKEN", "t")]
         ["kanban_summary_bot.py"; "owner/repo"; "Roadmap"; "kanban-board"] sample_platform).
Proof.
  exact (arguments_override_the_environment lower pretty pretty 5
           (sample_world [("GITHUB_REPOSITORY", "other/place"); ("BOARD_NAME", "b");
                          ("GITHUB_TOKEN", "t")]
              ["kanban_summary_bot.py"; "owner/repo"; "Roadmap"; "kanban-board"]
              sample_platform)
           (sample_world [("GITHUB_TOKEN", "t")]
              ["kanban_summary_bot.py"; "owner/repo"; "Roadmap"; "kanban-board"]
              sample_platform)
           eq_refl (le_n 4) eq_refl eq_refl eq_refl eq_refl).
Defined.

(** X22 at the sample run. *)
Lemma discussion_holds_the_board_witness :
  let w := sample_world [("GITHUB_REPOSITORY", "owner/repo"); ("PROJECT_NAME", "roadmap");
                         ("GITHUB_TOKEN", "t")]
             ["kanban_summary_bot.py"] sample_platform in
  exists repo_name project_name board_name owner repo project items n category_id url,
    Some repo_name = from_option Some (environ w !! "GITHUB_REPOSITORY") (argv w !! 1%nat) /\
    Some project_name = from_option Some (environ w !! "PROJECT_NAME") (argv w !! 2%nat) /\
    board_name = default (default "kanban-board" (environ w !! "BOARD_NAME"))
                   (argv w !! 3%nat) /\
    owner_and_repo repo_name = inr (owner, repo) /\
    (get_organization_projects lower (environ w) (api w) owner project_name
     = inr (Some project) \/
     get_organization_projects lower (environ w) (api w) owner project_name = inr None /\
     get_repository_projects lower (environ w) (api w) owner repo project_name
     = inr (Some project)) /\
    serves (items_api (environ w) (api w)) (project_id project) None items n /\
    n <= 5 /\
    get_discussion_category_id lower (environ w) (api w) repo_name "Kanban Summaries"
    = inr (Some category_id) /\
    category_id <> "" /\
    create_discussion (environ w) (api w) repo_name category_id
      ("Kanban Summary: " +:+ project_title project +:+ " - " +:+ pretty (title_clock w))
      (format_kanban_summary pretty (report_clock w) (bucket_items items)
         (project_title project) board_name)
    = inr url /\
    discussion sample_result = Some url.
Proof.
  assert (H : sample_run = Some sample_result) by (vm_compute; reflexivity).
  exact (discussion_holds_the_board lower pretty pretty 5 _ sample_result H eq_refl).
Defined.


(** X24 at a repository of a user, whose project the lookup in the
    repository would find. *)
Lemma errors_on_the_organization_end_the_run_witness :
  main lower pretty pretty 5
    (sample_world [("GITHUB_REPOSITORY", "owner/repo"); ("PROJECT_NAME", "Roadmap");
                   ("GITHUB_TOKEN", "t")]
       ["kanban_summary_bot.py"] user_platform)
  = Some (raised ["Fetching Kanban board from project '" +:+ "Roadmap"
                    +:+ "' in repository " +:+ "owner/repo" +:+ "..."]
            ("GraphQL query returned errors: " +:+ "[{'type': 'NOT_FOUND'}]")).
Proof.
  exact (errors_on_the_organization_end_the_run lower pretty pretty 5
           (sample_world [("GITHUB_REPOSITORY", "owner/repo"); ("PROJECT_NAME", "Roadmap");
                          ("GITHUB_TOKEN", "t")]
              ["kanban_summary_bot.py"] user_platform)
           "owner/repo" "Roadmap" "owner" "repo" "t"
           {| status_code := 200; text := "";
              json := inr {| reply_errors := Some "[{'type': 'NOT_FOUND'}]";
                             reply_data := Some None |} |}
           {| reply_errors := Some "[{'type': 'NOT_FOUND'}]"; reply_data := Some None |}
           "[{'type': 'NOT_FOUND'}]"
           eq_refl eq_refl eq_refl ltac:(discriminate) eq_refl eq_refl eq_refl eq_refl
           eq_refl eq_refl eq_refl eq_refl).
Defined.

End KanbanSummaryBot.
